(** * adb host-side USB transport (adb/usb_linux.cpp)

    A shallow embedding of the Linux usbfs back end of adb: the descriptor
    scan and the directory walk of [find_usb_device], the handle list with
    its mark-and-sweep ([is_known_device], [kick_disconnected_devices],
    [register_device], [usb_close]), the bulk transfer calls
    ([usb_bulk_write], [usb_bulk_read], [usb_write], [usb_read], [usb_kick])
    and one turn of [device_poll_thread].  The definitions come first, the
    properties after them.

    Conventions.
    - C integers are [Z]; conversions to [unsigned] are written out with
      [to_unsigned].
    - The descriptor buffer [devdesc] is a function from byte offsets to byte
      values.  Every byte the code loads is recorded, in program order, in a
      read log, so that statements about which offsets are touched can be
      made.  Offsets at or beyond the number of bytes read from the device
      node hold whatever the stack held.
    - Kernel calls and the other threads are an explicit environment: the
      answers of the usbfs ioctls and of the condition-variable wait are
      queues consumed by the calling thread, and every answer of a blocking
      call carries the change the other threads (and the kernel) made to the
      handle while the handle's mutex was released.
    - Handles live in a store ([gmap] from addresses to [usb_handle]) and
      [g_usb_handles] is a list of addresses, as in the source.
    - What is not in adb/usb_linux.cpp is a parameter ([is_adb_interface],
      [android::base::Trim]) or an event of the trace
      ([register_usb_transport], [unregister_usb_transport], the system
      calls). *)

From stdpp Require Import gmap strings list fin_maps pretty.
From Stdlib Require Import ZArith Lia.

Local Open Scope Z_scope.

(** ** Constants of <linux/usb/ch9.h> and <errno.h>

    These headers are not part of the repository; the values are the ones of
    the Linux UAPI. *)
Module Ch9.

Definition USB_DT_DEVICE : Z := 1.
Definition USB_DT_CONFIG : Z := 2.
Definition USB_DT_INTERFACE : Z := 4.
Definition USB_DT_ENDPOINT : Z := 5.
Definition USB_DT_SS_ENDPOINT_COMP : Z := 48.

Definition USB_DT_DEVICE_SIZE : Z := 18.
Definition USB_DT_CONFIG_SIZE : Z := 9.
Definition USB_DT_INTERFACE_SIZE : Z := 9.
Definition USB_DT_ENDPOINT_SIZE : Z := 7.
Definition USB_DT_SS_EP_COMP_SIZE : Z := 6.

Definition USB_ENDPOINT_XFER_BULK : Z := 2.
Definition USB_ENDPOINT_DIR_MASK : Z := 128.

Definition USBDEVFS_URB_TYPE_BULK : Z := 3.

Definition EINTR : Z := 4.
Definition ENODEV : Z := 19.
Definition EINVAL : Z := 22.
Definition ETIMEDOUT : Z := 110.

End Ch9.

Import Ch9.

(** [unsigned] is 32 bits wide. *)
Definition to_unsigned (z : Z) : Z := z mod 2 ^ 32.

(** ** Logged loads from the descriptor buffer *)
Module Load.

(** A computation that loads bytes: its value and the offsets it loaded. *)
Definition Rd (A : Type) : Type := (A * list Z)%type.

Definition ret {A} (a : A) : Rd A := (a, []).

Definition bind {A B} (m : Rd A) (f : A -> Rd B) : Rd B :=
  let r := f (fst m) in (fst r, snd m ++ snd r).

Definition value {A} (m : Rd A) : A := fst m.
Definition loads {A} (m : Rd A) : list Z := snd m.

(** One byte at offset [off] of [devdesc]. *)
Definition u8 (devdesc : Z -> Z) (off : Z) : Rd Z := (devdesc off, [off]).

(** A little-endian 16-bit field ([__le16] on a little-endian host). *)
Definition le16 (devdesc : Z -> Z) (off : Z) : Rd Z :=
  bind (u8 devdesc off) (fun lo =>
  bind (u8 devdesc (off + 1)) (fun hi => ret (lo + 256 * hi))).

(** [a || b] and [a && b] of C: the right operand is evaluated, and its
    bytes loaded, only when the left one does not decide. *)
Definition orR (a b : Rd bool) : Rd bool :=
  bind a (fun x => if x then ret true else b).

Definition andR (a b : Rd bool) : Rd bool :=
  bind a (fun x => if x then b else ret false).

Definition neq (m : Rd Z) (c : Z) : Rd bool :=
  bind m (fun v => ret (negb (v =? c))).

Definition eq (m : Rd Z) (c : Z) : Rd bool :=
  bind m (fun v => ret (v =? c)).

End Load.

Notation "'let*' x ':=' m 'in' k" := (Load.bind m (fun x => k))
  (at level 10, x name, m at level 100, k at level 200).

(** ** The descriptor scan of [find_usb_device] *)

(** The arguments [find_usb_device] passes to the registration callback,
    apart from the two path strings. *)
Record usb_match := UsbMatch {
  m_ep_in : Z;
  m_ep_out : Z;
  m_interface : Z;
  m_serial_index : Z;
  m_zero_mask : Z
}.

(** How the scan of one device node ends. *)
Inductive scan_result :=
| Registered (m : usb_match)   (* the callback was called, then [break] *)
| Skipped                      (* the loop was left without a callback *)
| Scanning.                    (* the loop is still running (fuel used up) *)

(** What one turn of the [while (bufptr < bufend)] loop does. *)
Inductive turn :=
| Next (bufptr : Z)            (* falls through or [continue]s *)
| Stop (r : scan_result).      (* [break]s *)

Section Scan.

(** [is_adb_interface] of adb.cpp, the interface policy. *)
Variable is_adb_interface : Z -> Z -> Z -> Z -> Z -> bool.

(** The bytes of [devdesc], and [desclength]: what [unix_read] returned, as
    a [size_t]. *)
Variable devdesc : Z -> Z.
Variable desclength : Z.

(** Lines 222-226 and 229-233: skip a SuperSpeed endpoint companion. *)
Definition skip_ss_ep_comp (bufptr : Z) : Load.Rd Z :=
  let* c :=
    Load.andR (Load.ret (bufptr + 2 <=? desclength))
      (Load.andR (Load.eq (Load.u8 devdesc bufptr) USB_DT_SS_EP_COMP_SIZE)
                 (Load.eq (Load.u8 devdesc (bufptr + 1)) USB_DT_SS_ENDPOINT_COMP)) in
  Load.ret (if c then bufptr + USB_DT_SS_EP_COMP_SIZE else bufptr).

(** Lines 218-284: the interface at [interface] looks like ADB and [bufptr]
    is just behind it. *)
Definition match_endpoints (interface bufptr : Z) : Load.Rd turn :=
  let ep1 := bufptr in
  let bufptr := bufptr + USB_DT_ENDPOINT_SIZE in
  let* bufptr := skip_ss_ep_comp bufptr in
  let ep2 := bufptr in
  let bufptr := bufptr + USB_DT_ENDPOINT_SIZE in
  let* bufptr := skip_ss_ep_comp bufptr in
  let* bad :=
    Load.orR (Load.ret (desclength <? bufptr))
      (Load.orR (Load.neq (Load.u8 devdesc ep1) USB_DT_ENDPOINT_SIZE)
      (Load.orR (Load.neq (Load.u8 devdesc (ep1 + 1)) USB_DT_ENDPOINT)
      (Load.orR (Load.neq (Load.u8 devdesc ep2) USB_DT_ENDPOINT_SIZE)
                (Load.neq (Load.u8 devdesc (ep2 + 1)) USB_DT_ENDPOINT)))) in
  if bad then Load.ret (Stop Skipped) else
  let* notbulk :=
    Load.orR (Load.neq (Load.u8 devdesc (ep1 + 3)) USB_ENDPOINT_XFER_BULK)
             (Load.neq (Load.u8 devdesc (ep2 + 3)) USB_ENDPOINT_XFER_BULK) in
  if notbulk then Load.ret (Next bufptr) else
  let* proto := Load.u8 devdesc (interface + 7) in
  let* zero_mask :=
    (if proto =? 1
     then let* mps := Load.le16 devdesc (ep1 + 4) in
          Load.ret (to_unsigned (mps - 1))
     else Load.ret 0) in
  let* addr1 := Load.u8 devdesc (ep1 + 2) in
  let* eps :=
    (if negb (Z.land addr1 USB_ENDPOINT_DIR_MASK =? 0)
     then let* i := Load.u8 devdesc (ep1 + 2) in
          let* o := Load.u8 devdesc (ep2 + 2) in Load.ret (i, o)
     else let* i := Load.u8 devdesc (ep2 + 2) in
          let* o := Load.u8 devdesc (ep1 + 2) in Load.ret (i, o)) in
  let* ifnum := Load.u8 devdesc (interface + 2) in
  let* serial := Load.u8 devdesc 16 in
  Load.ret (Stop (Registered (UsbMatch (fst eps) (snd eps) ifnum serial zero_mask))).

(** Lines 190-288: one turn of the loop, entered with [bufptr < bufend]. *)
Definition descriptor_turn (vid pid bufptr : Z) : Load.Rd turn :=
  let* length := Load.u8 devdesc bufptr in
  let* type := Load.u8 devdesc (bufptr + 1) in
  if type =? USB_DT_INTERFACE then
    let interface := bufptr in
    let bufptr := bufptr + length in
    if negb (length =? USB_DT_INTERFACE_SIZE) then Load.ret (Stop Skipped) else
    let* adb :=
      Load.andR (Load.eq (Load.u8 devdesc (interface + 4)) 2)
        (let* cls := Load.u8 devdesc (interface + 5) in
         let* sub := Load.u8 devdesc (interface + 6) in
         let* proto := Load.u8 devdesc (interface + 7) in
         Load.ret (is_adb_interface vid pid cls sub proto)) in
    if adb then match_endpoints interface bufptr else Load.ret (Next bufptr)
  else Load.ret (Next (bufptr + length)).

(** Lines 189-289.  The loop need not end, so it is run for at most [fuel]
    turns; [Scanning] says that it was still running then. *)
Fixpoint descriptor_loop (fuel : nat) (vid pid bufptr : Z) : Load.Rd scan_result :=
  if bufptr <? desclength then
    match fuel with
    | O => Load.ret Scanning
    | S fuel =>
        let* t := descriptor_turn vid pid bufptr in
        match t with
        | Next bufptr => descriptor_loop fuel vid pid bufptr
        | Stop r => Load.ret r
        end
    end
  else Load.ret Skipped.

(** Lines 157-289: what [find_usb_device] does with the [desclength] bytes
    it read from one device node. *)
Definition find_usb_device_parse (fuel : nat) : Load.Rd scan_result :=
  if desclength <? USB_DT_DEVICE_SIZE + USB_DT_CONFIG_SIZE then Load.ret Skipped else
  let device := 0 in
  let bufptr := USB_DT_DEVICE_SIZE in
  let* bad := Load.orR (Load.neq (Load.u8 devdesc device) USB_DT_DEVICE_SIZE)
                       (Load.neq (Load.u8 devdesc (device + 1)) USB_DT_DEVICE) in
  if bad then Load.ret Skipped else
  let* vid := Load.le16 devdesc (device + 8) in
  let* pid := Load.le16 devdesc (device + 10) in
  let config := bufptr in
  let bufptr := bufptr + USB_DT_CONFIG_SIZE in
  let* bad := Load.orR (Load.neq (Load.u8 devdesc config) USB_DT_CONFIG_SIZE)
                       (Load.neq (Load.u8 devdesc (config + 1)) USB_DT_CONFIG) in
  if bad then Load.ret Skipped else
  descriptor_loop fuel vid pid bufptr.

End Scan.

(** A buffer given by its bytes; [garbage] is what lies behind them. *)
Definition buffer_of (bytes : list Z) (garbage : Z) : Z -> Z :=
  fun off => if off <? 0 then garbage else nth (Z.to_nat off) bytes garbage.

(** A well-formed device descriptor and configuration descriptor. *)
Definition device_header : list Z :=
  [18; 1; 0; 2; 0; 0; 0; 64; 209; 24; 1; 208; 0; 1; 1; 2; 3; 1].
Definition config_header : list Z := [9; 2; 32; 0; 1; 1; 0; 128; 250].

(** An interface policy for the examples: class 255, subclass 66,
    protocol 1, as the ADB interface has. *)
Definition adb_class_policy (vid pid cls sub proto : Z) : bool :=
  (cls =? 255) && (sub =? 66) && (proto =? 1).

(** ** Handles *)

(** The fields of [usbdevfs_urb] the code uses.  [urb_buffer] is the address
    the caller's data pointer holds. *)
Record usbdevfs_urb := Urb {
  urb_type : Z;
  urb_endpoint : Z;
  urb_status : Z;
  urb_buffer : Z;
  urb_buffer_length : Z;
  urb_actual_length : Z
}.

(** [memset(urb, 0, sizeof( *urb))]. *)
Definition urb_zero : usbdevfs_urb := Urb 0 0 0 0 0 0.

Definition urb_with_status (s : Z) (u : usbdevfs_urb) : usbdevfs_urb :=
  Urb (urb_type u) (urb_endpoint u) s (urb_buffer u) (urb_buffer_length u)
      (urb_actual_length u).

(** The five assignments that follow the [memset] in both bulk calls. *)
Definition urb_bulk (endpoint data len : Z) : usbdevfs_urb :=
  Urb USBDEVFS_URB_TYPE_BULK endpoint (-1) data len 0.

Record usb_handle := Handle {
  path : string;
  fd : Z;
  ep_in : Z;
  ep_out : Z;
  zero_mask : Z;
  writeable : Z;
  urb_in : usbdevfs_urb;
  urb_out : usbdevfs_urb;
  urb_in_busy : bool;
  urb_out_busy : bool;
  dead : bool;
  mark : bool;
  reaper_thread : Z
}.

Definition with_fd (v : Z) (h : usb_handle) : usb_handle :=
  Handle (path h) v (ep_in h) (ep_out h) (zero_mask h) (writeable h) (urb_in h)
    (urb_out h) (urb_in_busy h) (urb_out_busy h) (dead h) (mark h) (reaper_thread h).
Definition with_writeable (v : Z) (h : usb_handle) : usb_handle :=
  Handle (path h) (fd h) (ep_in h) (ep_out h) (zero_mask h) v (urb_in h)
    (urb_out h) (urb_in_busy h) (urb_out_busy h) (dead h) (mark h) (reaper_thread h).
Definition with_urb_in (v : usbdevfs_urb) (h : usb_handle) : usb_handle :=
  Handle (path h) (fd h) (ep_in h) (ep_out h) (zero_mask h) (writeable h) v
    (urb_out h) (urb_in_busy h) (urb_out_busy h) (dead h) (mark h) (reaper_thread h).
Definition with_urb_out (v : usbdevfs_urb) (h : usb_handle) : usb_handle :=
  Handle (path h) (fd h) (ep_in h) (ep_out h) (zero_mask h) (writeable h) (urb_in h)
    v (urb_in_busy h) (urb_out_busy h) (dead h) (mark h) (reaper_thread h).
Definition with_urb_in_busy (v : bool) (h : usb_handle) : usb_handle :=
  Handle (path h) (fd h) (ep_in h) (ep_out h) (zero_mask h) (writeable h) (urb_in h)
    (urb_out h) v (urb_out_busy h) (dead h) (mark h) (reaper_thread h).
Definition with_urb_out_busy (v : bool) (h : usb_handle) : usb_handle :=
  Handle (path h) (fd h) (ep_in h) (ep_out h) (zero_mask h) (writeable h) (urb_in h)
    (urb_out h) (urb_in_busy h) v (dead h) (mark h) (reaper_thread h).
Definition with_dead (v : bool) (h : usb_handle) : usb_handle :=
  Handle (path h) (fd h) (ep_in h) (ep_out h) (zero_mask h) (writeable h) (urb_in h)
    (urb_out h) (urb_in_busy h) (urb_out_busy h) v (mark h) (reaper_thread h).
Definition with_mark (v : bool) (h : usb_handle) : usb_handle :=
  Handle (path h) (fd h) (ep_in h) (ep_out h) (zero_mask h) (writeable h) (urb_in h)
    (urb_out h) (urb_in_busy h) (urb_out_busy h) (dead h) v (reaper_thread h).
Definition with_reaper_thread (v : Z) (h : usb_handle) : usb_handle :=
  Handle (path h) (fd h) (ep_in h) (ep_out h) (zero_mask h) (writeable h) (urb_in h)
    (urb_out h) (urb_in_busy h) (urb_out_busy h) (dead h) (mark h) v.

(** ** What a call does to the outside *)

Inductive slot := SlotIn | SlotOut.

Inductive event :=
| EvBulkWrite (data len : Z)      (* [usb_bulk_write] entered *)
| EvBulkRead (data len : Z)       (* [usb_bulk_read] entered *)
| EvLock                          (* the handle's mutex taken *)
| EvUnlock                        (* the handle's mutex released *)
| EvSubmit (urb : usbdevfs_urb)   (* ioctl USBDEVFS_SUBMITURB *)
| EvReap (fd : Z)                 (* ioctl USBDEVFS_REAPURB *)
| EvWait (seconds : Z)            (* [cv.wait_until(lock, now + seconds)]; the
                                     mutex is released while waiting *)
| EvNotifyAll                     (* [cv.notify_all()] *)
| EvDiscard (s : slot)            (* ioctl USBDEVFS_DISCARDURB *)
| EvKill (thread : Z)             (* [pthread_kill(thread, SIGALRM)] *)
| EvUnregister.                   (* [unregister_usb_transport(h)] *)

(** ** The environment of a transfer call *)

(** The kernel's answer to one USBDEVFS_SUBMITURB. *)
Record submit_answer := SubmitAnswer {
  submit_rc : Z;
  submit_errno : Z
}.

(** One return of [cv.wait_until]: whether it timed out, and what the other
    threads did to the handle while the mutex was released. *)
Record wake := Wake {
  wake_timeout : bool;
  wake_change : usb_handle -> usb_handle
}.

(** One return of USBDEVFS_REAPURB: its value, the [errno] it leaves when it
    fails, the request it hands back, and what the kernel and the other
    threads did to the handle in the meantime. *)
Inductive reaped := ReapedIn | ReapedOut | ReapedOther.

Record reap_answer := ReapAnswer {
  reap_rc : Z;
  reap_errno : Z;
  reap_out : reaped;
  reap_change : usb_handle -> usb_handle
}.

(** The calling thread's view: the handle it works on, its [errno], what it
    has done so far, and the answers still to come.  A call that needs an
    answer when none is left stays blocked. *)
Record state := State {
  hnd : usb_handle;
  errno : Z;
  trace : list event;
  submits : list submit_answer;
  reaps : list reap_answer;
  wakes : list wake;
  self : Z
}.

Definition with_hnd (v : usb_handle) (s : state) : state :=
  State v (errno s) (trace s) (submits s) (reaps s) (wakes s) (self s).
Definition with_errno (v : Z) (s : state) : state :=
  State (hnd s) v (trace s) (submits s) (reaps s) (wakes s) (self s).
Definition with_submits (v : list submit_answer) (s : state) : state :=
  State (hnd s) (errno s) (trace s) v (reaps s) (wakes s) (self s).
Definition with_reaps (v : list reap_answer) (s : state) : state :=
  State (hnd s) (errno s) (trace s) (submits s) v (wakes s) (self s).
Definition with_wakes (v : list wake) (s : state) : state :=
  State (hnd s) (errno s) (trace s) (submits s) (reaps s) v (self s).
Definition emit (e : event) (s : state) : state :=
  State (hnd s) (errno s) (trace s ++ [e]) (submits s) (reaps s) (wakes s) (self s).
Definition on_hnd (f : usb_handle -> usb_handle) (s : state) : state :=
  with_hnd (f (hnd s)) s.

Inductive result (A : Type) :=
| Ret (a : A)       (* the call returned [a] *)
| Blocked.          (* the call is still waiting for the environment *)
Arguments Ret {A} a.
Arguments Blocked {A}.

(** Leaving a function whose [std::unique_lock] is held. *)
Definition leave (rc : Z) (s : state) : result Z * state :=
  (Ret rc, emit EvUnlock s).

(** ** The transfer engine *)

(** [TEMP_FAILURE_RETRY(ioctl(h->fd, USBDEVFS_SUBMITURB, urb))]: the ioctl is
    repeated while it fails with EINTR. *)
Fixpoint submit_urb (answers : list submit_answer) (urb : usbdevfs_urb) (s : state)
  : result Z * state :=
  match answers with
  | [] => (Blocked, with_submits [] s)
  | a :: answers =>
      let s := emit (EvSubmit urb) (with_submits answers s) in
      let s := if submit_rc a =? -1 then with_errno (submit_errno a) s else s in
      if (submit_rc a =? -1) && (errno s =? EINTR)
      then submit_urb answers urb s
      else (Ret (submit_rc a), s)
  end.

(** Lines 318-332: the writer waits for its request to complete. *)
Fixpoint write_wait (ws : list wake) (s : state) : result Z * state :=
  match ws with
  | [] => (Blocked, with_wakes [] (emit (EvWait 5) s))
  | w :: ws =>
      let s := on_hnd (wake_change w) (with_wakes ws (emit (EvWait 5) s)) in
      if wake_timeout w || dead (hnd s) then
        leave (-1) (with_errno ETIMEDOUT s)
      else if negb (urb_out_busy (hnd s)) then
        if negb (urb_status (urb_out (hnd s)) =? 0)
        then leave (-1) (with_errno (- urb_status (urb_out (hnd s))) s)
        else leave (urb_actual_length (urb_out (hnd s))) s
      else write_wait ws s
  end.

(** Lines 297-306: the mutex is taken and [urb_out] filled in. *)
Definition write_entered (data len : Z) (s : state) : state :=
  on_hnd (fun h => with_urb_out (urb_bulk (ep_out h) data len) h)
         (emit EvLock (emit (EvBulkWrite data len) s)).

(** Lines 296-333. *)
Definition usb_bulk_write (data len : Z) (s : state) : result Z * state :=
  let s := write_entered data len s in
  if dead (hnd s) then leave (-1) (with_errno EINVAL s) else
  match submit_urb (submits s) (urb_out (hnd s)) s with
  | (Blocked, s) => (Blocked, s)
  | (Ret rc, s) =>
      if rc =? -1 then leave (-1) s else
      let s := on_hnd (with_urb_out_busy true) s in
      write_wait (wakes s) s
  end.

(** Lines 357-398: the reader reaps completions until its own arrives. *)
Fixpoint read_reap (rs : list reap_answer) (s : state) : result Z * state :=
  let s := on_hnd (with_reaper_thread (self s)) s in
  let fd := fd (hnd s) in
  let s := emit (EvReap fd) (emit EvUnlock s) in
  match rs with
  | [] => (Blocked, with_reaps [] s)
  | r :: rs =>
      let s := on_hnd (reap_change r) (with_reaps rs s) in
      let s := if reap_rc r <? 0 then with_errno (reap_errno r) s else s in
      let saved_errno := errno s in
      let s := on_hnd (with_reaper_thread 0) (emit EvLock s) in
      if dead (hnd s) then leave (-1) (with_errno EINVAL s)
      else if reap_rc r <? 0 then
        if saved_errno =? EINTR then read_reap rs s
        else leave (-1) (with_errno saved_errno s)
      else
        match reap_out r with
        | ReapedIn =>
            let s := on_hnd (with_urb_in_busy false) s in
            if negb (urb_status (urb_in (hnd s)) =? 0)
            then leave (-1) (with_errno (- urb_status (urb_in (hnd s))) s)
            else leave (urb_actual_length (urb_in (hnd s))) s
        | ReapedOut =>
            read_reap rs (emit EvNotifyAll (on_hnd (with_urb_out_busy false) s))
        | ReapedOther => read_reap rs s
        end
  end.

(** Lines 336-345: the mutex is taken and [urb_in] filled in. *)
Definition read_entered (data len : Z) (s : state) : state :=
  on_hnd (fun h => with_urb_in (urb_bulk (ep_in h) data len) h)
         (emit EvLock (emit (EvBulkRead data len) s)).

(** Lines 335-399. *)
Definition usb_bulk_read (data len : Z) (s : state) : result Z * state :=
  let s := read_entered data len s in
  if dead (hnd s) then leave (-1) (with_errno EINVAL s) else
  match submit_urb (submits s) (urb_in (hnd s)) s with
  | (Blocked, s) => (Blocked, s)
  | (Ret rc, s) =>
      if rc =? -1 then leave (-1) s else
      let s := on_hnd (with_urb_in_busy true) s in
      read_reap (reaps s) s
  end.

(** Lines 402-421.  [len & h->zero_mask] converts [len] to [unsigned]. *)
Definition usb_write (data len : Z) (s : state) : result Z * state :=
  match usb_bulk_write data len s with
  | (Blocked, s) => (Blocked, s)
  | (Ret n, s) =>
      if negb (n =? len) then (Ret (-1), s)
      else if negb (zero_mask (hnd s) =? 0)
              && (Z.land (to_unsigned len) (zero_mask (hnd s)) =? 0)
      then usb_bulk_write data 0 s
      else (Ret 0, s)
  end.

(** Lines 429-451: the loop of [usb_read].  Besides the state it gives back
    the values [data] and [len] have when the function is left.  Every turn
    that is followed by another one has taken a submit answer, so the number
    of turns is bounded by the answers left; [fuel] is that bound. *)
Fixpoint usb_read_loop (fuel : nat) (data len : Z) (s : state)
  : result Z * (Z * Z) * state :=
  if 0 <? len then
    match fuel with
    | O => (Blocked, (data, len), s)
    | S fuel =>
        let xfer := len in
        match usb_bulk_read data xfer s with
        | (Blocked, s) => (Blocked, (data, len), s)
        | (Ret n, s) =>
            if negb (n =? xfer) then
              if (errno s =? ETIMEDOUT) && negb (fd (hnd s) =? -1) then
                if 0 <? n
                then usb_read_loop fuel (data + n) (len - n) s
                else usb_read_loop fuel data len s
              else (Ret (-1), (data, len), s)
            else usb_read_loop fuel (data + xfer) (len - xfer) s
        end
    end
  else (Ret 0, (data, len), s).

(** Lines 423-455. *)
Definition usb_read (data len : Z) (s : state) : result Z * state :=
  let r := usb_read_loop (S (length (submits s))) data len s in
  (fst (fst r), snd r).

(** Lines 457-488. *)
Definition usb_kick (h : usb_handle) : usb_handle * list event :=
  if dead h then (h, [EvLock; EvUnlock]) else
  let h := with_dead true h in
  if negb (writeable h =? 0) then
    let kill := if negb (reaper_thread h =? 0) then [EvKill (reaper_thread h)] else [] in
    let h := with_urb_in (urb_with_status (- ENODEV) (urb_in h)) h in
    let h := with_urb_out (urb_with_status (- ENODEV) (urb_out h)) h in
    let h := with_urb_in_busy false h in
    let h := with_urb_out_busy false h in
    (h, [EvLock] ++ kill ++ [EvDiscard SlotIn; EvDiscard SlotOut; EvNotifyAll; EvUnlock])
  else (h, [EvLock; EvUnregister; EvUnlock]).

(** ** The handle list *)

(** Addresses of [usb_handle] objects. *)
Abbreviation addr := positive (only parsing).

(** The heap of handles and [g_usb_handles].  The list only ever holds
    addresses of allocated handles; the loops below step over any other
    address. *)
Record registry := Registry {
  heap : gmap positive usb_handle;
  g_usb_handles : list positive
}.

(** What the registry functions do to the outside. *)
Inductive reg_event :=
| OnHandle (p : addr) (e : event)     (* [e] done on the handle at [p] *)
| EvOpen (name : string) (rdwr : bool) (* [unix_open], O_RDWR or O_RDONLY *)
| EvRead (fd : Z)                     (* [unix_read] of the descriptors *)
| EvClose (fd : Z)                    (* [unix_close], also from [~usb_handle] *)
| EvClaim (fd interface : Z)          (* ioctl USBDEVFS_CLAIMINTERFACE *)
| EvReadFile (name : string)          (* [android::base::ReadFileToString] *)
| EvRegisterTransport (p : addr) (serial : string) (devpath : option string)
                      (writeable : Z). (* [register_usb_transport] *)

(** [usb->path == dev_name] for the handle at [p]. *)
Definition path_is (σ : gmap positive usb_handle) (dev_name : string) (p : addr) : bool :=
  match σ !! p with
  | Some h => bool_decide (path h = dev_name)
  | None => false
  end.

(** Lines 87-97. *)
Definition is_known_device (dev_name : string) (r : registry) : Z * registry :=
  match List.find (path_is (heap r) dev_name) (g_usb_handles r) with
  | Some p => (1, Registry (alter (with_mark true) p (heap r)) (g_usb_handles r))
  | None => (0, r)
  end.

(** The body of the loop of lines 102-108, for the handle at [p]. *)
Definition kick_if_unmarked (p : addr) (acc : gmap positive usb_handle * list reg_event)
  : gmap positive usb_handle * list reg_event :=
  match acc.1 !! p with
  | Some usb =>
      if negb (mark usb)
      then let k := usb_kick usb in (<[p := k.1]> acc.1, acc.2 ++ map (OnHandle p) k.2)
      else (<[p := with_mark false usb]> acc.1, acc.2)
  | None => acc
  end.

(** Lines 99-109. *)
Definition kick_disconnected_devices (r : registry) : registry * list reg_event :=
  let acc := foldl (fun acc p => kick_if_unmarked p acc) (heap r, []) (g_usb_handles r) in
  (Registry acc.1 (g_usb_handles r), acc.2).

(** Lines 490-499. *)
Definition usb_close (p : addr) (r : registry) : registry * list reg_event :=
  let closing := match heap r !! p with
                 | Some h => if negb (fd h =? -1) then [EvClose (fd h)] else []
                 | None => []
                 end in
  (Registry (delete p (heap r)) (List.filter (fun q => negb (Pos.eqb q p)) (g_usb_handles r)),
   closing).

(** The answers of the system to one [register_device]. *)
Record os_answers := OsAnswers {
  open_rdwr : Z;                       (* [unix_open(path, O_RDWR | O_CLOEXEC)] *)
  open_rdonly : Z;                     (* [unix_open(path, O_RDONLY | O_CLOEXEC)] *)
  claim_rc : Z;                        (* ioctl USBDEVFS_CLAIMINTERFACE *)
  read_file : string -> option string  (* [ReadFileToString]: the content, if read *)
}.

(** How a call of [register_device] ends: it returns, or it loads from an
    address that is not a string ([dev_path + 4] with no [dev_path]). *)
Inductive outcome :=
| Returned (r : registry) (tr : list reg_event)
| Fault (r : registry) (tr : list reg_event).

Definition registry_of (o : outcome) : registry :=
  match o with Returned r _ | Fault r _ => r end.

Definition events_of (o : outcome) : list reg_event :=
  match o with Returned _ tr | Fault _ tr => tr end.

(** [dev_path + 4] as a C string: the characters behind the first four.
    There is none when [dev_path] is null or shorter than four characters. *)
Definition skip4 (dev_path : option string) : option string :=
  match dev_path with
  | Some s => if (4 <=? String.length s)%nat
              then Some (String.substring 4 (String.length s - 4) s)
              else None
  | None => None
  end.

Section Register.

(** [android::base::Trim] of libbase. *)
Variable Trim : string -> string.

(** Lines 552-571: the handle is open and its interface claimed. *)
Definition register_finish (usb : usb_handle) (dev_path : option string)
    (os : os_answers) (r : registry) (tr : list reg_event) : outcome :=
  match skip4 dev_path with
  | None => Fault r tr
  | Some rest =>
      let serial_path := String.append "/sys/bus/usb/devices/" (String.append rest "/serial") in
      let serial := match read_file os serial_path with
                    | Some content => content
                    | None => EmptyString
                    end in
      let serial := Trim serial in
      let done_usb := fresh (dom (heap r)) in
      Returned (Registry (<[done_usb := usb]> (heap r)) (g_usb_handles r ++ [done_usb]))
               (tr ++ [EvReadFile serial_path;
                       EvRegisterTransport done_usb serial dev_path (writeable usb)])
  end.

(** Lines 501-572. *)
Definition register_device (dev_name : string) (dev_path : option string)
    (ep_in ep_out interface serial_index zero_mask : Z)
    (os : os_answers) (r : registry) : outcome :=
  if existsb (path_is (heap r) dev_name) (g_usb_handles r) then Returned r [] else
  let usb := Handle dev_name (-1) ep_in ep_out zero_mask 1 urb_zero urb_zero
                    false false false true 0 in
  let usb := with_fd (open_rdwr os) usb in
  let tr := [EvOpen dev_name true] in
  if fd usb =? -1 then
    let usb := with_fd (open_rdonly os) usb in
    let tr := tr ++ [EvOpen dev_name false] in
    if fd usb =? -1 then Returned r tr else
    let usb := with_writeable 0 usb in
    register_finish usb dev_path os r tr
  else
    let tr := tr ++ [EvClaim (fd usb) interface] in
    if negb (claim_rc os =? 0) then Returned r (tr ++ [EvClose (fd usb)]) else
    register_finish usb dev_path os r tr.

End Register.

(** Lines 266-279: the device path handed to the callback.  [fstat_chr] is
    the device number when [fstat] succeeds on a character device, and
    [readlink] gives the link behind a /sys/dev/char entry (when its length
    is positive). *)
Fixpoint after_last_slash (s : string) : option string :=
  match s with
  | EmptyString => None
  | String c rest =>
      match after_last_slash rest with
      | Some tail => Some tail
      | None => if Ascii.eqb c (Ascii.ascii_of_nat 47) then Some rest else None
      end
  end.

Definition resolve_devpath (fstat_chr : option (Z * Z))
    (readlink : string -> option string) : option string :=
  match fstat_chr with
  | None => None
  | Some (major, minor) =>
      let pathbuf := String.append "/sys/dev/char/"
                       (String.append (pretty major) (String.append ":" (pretty minor))) in
      match readlink (String.substring 0 127 pathbuf) with
      | None => None
      | Some link =>
          match after_last_slash (String.substring 0 255 link) with
          | None => None
          | Some name => Some (String.substring 0 127 (String.append "usb:" name))
          end
      end
  end.

(** ** The scanner *)

(** Lines 111-116. *)
Definition is_digit (c : Ascii.ascii) : bool :=
  (48 <=? Ascii.nat_of_ascii c)%nat && (Ascii.nat_of_ascii c <=? 57)%nat.

Fixpoint contains_non_digit (name : string) : bool :=
  match name with
  | EmptyString => false
  | String c rest => if negb (is_digit c) then true else contains_non_digit rest
  end.

(** [a + "/" + b]. *)
Definition slash (a b : string) : string := String.append a (String.append "/" b).

(** [size_t] is 64 bits wide; [unix_read] returns -1 when it fails. *)
Definition to_size_t (z : Z) : Z := z mod 2 ^ 64.

(** One entry of a bus directory, with the answers of the system for it. *)
Record dev_entry := DevEntry {
  de_name : string;                        (* [de->d_name] *)
  de_open : Z;                             (* [unix_open(dev_name, O_RDONLY | O_CLOEXEC)] *)
  de_read : Z;                             (* [unix_read(fd, devdesc, sizeof(devdesc))]:
                                              the bytes read, or -1 *)
  de_devdesc : Z -> Z;                     (* [devdesc] after the read *)
  de_fstat_chr : option (Z * Z);           (* see [resolve_devpath] *)
  de_readlink : string -> option string;
  de_os : os_answers                       (* for [register_device] *)
}.

(** One entry of the base directory; [bus_devs] is what [opendir] and
    [readdir] give for it, if it can be opened. *)
Record bus_entry := BusEntry {
  bus_name : string;
  bus_devs : option (list dev_entry)
}.

(** How a scan ends: it is done, it faults inside [register_device], or it
    hangs in the descriptor loop. *)
Inductive scan_outcome :=
| ScanDone (r : registry) (tr : list reg_event)
| ScanFault (r : registry) (tr : list reg_event)
| ScanHung (r : registry) (tr : list reg_event).

Section Scanner.

Variable Trim : string -> string.
Variable is_adb_interface : Z -> Z -> Z -> Z -> Z -> bool.

(** A bound on the turns of the descriptor loop, see [descriptor_loop]. *)
Variable fuel : nat.

(** Lines 135-291: the body of the inner loop, for the entry [de] of the
    directory [bus]. *)
Definition find_usb_device_entry (bus : string) (de : dev_entry) (r : registry)
  : scan_outcome :=
  if contains_non_digit (de_name de) then ScanDone r [] else
  let dev_name := slash bus (de_name de) in
  let known := is_known_device dev_name r in
  let r := known.2 in
  if negb (known.1 =? 0) then ScanDone r [] else
  let fd := de_open de in
  if fd =? -1 then ScanDone r [EvOpen dev_name false] else
  let desclength := to_size_t (de_read de) in
  let tr := [EvOpen dev_name false; EvRead fd] in
  (* A failed [unix_read] returns -1: [desclength] is the largest [size_t],
     and [bufend = bufptr + desclength] wraps to the address before
     [devdesc].  The length test passes, the headers are tested on what
     [devdesc] held before, and [while (bufptr < bufend)] is not entered:
     the node is closed, whatever the headers are. *)
  if de_read de <? 0 then ScanDone r (tr ++ [EvClose fd]) else
  match Load.value (find_usb_device_parse is_adb_interface (de_devdesc de) desclength fuel) with
  | Skipped => ScanDone r (tr ++ [EvClose fd])
  | Scanning => ScanHung r tr
  | Registered m =>
      let devpath := resolve_devpath (de_fstat_chr de) (de_readlink de) in
      match register_device Trim dev_name devpath (m_ep_in m) (m_ep_out m) (m_interface m)
              (m_serial_index m) (m_zero_mask m) (de_os de) r with
      | Returned r tr' => ScanDone r (tr ++ tr' ++ [EvClose fd])
      | Fault r tr' => ScanFault r (tr ++ tr')
      end
  end.

(** Lines 134-292: the entries of one bus directory. *)
Fixpoint find_usb_device_bus (bus : string) (des : list dev_entry) (r : registry)
    (tr : list reg_event) : scan_outcome :=
  match des with
  | [] => ScanDone r tr
  | de :: des =>
      match find_usb_device_entry bus de r with
      | ScanDone r tr' => find_usb_device_bus bus des r (tr ++ tr')
      | ScanFault r tr' => ScanFault r (tr ++ tr')
      | ScanHung r tr' => ScanHung r (tr ++ tr')
      end
  end.

(** Lines 126-293: the entries of the base directory. *)
Fixpoint find_usb_device_buses (base : string) (buses : list bus_entry) (r : registry)
    (tr : list reg_event) : scan_outcome :=
  match buses with
  | [] => ScanDone r tr
  | b :: buses =>
      if contains_non_digit (bus_name b) then find_usb_device_buses base buses r tr else
      match bus_devs b with
      | None => find_usb_device_buses base buses r tr
      | Some des =>
          match find_usb_device_bus (slash base (bus_name b)) des r tr with
          | ScanDone r tr => find_usb_device_buses base buses r tr
          | stopped => stopped
          end
      end
  end.

(** Lines 118-294, with [register_device] as the callback.  [dir] is what
    the base directory holds, if it can be opened. *)
Definition find_usb_device (base : string) (dir : option (list bus_entry)) (r : registry)
  : scan_outcome :=
  match dir with
  | None => ScanDone r []
  | Some buses => find_usb_device_buses base buses r []
  end.

(** Lines 579-580: one turn of [device_poll_thread]. *)
Definition device_poll_cycle (dir : option (list bus_entry)) (r : registry) : scan_outcome :=
  match find_usb_device "/dev/bus/usb" dir r with
  | ScanDone r tr =>
      let k := kick_disconnected_devices r in ScanDone k.1 (tr ++ k.2)
  | stopped => stopped
  end.

End Scanner.

(** The device names a scan of [buses] forms. *)
Definition scanned_names (base : string) (buses : list bus_entry) : list string :=
  concat (map (fun b => match bus_devs b with
                        | Some des => map (fun de => slash (slash base (bus_name b)) (de_name de)) des
                        | None => []
                        end) buses).

(** The registry invariant: the list has no address twice, every address in
    it is allocated, and no two listed handles have the same path. *)
Definition listed (r : registry) : list usb_handle :=
  omap (fun p => heap r !! p) (g_usb_handles r).

Definition registry_wf (r : registry) : Prop :=
  NoDup (g_usb_handles r) /\
  (forall p, p ∈ g_usb_handles r -> is_Some (heap r !! p)).

Definition one_handle_per_path (r : registry) : Prop :=
  NoDup (map path (listed r)).

(** A run of [register_device] calls, each with its arguments and the
    system's answers; the run ends where a call faults. *)
Record register_call := RegisterCall {
  rc_dev_name : string;
  rc_dev_path : option string;
  rc_ep_in : Z;
  rc_ep_out : Z;
  rc_interface : Z;
  rc_serial_index : Z;
  rc_zero_mask : Z;
  rc_os : os_answers
}.

Fixpoint register_all (Trim : string -> string) (calls : list register_call)
    (r : registry) : registry :=
  match calls with
  | [] => r
  | c :: calls =>
      match register_device Trim (rc_dev_name c) (rc_dev_path c) (rc_ep_in c) (rc_ep_out c)
              (rc_interface c) (rc_serial_index c) (rc_zero_mask c) (rc_os c) r with
      | Returned r _ => register_all Trim calls r
      | Fault r _ => r
      end
  end.

(** The events of [tr] on the handle at [p]. *)
Definition events_on (p : addr) (tr : list reg_event) : list event :=
  omap (fun e => match e with
                 | OnHandle q e => if Pos.eqb q p then Some e else None
                 | _ => None
                 end) tr.

Definition is_unregister (e : event) : bool :=
  match e with EvUnregister => true | _ => false end.

(** How many listed handles have the path [dev_name]. *)
Definition handles_for (dev_name : string) (r : registry) : nat :=
  length (List.filter (fun h => bool_decide (path h = dev_name)) (listed r)).

(** One call of a run. *)
Definition register_call_on (Trim : string -> string) (c : register_call) (r : registry)
  : outcome :=
  register_device Trim (rc_dev_name c) (rc_dev_path c) (rc_ep_in c) (rc_ep_out c)
    (rc_interface c) (rc_serial_index c) (rc_zero_mask c) (rc_os c) r.

(** How many times [unregister_usb_transport] was called for the handle at [p]. *)
Definition unregistered (p : addr) (tr : list reg_event) : nat :=
  length (List.filter is_unregister (events_on p tr)).

(** ** Notions used in the statements *)

(** The handle after the wake-ups [ws], if each of them leaves the writer
    waiting: no timeout, the handle not dead, the out-slot still busy. *)
Fixpoint keeps_waiting (ws : list wake) (h : usb_handle) : option usb_handle :=
  match ws with
  | [] => Some h
  | w :: ws =>
      let h := wake_change w h in
      if wake_timeout w || dead h || negb (urb_out_busy h) then None
      else keeps_waiting ws h
  end.

(** The lengths of the bulk writes and the requests of the bulk reads a
    trace holds, in order. *)
Definition bulk_writes (tr : list event) : list Z :=
  omap (fun e => match e with EvBulkWrite _ len => Some len | _ => None end) tr.

Definition bulk_reads (tr : list event) : list (Z * Z) :=
  omap (fun e => match e with EvBulkRead data len => Some (data, len) | _ => None end) tr.

Definition is_submit (e : event) : bool :=
  match e with EvSubmit _ => true | _ => false end.

Definition is_discard (e : event) : bool :=
  match e with EvDiscard _ => true | _ => false end.

(** Fields of the descriptors in [devdesc]. *)
Definition bInterfaceNumber (devdesc : Z -> Z) (interface : Z) : Z := devdesc (interface + 2).
Definition bInterfaceProtocol (devdesc : Z -> Z) (interface : Z) : Z := devdesc (interface + 7).
Definition wMaxPacketSize (devdesc : Z -> Z) (ep : Z) : Z :=
  devdesc (ep + 4) + 256 * devdesc (ep + 5).

(** The handle [usb] is listed at [p] in a well-formed registry. *)
Definition kept (p : positive) (usb : usb_handle) (r : registry) : Prop :=
  registry_wf r /\ p ∈ g_usb_handles r /\ heap r !! p = Some usb.

(** All of [offsets] lie in the first [bound] bytes. *)
Definition within (bound : Z) (offsets : list Z) : Prop :=
  Forall (fun off => 0 <= off < bound) offsets.

(** The record at [interface] is one the scan takes for an interface with
    two endpoints: it starts inside the buffer and has the length and the
    type of an interface descriptor. *)
Definition matched_interface (devdesc : Z -> Z) (desclength interface : Z) : Prop :=
  interface < desclength /\
  devdesc interface = USB_DT_INTERFACE_SIZE /\
  devdesc (interface + 1) = USB_DT_INTERFACE /\
  devdesc (interface + 4) = 2.

(** ** Sample inputs *)

(** A live writable handle with a 64-byte packet size, and the same handle
    after a kick. *)
Definition live_handle : usb_handle :=
  Handle "/dev/bus/usb/001/004" 5 129 1 63 1 urb_zero urb_zero false false false true 0.
Definition dead_handle : usb_handle := (usb_kick live_handle).1.

(** The kernel accepts the request, and the writer's wait times out. *)
Definition write_times_out : state :=
  State live_handle 0 [] [SubmitAnswer 0 0] [] [Wake true (fun h => h)] 7.

(** The kernel completes the request in slot [sl] with [status] and
    [actual] bytes. *)
Definition completes (sl : slot) (status actual : Z) (h : usb_handle) : usb_handle :=
  match sl with
  | SlotIn =>
      with_urb_in (Urb (urb_type (urb_in h)) (urb_endpoint (urb_in h)) status
                       (urb_buffer (urb_in h)) (urb_buffer_length (urb_in h)) actual) h
  | SlotOut =>
      with_urb_out (Urb (urb_type (urb_out h)) (urb_endpoint (urb_out h)) status
                        (urb_buffer (urb_out h)) (urb_buffer_length (urb_out h)) actual) h
  end.

(** A reader whose first request completes with status -ETIMEDOUT and no
    byte, and whose second request completes in full. *)
Definition read_times_out_first : state :=
  State live_handle 0 [] [SubmitAnswer 0 0; SubmitAnswer 0 0]
        [ReapAnswer 0 0 ReapedIn (completes SlotIn (- ETIMEDOUT) 0);
         ReapAnswer 0 0 ReapedIn (completes SlotIn 0 100)]
        [] 7.

(** A reader whose first request times out after 40 of 100 bytes (it
    completes with status -ETIMEDOUT and 40 bytes), and whose second request
    completes in full. *)
Definition read_times_out_after_forty : state :=
  State live_handle 0 [] [SubmitAnswer 0 0; SubmitAnswer 0 0]
        [ReapAnswer 0 0 ReapedIn (completes SlotIn (- ETIMEDOUT) 40);
         ReapAnswer 0 0 ReapedIn (completes SlotIn 0 100)]
        [] 7.

(** A writer both of whose requests the kernel accepts and completes in
    full: the first with [len] bytes, the second with none.  Each time a
    reader has reaped the completion and cleared the busy flag. *)
Definition write_completes (len : Z) : state :=
  State live_handle 0 []
        [SubmitAnswer 0 0; SubmitAnswer 0 0] []
        [Wake false (fun h => with_urb_out_busy false (completes SlotOut 0 len h));
         Wake false (fun h => with_urb_out_busy false (completes SlotOut 0 0 h))]
        7.

(** The descriptors of a device with an ADB interface (protocol 1) and two
    bulk endpoints of packet size 64. *)
Definition adb_descriptors : list Z :=
  device_header ++ config_header
  ++ [9; 4; 0; 0; 2; 255; 66; 1; 0]
  ++ [7; 5; 129; 2; 64; 0; 0]
  ++ [7; 5; 1; 2; 64; 0; 0].

(** The system opens the node read-write as descriptor 5 and grants the
    interface; the serial file cannot be read. *)
Definition node_opens : os_answers := OsAnswers 5 (-1) 0 (fun _ => None).

Definition no_handles : registry := Registry ∅ [].

(** The scanner's call for a new device whose stable path it resolved, and
    the same call when it resolved none. *)
Definition call_with_dev_path : register_call :=
  RegisterCall "/dev/bus/usb/001/002" (Some "usb:1-1") 129 1 0 3 63 node_opens.
Definition call_without_dev_path : register_call :=
  RegisterCall "/dev/bus/usb/001/002" None 129 1 0 3 63 node_opens.

(** A bus directory with one device, the ADB device of [adb_descriptors],
    for which the system resolves the stable path; and the same when
    [fstat] fails. *)
Definition adb_entry (fstat_chr : option (Z * Z)) : dev_entry :=
  DevEntry "002" 4 50 (buffer_of adb_descriptors 0) fstat_chr
           (fun _ => Some "../../devices/pci0000:00/0000:00:14.0/usb1/1-1")
           node_opens.
Definition one_device (fstat_chr : option (Z * Z)) : option (list bus_entry) :=
  Some [BusEntry "." None; BusEntry "001" (Some [adb_entry fstat_chr])].

(** A calling thread that finds the handle dead. *)
Definition on_dead_handle : state :=
  State dead_handle 0 [] [SubmitAnswer 0 0] [] [] 7.

(** A read-only handle that the last scan did not see, and a writable one
    that it saw. *)
Definition unseen_handle : usb_handle :=
  Handle "/dev/bus/usb/001/002" 3 129 1 0 0 urb_zero urb_zero false false false false 0.
Definition seen_handle : usb_handle :=
  Handle "/dev/bus/usb/001/003" 4 129 1 63 1 urb_zero urb_zero false false false true 0.
Definition two_handles : registry :=
  Registry (<[1%positive := unseen_handle]> (<[2%positive := seen_handle]> ∅))
           [1%positive; 2%positive].

(** Both headers followed by a single byte. *)
Definition trailing_byte_descriptors : list Z :=
  device_header ++ config_header ++ [7].

(** Both headers followed by a record of declared length 0 (type 0). *)
Definition zero_length_descriptors : list Z :=
  device_header ++ config_header ++ [0; 0].

(** ** Further notions used in the statements *)

(** Fields of an endpoint descriptor in [devdesc]. *)
Definition bEndpointAddress (devdesc : Z -> Z) (ep : Z) : Z := devdesc (ep + 2).
Definition bmAttributes (devdesc : Z -> Z) (ep : Z) : Z := devdesc (ep + 3).

(** The record at [ep] lies inside the buffer and is a bulk endpoint
    descriptor. *)
Definition bulk_endpoint (devdesc : Z -> Z) (desclength ep : Z) : Prop :=
  ep + USB_DT_ENDPOINT_SIZE <= desclength /\
  devdesc ep = USB_DT_ENDPOINT_SIZE /\
  devdesc (ep + 1) = USB_DT_ENDPOINT /\
  bmAttributes devdesc ep = USB_ENDPOINT_XFER_BULK.

(** The callback's arguments [m] come from the interface at [interface],
    the endpoint right behind it and the endpoint at [ep2], which follows
    the first endpoint or its SuperSpeed companion. *)
Definition registered_from (devdesc : Z -> Z) (desclength interface ep2 : Z)
    (m : usb_match) : Prop :=
  let ep1 := interface + USB_DT_INTERFACE_SIZE in
  matched_interface devdesc desclength interface /\
  (ep2 = ep1 + USB_DT_ENDPOINT_SIZE \/
   ep2 = ep1 + USB_DT_ENDPOINT_SIZE + USB_DT_SS_EP_COMP_SIZE) /\
  bulk_endpoint devdesc desclength ep1 /\
  bulk_endpoint devdesc desclength ep2 /\
  m_ep_in m = (if Z.land (bEndpointAddress devdesc ep1) USB_ENDPOINT_DIR_MASK =? 0
               then bEndpointAddress devdesc ep2 else bEndpointAddress devdesc ep1) /\
  m_ep_out m = (if Z.land (bEndpointAddress devdesc ep1) USB_ENDPOINT_DIR_MASK =? 0
                then bEndpointAddress devdesc ep1 else bEndpointAddress devdesc ep2) /\
  m_interface m = bInterfaceNumber devdesc interface /\
  m_serial_index m = devdesc 16.

(** The offsets of the two headers that [find_usb_device] loads. *)
Definition header_offsets : list Z := [0; 1; 8; 9; 10; 11; 18; 19].

(** The handle after the reap answers [rs], if each of them leaves the
    reader reaping: the handle is not dead, and the reap was interrupted
    (EINTR) or handed back a request other than the reader's own. *)
Fixpoint keeps_reaping (self : Z) (rs : list reap_answer) (h : usb_handle)
  : option usb_handle :=
  match rs with
  | [] => Some h
  | r :: rs =>
      let h := with_reaper_thread 0 (reap_change r (with_reaper_thread self h)) in
      if dead h then None
      else if reap_rc r <? 0 then
        if reap_errno r =? EINTR then keeps_reaping self rs h else None
      else
        match reap_out r with
        | ReapedIn => None
        | ReapedOut => keeps_reaping self rs (with_urb_out_busy false h)
        | ReapedOther => keeps_reaping self rs h
        end
  end.

(** The state in which [usb_bulk_read] reaps and [usb_bulk_write] waits:
    the request is submitted and the slot marked busy. *)
Definition read_submitted (s1 : state) : state := on_hnd (with_urb_in_busy true) s1.
Definition write_submitted (s1 : state) : state := on_hnd (with_urb_out_busy true) s1.

(** The handle as the reader finds it after the reap answer [r]. *)
Definition after_reap (self : Z) (r : reap_answer) (h : usb_handle) : usb_handle :=
  with_reaper_thread 0 (reap_change r (with_reaper_thread self h)).

(** A writer whose request completes with [status] after one wake-up that
    left it waiting, and a reader whose request completes with [status]
    after an interrupted reap and the reap of the out-request. *)
Definition write_completes_late (status actual : Z) : state :=
  State live_handle 0 [] [SubmitAnswer 0 0] []
        [Wake false (fun h => h);
         Wake false (fun h => with_urb_out_busy false (completes SlotOut status actual h))]
        7.
Definition read_completes_late (status actual : Z) : state :=
  State live_handle 0 [] [SubmitAnswer (-1) EINTR; SubmitAnswer 0 0]
        [ReapAnswer (-1) EINTR ReapedOther (fun h => h);
         ReapAnswer 0 0 ReapedOut (completes SlotOut 0 0);
         ReapAnswer 0 0 ReapedIn (completes SlotIn status actual)]
        [] 7.

(** A reader that is kicked while it reaps, and one for which no reap
    answer comes. *)
Definition read_kicked : state :=
  State live_handle 0 [] [SubmitAnswer 0 0]
        [ReapAnswer 0 0 ReapedIn (fun h => (usb_kick (completes SlotIn 0 64 h)).1)]
        [] 7.
Definition read_waits : state :=
  State live_handle 0 [] [SubmitAnswer 0 0] [] [] 7.

(** The kernel refuses the request. *)
Definition submit_refused : state :=
  State live_handle 0 [] [SubmitAnswer (-1) EINTR; SubmitAnswer (-1) ENODEV] [] [] 7.

(** A reader whose reap fails with an error other than EINTR. *)
Definition read_reap_fails : state :=
  State live_handle 0 [] [SubmitAnswer 0 0]
        [ReapAnswer (-1) EINTR ReapedOther (fun h => h);
         ReapAnswer (-1) ENODEV ReapedOther (fun h => h)]
        [] 7.

(** The descriptor [register_device] holds once the node is open. *)
Definition opened (os : os_answers) : Z :=
  if open_rdwr os =? -1 then open_rdonly os else open_rdwr os.

(** The handle [register_device] builds for the call [c]. *)
Definition new_handle (c : register_call) : usb_handle :=
  Handle (rc_dev_name c) (opened (rc_os c)) (rc_ep_in c) (rc_ep_out c) (rc_zero_mask c)
         (if open_rdwr (rc_os c) =? -1 then 0 else 1)
         urb_zero urb_zero false false false true 0.

(** The system opens the node read-only only, and the system refuses the
    interface. *)
Definition node_opens_read_only : os_answers := OsAnswers (-1) 6 0 (fun _ => None).
Definition claim_refused : os_answers := OsAnswers 5 (-1) (-1) (fun _ => None).
Definition call_read_only : register_call :=
  RegisterCall "/dev/bus/usb/001/002" (Some "usb:1-1") 129 1 0 3 63 node_opens_read_only.
Definition call_claim_refused : register_call :=
  RegisterCall "/dev/bus/usb/001/002" (Some "usb:1-1") 129 1 0 3 63 claim_refused.

(** The handle at [p] is listed as [u] in a well-formed registry with at
    most one handle per path. *)
Definition listed_at (p : positive) (u : usb_handle) (r : registry) : Prop :=
  registry_wf r /\ one_handle_per_path r /\ p ∈ g_usb_handles r /\ heap r !! p = Some u.

(** The device names that a scan of [buses] looks up: those of the entries
    with numeric names in the bus directories with numeric names that can
    be opened. *)
Definition looked_up_names (base : string) (buses : list bus_entry) : list string :=
  concat (map (fun b =>
                 if contains_non_digit (bus_name b) then [] else
                 match bus_devs b with
                 | Some des =>
                     map (fun de => slash (slash base (bus_name b)) (de_name de))
                         (List.filter (fun de => negb (contains_non_digit (de_name de))) des)
                 | None => []
                 end) buses).

(** The list only grows at its end, and allocated handles stay allocated. *)
Definition extends (r r' : registry) : Prop :=
  (exists new, g_usb_handles r' = g_usb_handles r ++ new) /\
  (forall q, is_Some (heap r !! q) -> is_Some (heap r' !! q)).

(** The names that one turn of the poll thread looks up; none when the base
    directory cannot be opened. *)
Definition looked_up (dir : option (list bus_entry)) : list string :=
  match dir with
  | Some buses => looked_up_names "/dev/bus/usb" buses
  | None => []
  end.

(** The registry and the events a scan or a turn of the poll thread ends
    with. *)
Definition registry_of_scan (o : scan_outcome) : registry :=
  match o with ScanDone r _ | ScanFault r _ | ScanHung r _ => r end.
Definition events_of_scan (o : scan_outcome) : list reg_event :=
  match o with ScanDone _ tr | ScanFault _ tr | ScanHung _ tr => tr end.

(** A bus directory whose only device is not an ADB device: its descriptors
    are too short. *)
Definition other_device : option (list bus_entry) :=
  Some [BusEntry "001" (Some [DevEntry "002" 4 10 (buffer_of [] 0) None (fun _ => None)
                                       node_opens])].

(** The names of the nodes that a trace opens, in order. *)
Definition opened_names (tr : list reg_event) : list string :=
  omap (fun e => match e with EvOpen name _ => Some name | _ => None end) tr.

(** Every handle listed in [r] but not in [r0] is marked and alive. *)
Definition newly_marked (r0 r : registry) : Prop :=
  forall p, p ∈ g_usb_handles r -> p ∉ g_usb_handles r0 ->
    exists u, heap r !! p = Some u /\ mark u = true /\ dead u = false.

(** Lines 577-582: the turns of [device_poll_thread] while the base
    directory reads as [dirs], one reading for each turn, when no other
    thread does anything to the registry or to a handle in between: the
    [sleep(1)] between two turns does nothing itself and is not traced.
    The run ends where a scan faults or hangs. *)
Fixpoint device_poll_thread (Trim : string -> string)
    (is_adb_interface : Z -> Z -> Z -> Z -> Z -> bool) (fuel : nat)
    (dirs : list (option (list bus_entry))) (r : registry) (tr : list reg_event)
  : scan_outcome :=
  match dirs with
  | [] => ScanDone r tr
  | dir :: dirs =>
      match device_poll_cycle Trim is_adb_interface fuel dir r with
      | ScanDone r tr' => device_poll_thread Trim is_adb_interface fuel dirs r (tr ++ tr')
      | ScanFault r tr' => ScanFault r (tr ++ tr')
      | ScanHung r tr' => ScanHung r (tr ++ tr')
      end
  end.

(** A node whose read fails while [devdesc] still holds the descriptors of
    an ADB device, and a bus directory with that node and the device of
    [adb_entry]. *)
Definition unreadable_entry : dev_entry :=
  DevEntry "004" 4 (-1) (buffer_of adb_descriptors 0) (Some (189, 3))
           (fun _ => Some "../../usb1/1-3") node_opens.
Definition with_unreadable : option (list bus_entry) :=
  Some [BusEntry "001" (Some [unreadable_entry; adb_entry (Some (189, 1))])].

(** * Properties *)

(** ** The descriptor scan *)

(** Offsets such as [18 + 1] are folded to numerals. *)
Ltac fold_offsets :=
  repeat match goal with
         | |- context [Z.add Z0 ?b] => change (Z.add Z0 b) with b
         | |- context [Z.add (Zpos ?a) (Zpos ?b)] =>
             let v := eval vm_compute in (Z.add (Zpos a) (Zpos b)) in
             change (Z.add (Zpos a) (Zpos b)) with v
         end.

Lemma loads_bind {A B} (m : Load.Rd A) (f : A -> Load.Rd B) :
  Load.loads (Load.bind m f) = Load.loads m ++ Load.loads (f (Load.value m)).
Proof. reflexivity. Qed.

Lemma value_bind {A B} (m : Load.Rd A) (f : A -> Load.Rd B) :
  Load.value (Load.bind m f) = Load.value (f (Load.value m)).
Proof. reflexivity. Qed.

Lemma value_if {A} (c : bool) (a b : Load.Rd A) :
  Load.value (if c then a else b) = if c then Load.value a else Load.value b.
Proof. by destruct c. Qed.

(** Every turn of the loop loads the two bytes at the cursor. *)
Lemma descriptor_turn_loads policy devdesc desclength vid pid bufptr :
  exists rest,
    Load.loads (descriptor_turn policy devdesc desclength vid pid bufptr)
    = bufptr :: (bufptr + 1) :: rest.
Proof.
  unfold descriptor_turn. rewrite !loads_bind. simpl. eauto.
Qed.

Lemma descriptor_loop_loads policy devdesc desclength fuel vid pid bufptr :
  bufptr < desclength ->
  (bufptr + 1) ∈ Load.loads (descriptor_loop policy devdesc desclength (S fuel) vid pid bufptr).
Proof.
  intros Hlt. simpl. apply Z.ltb_lt in Hlt. rewrite Hlt.
  rewrite loads_bind.
  destruct (descriptor_turn_loads policy devdesc desclength vid pid bufptr) as [rest ->].
  set_solver.
Qed.

(** Buffers shorter than a device and a configuration descriptor are
    skipped without a single load. *)
Lemma find_usb_device_parse_short policy devdesc desclength fuel :
  desclength < USB_DT_DEVICE_SIZE + USB_DT_CONFIG_SIZE ->
  find_usb_device_parse policy devdesc desclength fuel = (Skipped, []).
Proof.
  intros Hlt. unfold find_usb_device_parse.
  apply Z.ltb_lt in Hlt. by rewrite Hlt.
Qed.

(** With both headers in order the loop is entered at offset 27. *)
Lemma find_usb_device_parse_headers policy devdesc desclength fuel :
  27 <= desclength ->
  devdesc 0 = 18 -> devdesc 1 = 1 -> devdesc 18 = 9 -> devdesc 19 = 2 ->
  find_usb_device_parse policy devdesc desclength fuel
  = (Load.value (descriptor_loop policy devdesc desclength fuel
                   (devdesc 8 + 256 * devdesc 9) (devdesc 10 + 256 * devdesc 11) 27),
     [0; 1; 8; 9; 10; 11; 18; 19]
     ++ Load.loads (descriptor_loop policy devdesc desclength fuel
                      (devdesc 8 + 256 * devdesc 9) (devdesc 10 + 256 * devdesc 11) 27)).
Proof.
  intros Hlen H0 H1 H18 H19. unfold find_usb_device_parse.
  replace (desclength <? USB_DT_DEVICE_SIZE + USB_DT_CONFIG_SIZE) with false
    by (symmetry; apply Z.ltb_ge; unfold USB_DT_DEVICE_SIZE, USB_DT_CONFIG_SIZE; lia).
  unfold Load.orR, Load.neq, Load.le16, Load.bind, Load.u8, Load.ret,
    USB_DT_DEVICE_SIZE, USB_DT_CONFIG_SIZE, USB_DT_DEVICE, USB_DT_CONFIG,
    Load.value, Load.loads.
  simpl. fold_offsets. rewrite H0, H1. simpl. rewrite H18, H19. simpl.
  reflexivity.
Qed.

(** C1 (the code departs from the claim).  The claim: the scan only loads
    bytes at offsets strictly below the supplied length.  For the 28-byte
    buffer [trailing_byte_descriptors], whatever lies behind it and whatever
    the interface policy, the scan loads the byte at offset 28: the loop
    guard [bufptr < bufend] admits the cursor 27, and [bufptr[1]] is then
    loaded as the record type.  So the loads are not all within the first
    28 bytes. *)
Theorem find_usb_device_parse_loads_at_length policy garbage fuel :
  28 ∈ Load.loads (find_usb_device_parse policy
                     (buffer_of trailing_byte_descriptors garbage) 28 (S fuel)) /\
  ~ within 28 (Load.loads (find_usb_device_parse policy
                             (buffer_of trailing_byte_descriptors garbage) 28 (S fuel))).
Proof.
  assert (28 ∈ Load.loads (find_usb_device_parse policy
                             (buffer_of trailing_byte_descriptors garbage) 28 (S fuel)))
    as Hload.
  { rewrite find_usb_device_parse_headers by (reflexivity || lia).
    unfold Load.loads at 1. cbn [snd].
    apply elem_of_app. right.
    apply (descriptor_loop_loads _ _ 28 fuel _ _ 27). lia. }
  split; [exact Hload|].
  intros Hwithin. unfold within in Hwithin.
  rewrite Forall_forall in Hwithin. specialize (Hwithin 28 Hload). lia.
Qed.

(** A record of declared length 0 whose type is not "interface" leaves the
    cursor where it is. *)
Lemma descriptor_turn_zero_length policy devdesc desclength vid pid bufptr :
  devdesc bufptr = 0 -> devdesc (bufptr + 1) <> USB_DT_INTERFACE ->
  Load.value (descriptor_turn policy devdesc desclength vid pid bufptr) = Next bufptr.
Proof.
  intros Hlen Htype. unfold descriptor_turn.
  rewrite !value_bind. unfold Load.u8, Load.value. cbn [fst].
  apply Z.eqb_neq in Htype. rewrite Htype, Hlen.
  unfold Load.ret. cbn [fst]. f_equal. lia.
Qed.

Lemma descriptor_loop_stuck policy devdesc desclength vid pid bufptr fuel :
  bufptr < desclength ->
  devdesc bufptr = 0 -> devdesc (bufptr + 1) <> USB_DT_INTERFACE ->
  Load.value (descriptor_loop policy devdesc desclength fuel vid pid bufptr) = Scanning.
Proof.
  intros Hlt Hlen Htype. apply Z.ltb_lt in Hlt.
  induction fuel as [|fuel IH]; simpl; rewrite Hlt; [done|].
  rewrite value_bind, descriptor_turn_zero_length by done. exact IH.
Qed.

(** C2 (the code departs from the claim).  The claim: the record walk ends
    for every buffer, a declared length of zero included.  For the 29-byte
    buffer [zero_length_descriptors] the walk is still running after any
    number of turns: the record at offset 27 has length 0 and is not an
    interface, so [bufptr += length] does not move the cursor. *)
Theorem find_usb_device_parse_never_ends policy garbage fuel :
  Load.value (find_usb_device_parse policy
                (buffer_of zero_length_descriptors garbage) 29 fuel) = Scanning.
Proof.
  rewrite find_usb_device_parse_headers by (reflexivity || lia).
  unfold Load.value at 1. cbn [fst].
  apply descriptor_loop_stuck; [lia|reflexivity|].
  vm_compute. discriminate.
Qed.

(** The walk ends whenever no record other than an interface declares the
    length 0: every turn then moves the cursor forward. *)
Lemma skip_ss_ep_comp_forward devdesc desclength bufptr :
  bufptr <= Load.value (skip_ss_ep_comp devdesc desclength bufptr).
Proof.
  unfold skip_ss_ep_comp. rewrite value_bind.
  destruct (Load.value (Load.andR _ _)); unfold Load.value, Load.ret; cbn [fst];
    unfold USB_DT_SS_EP_COMP_SIZE; lia.
Qed.

Lemma match_endpoints_forward devdesc desclength interface bufptr next :
  Load.value (match_endpoints devdesc desclength interface bufptr) = Next next ->
  bufptr < next.
Proof.
  unfold match_endpoints. rewrite !value_bind.
  pose proof (skip_ss_ep_comp_forward devdesc desclength (bufptr + USB_DT_ENDPOINT_SIZE)) as H1.
  set (p1 := Load.value (skip_ss_ep_comp devdesc desclength (bufptr + USB_DT_ENDPOINT_SIZE)))
    in *.
  pose proof (skip_ss_ep_comp_forward devdesc desclength (p1 + USB_DT_ENDPOINT_SIZE)) as H2.
  set (p2 := Load.value (skip_ss_ep_comp devdesc desclength (p1 + USB_DT_ENDPOINT_SIZE)))
    in *.
  rewrite value_if. destruct (Load.value (Load.orR _ _)); [done|].
  rewrite !value_bind, value_if. destruct (Load.value (Load.orR _ _)).
  - unfold Load.value, Load.ret. cbn [fst]. intros [= <-].
    unfold USB_DT_ENDPOINT_SIZE in *. lia.
  - rewrite !value_bind. done.
Qed.

Lemma descriptor_turn_forward policy devdesc desclength vid pid bufptr next :
  0 <= devdesc bufptr ->
  devdesc bufptr <> 0 \/ devdesc (bufptr + 1) = USB_DT_INTERFACE ->
  Load.value (descriptor_turn policy devdesc desclength vid pid bufptr) = Next next ->
  bufptr < next.
Proof.
  intros Hbyte Hlen. unfold descriptor_turn. rewrite !value_bind.
  change (Load.value (Load.u8 devdesc bufptr)) with (devdesc bufptr).
  change (Load.value (Load.u8 devdesc (bufptr + 1))) with (devdesc (bufptr + 1)).
  rewrite value_if.
  destruct (devdesc (bufptr + 1) =? USB_DT_INTERFACE) eqn:Htype.
  - rewrite value_if.
    destruct (devdesc bufptr =? USB_DT_INTERFACE_SIZE) eqn:Hsize; [|done].
    apply Z.eqb_eq in Hsize. cbn [negb]. rewrite value_bind, value_if.
    destruct (Load.value (Load.andR _ _)).
    + intros Hnext%match_endpoints_forward.
      rewrite Hsize in Hnext. unfold USB_DT_INTERFACE_SIZE in *. lia.
    + unfold Load.value, Load.ret. cbn [fst]. intros [= <-].
      rewrite Hsize. unfold USB_DT_INTERFACE_SIZE. lia.
  - apply Z.eqb_neq in Htype. destruct Hlen as [Hlen|Hlen]; [|done].
    unfold Load.value, Load.ret. cbn [fst]. intros [= <-]. lia.
Qed.

Lemma descriptor_loop_ends policy devdesc desclength vid pid fuel bufptr :
  (forall off, 0 <= devdesc off) ->
  (forall off, bufptr <= off < desclength ->
     devdesc off <> 0 \/ devdesc (off + 1) = USB_DT_INTERFACE) ->
  desclength - bufptr <= Z.of_nat fuel ->
  Load.value (descriptor_loop policy devdesc desclength fuel vid pid bufptr) <> Scanning.
Proof.
  intros Hbytes. revert bufptr.
  induction fuel as [|fuel IH]; intros bufptr Hrecords Hfuel; simpl.
  { destruct (bufptr <? desclength) eqn:Hlt; [|done]. apply Z.ltb_lt in Hlt. lia. }
  destruct (bufptr <? desclength) eqn:Hlt; [|done]. apply Z.ltb_lt in Hlt.
  rewrite value_bind.
  destruct (Load.value (descriptor_turn policy devdesc desclength vid pid bufptr))
    as [next|r] eqn:Hturn.
  - apply descriptor_turn_forward in Hturn; [|done|apply Hrecords; lia].
    apply IH; [|lia]. intros off Hoff. apply Hrecords. lia.
  - destruct r; [done|done|].
    exfalso. revert Hturn. clear.
    unfold descriptor_turn. rewrite !value_bind, value_if.
    destruct (_ =? USB_DT_INTERFACE); [|done].
    rewrite value_if. destruct (negb _); [done|].
    rewrite value_bind, value_if. destruct (Load.value (Load.andR _ _)); [|done].
    unfold match_endpoints. rewrite !value_bind, value_if.
    destruct (Load.value (Load.orR _ _)); [done|].
    rewrite !value_bind, value_if. destruct (Load.value (Load.orR _ _)); [done|].
    rewrite !value_bind. done.
Qed.

Lemma find_usb_device_parse_ends policy devdesc desclength :
  (forall off, 0 <= devdesc off) ->
  (forall off, 27 <= off < desclength ->
     devdesc off <> 0 \/ devdesc (off + 1) = USB_DT_INTERFACE) ->
  Load.value (find_usb_device_parse policy devdesc desclength (Z.to_nat desclength))
  <> Scanning.
Proof.
  intros Hbytes Hrecords. unfold find_usb_device_parse.
  rewrite value_if. destruct (desclength <? _) eqn:Hlen; [done|].
  apply Z.ltb_ge in Hlen. unfold USB_DT_DEVICE_SIZE, USB_DT_CONFIG_SIZE in Hlen.
  rewrite value_bind, value_if. destruct (Load.value (Load.orR _ _)); [done|].
  rewrite !value_bind, value_if. destruct (Load.value (Load.orR _ _)); [done|].
  apply descriptor_loop_ends; [done|exact Hrecords|].
  unfold USB_DT_DEVICE_SIZE, USB_DT_CONFIG_SIZE. lia.
Qed.

(** How far behind the buffer the scan loads. *)
Lemma loads_if {A} (c : bool) (a b : Load.Rd A) :
  Load.loads (if c then a else b) = if c then Load.loads a else Load.loads b.
Proof. by destruct c. Qed.

Lemma value_orR a b : Load.value (Load.orR a b) = Load.value a || Load.value b.
Proof. unfold Load.orR. rewrite value_bind. by destruct (Load.value a). Qed.

Lemma loads_orR a b :
  Load.loads (Load.orR a b) = Load.loads a ++ if Load.value a then [] else Load.loads b.
Proof. unfold Load.orR. rewrite loads_bind. by destruct (Load.value a). Qed.

Lemma value_andR a b : Load.value (Load.andR a b) = Load.value a && Load.value b.
Proof. unfold Load.andR. rewrite value_bind. by destruct (Load.value a). Qed.

Lemma loads_andR a b :
  Load.loads (Load.andR a b) = Load.loads a ++ if Load.value a then Load.loads b else [].
Proof. unfold Load.andR. rewrite loads_bind. by destruct (Load.value a). Qed.

Lemma loads_neq devdesc off c : Load.loads (Load.neq (Load.u8 devdesc off) c) = [off].
Proof. reflexivity. Qed.

Lemma loads_eq devdesc off c : Load.loads (Load.eq (Load.u8 devdesc off) c) = [off].
Proof. reflexivity. Qed.

Lemma loads_u8 devdesc off : Load.loads (Load.u8 devdesc off) = [off].
Proof. reflexivity. Qed.

Lemma loads_le16 devdesc off : Load.loads (Load.le16 devdesc off) = [off; off + 1].
Proof. reflexivity. Qed.

Lemma loads_ret {A} (a : A) : Load.loads (Load.ret a) = [].
Proof. reflexivity. Qed.

Lemma value_ret {A} (a : A) : Load.value (Load.ret a) = a.
Proof. reflexivity. Qed.

Create Rewrite HintDb loads.
#[local] Hint Rewrite @loads_bind @loads_if loads_orR loads_andR loads_neq loads_eq loads_u8
  loads_le16 @loads_ret @value_ret value_orR value_andR : loads.

Lemma skip_ss_ep_comp_loads devdesc desclength bufptr :
  0 <= bufptr -> within desclength (Load.loads (skip_ss_ep_comp devdesc desclength bufptr)).
Proof.
  intros Hpos. unfold skip_ss_ep_comp, within. autorewrite with loads.
  destruct (bufptr + 2 <=? desclength) eqn:Hle; [|by repeat constructor].
  apply Z.leb_le in Hle. simpl.
  case_match; repeat constructor; lia.
Qed.

Lemma match_endpoints_loads devdesc desclength interface bufptr :
  0 <= interface -> bufptr = interface + USB_DT_INTERFACE_SIZE -> 16 < desclength ->
  within desclength (Load.loads (match_endpoints devdesc desclength interface bufptr)).
Proof.
  intros Hpos -> Hlen. unfold match_endpoints, within.
  rewrite loads_bind.
  pose proof (skip_ss_ep_comp_forward devdesc desclength
                (interface + USB_DT_INTERFACE_SIZE + USB_DT_ENDPOINT_SIZE)) as H1.
  pose proof (skip_ss_ep_comp_loads devdesc desclength
                (interface + USB_DT_INTERFACE_SIZE + USB_DT_ENDPOINT_SIZE)) as L1.
  set (p1 := Load.value (skip_ss_ep_comp devdesc desclength
                (interface + USB_DT_INTERFACE_SIZE + USB_DT_ENDPOINT_SIZE))) in *.
  rewrite loads_bind.
  pose proof (skip_ss_ep_comp_forward devdesc desclength (p1 + USB_DT_ENDPOINT_SIZE)) as H2.
  pose proof (skip_ss_ep_comp_loads devdesc desclength (p1 + USB_DT_ENDPOINT_SIZE)) as L2.
  set (p2 := Load.value (skip_ss_ep_comp devdesc desclength (p1 + USB_DT_ENDPOINT_SIZE))) in *.
  unfold USB_DT_INTERFACE_SIZE, USB_DT_ENDPOINT_SIZE in *.
  apply Forall_app. split; [apply L1; lia|].
  apply Forall_app. split; [apply L2; lia|].
  rewrite loads_bind. rewrite !loads_orR, !value_orR, !loads_neq, loads_ret, value_ret.
  destruct (desclength <? p2) eqn:Hend.
  { simpl. constructor. }
  apply Z.ltb_ge in Hend. cbn [orb app].
  assert (forall off, interface <= off < p2 -> 0 <= off < desclength) as Hin by (intros; lia).
  assert (0 <= 16 < desclength) as H16 by lia.
  repeat (rewrite ?loads_if, ?loads_bind, ?loads_orR, ?loads_neq, ?loads_u8, ?loads_le16,
           ?loads_ret;
          match goal with
          | |- Forall _ (_ ++ _) => apply Forall_app; split
          | |- Forall _ (_ :: _) => constructor; [first [exact H16|apply Hin; lia]|]
          | |- Forall _ [] => constructor
          | |- Forall _ (if ?c then _ else _) => destruct c
          end).
Qed.

Lemma within_weaken a b offsets : a <= b -> within a offsets -> within b offsets.
Proof.
  intros Hab Ha. unfold within in *. eapply Forall_impl; [exact Ha|].
  intros off. simpl. lia.
Qed.

Lemma descriptor_turn_monotone policy devdesc desclength vid pid bufptr next :
  0 <= devdesc bufptr ->
  Load.value (descriptor_turn policy devdesc desclength vid pid bufptr) = Next next ->
  bufptr <= next.
Proof.
  intros Hbyte. unfold descriptor_turn. rewrite !value_bind.
  change (Load.value (Load.u8 devdesc bufptr)) with (devdesc bufptr).
  rewrite value_if. destruct (_ =? USB_DT_INTERFACE).
  - rewrite value_if. destruct (negb _); [done|].
    rewrite value_bind, value_if. destruct (Load.value (Load.andR _ _)).
    + intros Hnext%match_endpoints_forward. lia.
    + rewrite value_ret. intros [= <-]. lia.
  - rewrite value_ret. intros [= <-]. lia.
Qed.

Lemma descriptor_turn_loads_bound policy devdesc desclength vid pid bufptr :
  0 <= bufptr < desclength -> 16 < desclength ->
  within (desclength + 7)
    (Load.loads (descriptor_turn policy devdesc desclength vid pid bufptr)).
Proof.
  intros Hcur Hlen. unfold descriptor_turn, within.
  rewrite !loads_bind, !loads_u8.
  change (Load.value (Load.u8 devdesc bufptr)) with (devdesc bufptr).
  change (Load.value (Load.u8 devdesc (bufptr + 1))) with (devdesc (bufptr + 1)).
  constructor; [lia|]. constructor; [lia|].
  rewrite loads_if. destruct (_ =? USB_DT_INTERFACE); [|constructor].
  rewrite loads_if. destruct (devdesc bufptr =? USB_DT_INTERFACE_SIZE) eqn:Hsize;
    [|constructor].
  apply Z.eqb_eq in Hsize. cbn [negb].
  rewrite loads_bind, loads_andR, loads_eq, !loads_bind, !loads_u8, loads_ret.
  apply Forall_app. split.
  - constructor; [lia|]. destruct (Load.value (Load.eq _ _)); repeat constructor; lia.
  - rewrite loads_if. destruct (Load.value (Load.andR _ _)); [|constructor].
    apply within_weaken with (a := desclength); [lia|].
    apply match_endpoints_loads; [lia|by rewrite Hsize|lia].
Qed.

Lemma descriptor_loop_loads_bound policy devdesc desclength vid pid fuel bufptr :
  (forall off, 0 <= devdesc off) -> 16 < desclength -> 0 <= bufptr ->
  within (desclength + 7)
    (Load.loads (descriptor_loop policy devdesc desclength fuel vid pid bufptr)).
Proof.
  intros Hbytes Hlen. revert bufptr.
  induction fuel as [|fuel IH]; intros bufptr Hpos; simpl.
  { destruct (bufptr <? desclength); constructor. }
  destruct (bufptr <? desclength) eqn:Hlt; [|constructor]. apply Z.ltb_lt in Hlt.
  rewrite loads_bind. apply Forall_app. split.
  - apply descriptor_turn_loads_bound; lia.
  - destruct (Load.value (descriptor_turn policy devdesc desclength vid pid bufptr))
      as [next|r] eqn:Hturn; [|constructor].
    apply IH. apply descriptor_turn_monotone in Hturn; [lia|done].
Qed.

(** The scan loads no byte at or behind offset [desclength + 7]: what it
    loads behind the buffer is the type byte of a record that starts at the
    last byte, and the fields of an interface that is cut short. *)
Lemma find_usb_device_parse_loads_bound policy devdesc desclength fuel :
  (forall off, 0 <= devdesc off) ->
  within (desclength + 7)
    (Load.loads (find_usb_device_parse policy devdesc desclength fuel)).
Proof.
  intros Hbytes. unfold find_usb_device_parse.
  rewrite loads_if. destruct (desclength <? _) eqn:Hlen; [constructor|].
  apply Z.ltb_ge in Hlen. unfold USB_DT_DEVICE_SIZE, USB_DT_CONFIG_SIZE in *.
  rewrite loads_bind, loads_orR, !loads_neq.
  apply Forall_app. split.
  { constructor; [lia|]. destruct (Load.value _); repeat constructor; lia. }
  rewrite loads_if. destruct (Load.value (Load.orR _ _)); [constructor|].
  rewrite !loads_bind, !loads_le16, loads_orR, !loads_neq.
  repeat (apply Forall_app; split); try (repeat constructor; lia).
  { destruct (Load.value _); repeat constructor; lia. }
  rewrite loads_if. destruct (Load.value (Load.orR _ _)); [constructor|].
  apply descriptor_loop_loads_bound; [done|lia|lia].
Qed.

(** ** The sweep of the handle list *)

Lemma events_on_app p tr1 tr2 :
  events_on p (tr1 ++ tr2) = events_on p tr1 ++ events_on p tr2.
Proof. apply omap_app. Qed.

Lemma events_on_same p evs : events_on p (map (OnHandle p) evs) = evs.
Proof.
  induction evs as [|e evs IH]; [done|].
  unfold events_on in *. simpl. rewrite Pos.eqb_refl. simpl. f_equal. exact IH.
Qed.

Lemma events_on_other p q evs : q <> p -> events_on p (map (OnHandle q) evs) = [].
Proof.
  intros Hne. induction evs as [|e evs IH]; [done|].
  unfold events_on in *. simpl.
  destruct (Pos.eqb_spec q p) as [->|_]; [done|]. exact IH.
Qed.

(** [usb_kick] makes a handle dead, keeps its mark, and does nothing to a
    handle that is dead already. *)
Lemma usb_kick_dead h : dead (usb_kick h).1 = true.
Proof.
  unfold usb_kick. destruct (dead h) eqn:Hd; [done|].
  by destruct (negb (writeable (with_dead true h) =? 0)).
Qed.

Lemma usb_kick_mark h : mark (usb_kick h).1 = mark h.
Proof.
  unfold usb_kick. destruct (dead h); [done|].
  by destruct (negb (writeable (with_dead true h) =? 0)).
Qed.

Lemma usb_kick_already_dead h :
  dead h = true -> usb_kick h = (h, [EvLock; EvUnlock]).
Proof. intros Hd. unfold usb_kick. by rewrite Hd. Qed.

Lemma usb_kick_unregisters h :
  length (List.filter is_unregister (usb_kick h).2)
  = if dead h || negb (writeable h =? 0) then 0%nat else 1%nat.
Proof.
  unfold usb_kick. destruct (dead h); [done|]. simpl.
  destruct (writeable h =? 0); simpl; [done|].
  by destruct (negb (reaper_thread h =? 0)).
Qed.

(** One turn of the sweep: the handle at [p] is kicked or unmarked, the
    others are not touched. *)
Lemma kick_if_unmarked_other p q acc :
  q <> p ->
  (kick_if_unmarked p acc).1 !! q = acc.1 !! q /\
  events_on q (kick_if_unmarked p acc).2 = events_on q acc.2.
Proof.
  intros Hne. unfold kick_if_unmarked.
  destruct (acc.1 !! p) as [usb|]; [|done].
  destruct (negb (mark usb)); simpl.
  - rewrite lookup_insert_ne by done. split; [done|].
    rewrite events_on_app, events_on_other by done. apply app_nil_r.
  - by rewrite lookup_insert_ne by done.
Qed.

Lemma kick_if_unmarked_same p acc usb :
  acc.1 !! p = Some usb ->
  (kick_if_unmarked p acc).1 !! p
    = Some (if mark usb then with_mark false usb else (usb_kick usb).1) /\
  events_on p (kick_if_unmarked p acc).2
    = events_on p acc.2 ++ (if mark usb then [] else (usb_kick usb).2).
Proof.
  intros Hp. unfold kick_if_unmarked. rewrite Hp.
  destruct (mark usb); simpl.
  - rewrite lookup_insert_eq. by rewrite app_nil_r.
  - rewrite lookup_insert_eq. by rewrite events_on_app, events_on_same.
Qed.

Lemma kick_sweep_other l acc q :
  q ∉ l ->
  (foldl (fun acc p => kick_if_unmarked p acc) acc l).1 !! q = acc.1 !! q /\
  events_on q (foldl (fun acc p => kick_if_unmarked p acc) acc l).2 = events_on q acc.2.
Proof.
  revert acc. induction l as [|p l IH]; intros acc Hq; [done|].
  apply not_elem_of_cons in Hq as [Hne Hq]. simpl.
  destruct (IH (kick_if_unmarked p acc) Hq) as [-> ->].
  by apply kick_if_unmarked_other.
Qed.

Lemma kick_sweep_member l acc p usb :
  NoDup l -> p ∈ l -> acc.1 !! p = Some usb ->
  (foldl (fun acc p => kick_if_unmarked p acc) acc l).1 !! p
    = Some (if mark usb then with_mark false usb else (usb_kick usb).1) /\
  events_on p (foldl (fun acc p => kick_if_unmarked p acc) acc l).2
    = events_on p acc.2 ++ (if mark usb then [] else (usb_kick usb).2).
Proof.
  revert acc. induction l as [|q l IH]; intros acc Hnd Hin Hp.
  { by apply elem_of_nil in Hin. }
  apply NoDup_cons in Hnd as [Hq Hnd]. simpl.
  apply elem_of_cons in Hin as [->|Hin].
  - destruct (kick_sweep_other l (kick_if_unmarked q acc) q Hq) as [-> ->].
    by apply kick_if_unmarked_same.
  - assert (p <> q) as Hne by (intros ->; done).
    destruct (kick_if_unmarked_other q p acc Hne) as [H1 H2].
    destruct (IH (kick_if_unmarked q acc) Hnd Hin) as [-> ->]; [by rewrite H1|].
    by rewrite H2.
Qed.

(** C3.  One [kick_disconnected_devices] over a well-formed registry: the
    list is unchanged; a listed handle whose mark is false is replaced by
    its [usb_kick], a listed handle whose mark is true only has its mark
    cleared and is not kicked (no event on it); so a handle is dead
    afterwards exactly when it was dead or unmarked.  [usb_kick] always
    leaves the handle dead (one way), keeps the mark, leaves a handle that
    was dead as it was, and [unregister_usb_transport] is called once for
    an unmarked live read-only handle and not at all otherwise. *)
Theorem kick_disconnected_devices_sweeps r p usb :
  registry_wf r -> p ∈ g_usb_handles r -> heap r !! p = Some usb ->
  g_usb_handles (kick_disconnected_devices r).1 = g_usb_handles r /\
  heap (kick_disconnected_devices r).1 !! p
    = Some (if mark usb then with_mark false usb else (usb_kick usb).1) /\
  events_on p (kick_disconnected_devices r).2
    = (if mark usb then [] else (usb_kick usb).2) /\
  (dead <$> heap (kick_disconnected_devices r).1 !! p)
    = Some (dead usb || negb (mark usb)) /\
  (mark <$> heap (kick_disconnected_devices r).1 !! p) = Some false /\
  dead (usb_kick usb).1 = true /\
  usb_kick (usb_kick usb).1 = ((usb_kick usb).1, [EvLock; EvUnlock]) /\
  (dead usb = true -> usb_kick usb = (usb, [EvLock; EvUnlock])) /\
  unregistered p (kick_disconnected_devices r).2
    = (if mark usb || dead usb || negb (writeable usb =? 0) then 0%nat else 1%nat).
Proof.
  intros [Hnd _] Hin Hp.
  destruct (kick_sweep_member (g_usb_handles r) (heap r, []) p usb Hnd Hin Hp)
    as [Hheap Hev].
  unfold kick_disconnected_devices, unregistered. cbn [fst snd heap g_usb_handles].
  rewrite Hheap, Hev. cbn [fst snd fmap option_fmap option_map app].
  split_and!; try done.
  - destruct (mark usb) eqn:Hm; simpl.
    + by rewrite orb_false_r.
    + by rewrite usb_kick_dead, orb_true_r.
  - destruct (mark usb) eqn:Hm; simpl; [done|].
    by rewrite usb_kick_mark, Hm.
  - apply usb_kick_dead.
  - apply usb_kick_already_dead, usb_kick_dead.
  - apply usb_kick_already_dead.
  - destruct (mark usb); [done|]. apply usb_kick_unregisters.
Qed.

Lemma kick_disconnected_devices_sweeps_witness :
  heap (kick_disconnected_devices two_handles).1 !! 1%positive
    = Some (usb_kick unseen_handle).1 /\
  (dead <$> heap (kick_disconnected_devices two_handles).1 !! 1%positive) = Some true /\
  unregistered 1%positive (kick_disconnected_devices two_handles).2 = 1%nat.
Proof.
  assert (registry_wf two_handles) as Hwf.
  { split.
    - apply (bool_decide_unpack _). vm_compute. exact I.
    - apply Forall_forall. apply (bool_decide_unpack _). vm_compute. exact I. }
  assert (1%positive ∈ g_usb_handles two_handles) as Hin.
  { apply (bool_decide_unpack _). vm_compute. exact I. }
  destruct (kick_disconnected_devices_sweeps two_handles 1%positive unseen_handle
              Hwf Hin eq_refl)
    as (_ & Hheap & _ & Hdead & _ & _ & _ & _ & Hun).
  split_and!; [exact Hheap|exact Hdead|exact Hun].
Defined.

(** ** The bulk calls *)

Lemma trace_emit e s : trace (emit e s) = trace s ++ [e].
Proof. reflexivity. Qed.

Lemma trace_with_errno v s : trace (with_errno v s) = trace s.
Proof. reflexivity. Qed.

Lemma trace_on_hnd f s : trace (on_hnd f s) = trace s.
Proof. reflexivity. Qed.

Lemma trace_with_wakes v s : trace (with_wakes v s) = trace s.
Proof. reflexivity. Qed.

Lemma trace_with_reaps v s : trace (with_reaps v s) = trace s.
Proof. reflexivity. Qed.

Lemma trace_with_submits v s : trace (with_submits v s) = trace s.
Proof. reflexivity. Qed.

Create Rewrite HintDb trace.
#[local] Hint Rewrite trace_emit trace_with_errno trace_on_hnd trace_with_wakes
  trace_with_reaps trace_with_submits : trace.

(** What [submit_urb] leaves alone, and that a returning submission has
    taken an answer. *)
Lemma submit_urb_frame answers urb s :
  let r := submit_urb answers urb s in
  hnd r.2 = hnd s /\ reaps r.2 = reaps s /\ wakes r.2 = wakes s /\ self r.2 = self s /\
  (length (submits r.2) <= length answers)%nat /\
  (forall rc, r.1 = Ret rc -> (length (submits r.2) < length answers)%nat) /\
  exists n, trace r.2 = trace s ++ repeat (EvSubmit urb) n.
Proof.
  revert s. induction answers as [|a answers IH]; intros s; simpl.
  { split_and!; try done. exists 0%nat. simpl. by rewrite app_nil_r. }
  set (s1 := if submit_rc a =? -1
             then with_errno (submit_errno a) (emit (EvSubmit urb) (with_submits answers s))
             else emit (EvSubmit urb) (with_submits answers s)).
  assert (hnd s1 = hnd s /\ reaps s1 = reaps s /\ wakes s1 = wakes s /\ self s1 = self s
          /\ submits s1 = answers /\ trace s1 = trace s ++ [EvSubmit urb]) as (Hh & Hr & Hw & Hs & Hq & Ht).
  { unfold s1. by destruct (submit_rc a =? -1). }
  destruct ((submit_rc a =? -1) && (errno s1 =? EINTR)).
  - destruct (IH s1) as (-> & -> & -> & -> & Hle & Hlt & n & ->).
    split_and!; try done; [lia| |].
    + intros rc Hrc. specialize (Hlt rc Hrc). lia.
    + exists (S n). rewrite Ht, <- app_assoc. done.
  - simpl. rewrite Hq. split_and!; try done; [lia| |].
    + intros _ _. lia.
    + exists 1%nat. done.
Qed.

(** The two checks of lines 308-311 and 347-350. *)
Lemma usb_bulk_write_dead data len s :
  dead (hnd s) = true ->
  usb_bulk_write data len s
  = (Ret (-1),
     State (with_urb_out (urb_bulk (ep_out (hnd s)) data len) (hnd s)) EINVAL
           (trace s ++ [EvBulkWrite data len; EvLock; EvUnlock])
           (submits s) (reaps s) (wakes s) (self s)).
Proof.
  intros Hd. unfold usb_bulk_write, write_entered.
  cbn [hnd on_hnd with_hnd emit dead with_urb_out].
  rewrite Hd. unfold leave, emit, with_errno. cbn.
  by rewrite <- !app_assoc.
Qed.

Lemma usb_bulk_read_dead data len s :
  dead (hnd s) = true ->
  usb_bulk_read data len s
  = (Ret (-1),
     State (with_urb_in (urb_bulk (ep_in (hnd s)) data len) (hnd s)) EINVAL
           (trace s ++ [EvBulkRead data len; EvLock; EvUnlock])
           (submits s) (reaps s) (wakes s) (self s)).
Proof.
  intros Hd. unfold usb_bulk_read, read_entered.
  cbn [hnd on_hnd with_hnd emit dead with_urb_in].
  rewrite Hd. unfold leave, emit, with_errno. cbn.
  by rewrite <- !app_assoc.
Qed.

(** C8.  On a dead handle both bulk calls return -1 with [errno] EINVAL
    right after taking the mutex and filling in the request: the trace only
    gains the entry, the lock and the unlock (no submission, no wait, no
    reap), and no answer of the environment is taken. *)
Theorem usb_bulk_calls_on_dead_handle data len s :
  dead (hnd s) = true ->
  usb_bulk_write data len s
  = (Ret (-1),
     State (with_urb_out (urb_bulk (ep_out (hnd s)) data len) (hnd s)) EINVAL
           (trace s ++ [EvBulkWrite data len; EvLock; EvUnlock])
           (submits s) (reaps s) (wakes s) (self s)) /\
  usb_bulk_read data len s
  = (Ret (-1),
     State (with_urb_in (urb_bulk (ep_in (hnd s)) data len) (hnd s)) EINVAL
           (trace s ++ [EvBulkRead data len; EvLock; EvUnlock])
           (submits s) (reaps s) (wakes s) (self s)).
Proof.
  intros Hd. split; [by apply usb_bulk_write_dead|by apply usb_bulk_read_dead].
Qed.

Lemma usb_bulk_calls_on_dead_handle_witness :
  usb_bulk_write 0 64 on_dead_handle
  = (Ret (-1),
     State (with_urb_out (urb_bulk (ep_out (hnd on_dead_handle)) 0 64) (hnd on_dead_handle))
           EINVAL (trace on_dead_handle ++ [EvBulkWrite 0 64; EvLock; EvUnlock])
           (submits on_dead_handle) (reaps on_dead_handle) (wakes on_dead_handle)
           (self on_dead_handle)) /\
  usb_bulk_read 0 64 on_dead_handle
  = (Ret (-1),
     State (with_urb_in (urb_bulk (ep_in (hnd on_dead_handle)) 0 64) (hnd on_dead_handle))
           EINVAL (trace on_dead_handle ++ [EvBulkRead 0 64; EvLock; EvUnlock])
           (submits on_dead_handle) (reaps on_dead_handle) (wakes on_dead_handle)
           (self on_dead_handle)).
Proof.
  apply usb_bulk_calls_on_dead_handle. vm_compute. reflexivity.
Defined.

(** The stream calls on a dead handle: [usb_read] fails with EINVAL for
    every positive length, [usb_write] for every length but -1. *)
Lemma usb_read_on_dead_handle data len s :
  dead (hnd s) = true -> 0 < len ->
  (usb_read data len s).1 = Ret (-1) /\ errno (usb_read data len s).2 = EINVAL /\
  trace (usb_read data len s).2 = trace s ++ [EvBulkRead data len; EvLock; EvUnlock].
Proof.
  intros Hd Hlen. unfold usb_read. simpl.
  apply Z.ltb_lt in Hlen. rewrite Hlen.
  rewrite (usb_bulk_read_dead data len s Hd).
  replace (-1 =? len) with false by (symmetry; apply Z.eqb_neq; apply Z.ltb_lt in Hlen; lia).
  done.
Qed.

Lemma usb_write_on_dead_handle data len s :
  dead (hnd s) = true -> len <> -1 ->
  (usb_write data len s).1 = Ret (-1) /\ errno (usb_write data len s).2 = EINVAL /\
  trace (usb_write data len s).2 = trace s ++ [EvBulkWrite data len; EvLock; EvUnlock].
Proof.
  intros Hd Hlen. unfold usb_write.
  rewrite (usb_bulk_write_dead data len s Hd).
  replace (-1 =? len) with false by (symmetry; apply Z.eqb_neq; lia).
  done.
Qed.

(** With length -1 the test [n != len] of [usb_write] does not see the
    failure of the bulk write: on a dead handle the call returns 0. *)
Lemma usb_write_minus_one_on_dead_handle :
  (usb_write 0 (-1) on_dead_handle).1 = Ret 0.
Proof. vm_compute. reflexivity. Qed.

(** C10.  [usb_read] with length 0 returns 0 and leaves the caller's state
    as it was, whatever the handle's state: the trace gains nothing (no
    lock, no submission), no answer is taken and [errno] is not set. *)
Theorem usb_read_zero_length data s : usb_read data 0 s = (Ret 0, s).
Proof. reflexivity. Qed.

(** The same on a handle that is dead. *)
Lemma usb_read_nothing_on_dead_handle :
  dead (hnd on_dead_handle) = true /\ usb_read 0 0 on_dead_handle = (Ret 0, on_dead_handle).
Proof. split; reflexivity. Qed.

Lemma filter_repeat_none {A} (f : A -> bool) (a : A) (n : nat) :
  f a = false -> List.filter f (repeat a n) = [].
Proof. intros Hf. induction n as [|n IH]; simpl; [done|]. by rewrite Hf. Qed.

(** The writer's wait: after wake-ups that leave it waiting, a wake-up that
    timed out or finds the handle dead ends the call with ETIMEDOUT.  The
    handle is the one the environment left. *)
Lemma write_wait_gives_up ws w rest s h1 :
  keeps_waiting ws (hnd s) = Some h1 ->
  wake_timeout w = true \/ dead (wake_change w h1) = true ->
  write_wait (ws ++ w :: rest) s
  = (Ret (-1),
     State (wake_change w h1) ETIMEDOUT
           (trace s ++ repeat (EvWait 5) (S (length ws)) ++ [EvUnlock])
           (submits s) (reaps s) rest (self s)).
Proof.
  revert s. induction ws as [|w0 ws IH]; intros s Hkeep Hend.
  - simpl in Hkeep. injection Hkeep as <-. cbn [app write_wait].
    cbn [hnd on_hnd with_hnd with_wakes emit].
    replace (wake_timeout w || dead (wake_change w (hnd s))) with true
      by (symmetry; apply orb_true_iff; done).
    unfold leave, emit, with_errno. cbn. by rewrite <- app_assoc.
  - simpl in Hkeep. cbn [app write_wait].
    cbn [hnd on_hnd with_hnd with_wakes emit].
    destruct (wake_timeout w0 || dead (wake_change w0 (hnd s))
              || negb (urb_out_busy (wake_change w0 (hnd s)))) eqn:Hstay; [done|].
    apply orb_false_iff in Hstay as [Hstay Hbusy].
    rewrite Hstay, Hbusy.
    rewrite IH by done.
    cbn. do 2 f_equal. by rewrite <- app_assoc.
Qed.

(** What a kick does to a live writable handle. *)
Lemma usb_kick_live_writable h :
  dead h = false -> writeable h <> 0 ->
  dead (usb_kick h).1 = true /\
  urb_in_busy (usb_kick h).1 = false /\ urb_out_busy (usb_kick h).1 = false /\
  urb_status (urb_out (usb_kick h).1) = - ENODEV /\
  List.filter is_discard (usb_kick h).2 = [EvDiscard SlotIn; EvDiscard SlotOut].
Proof.
  intros Hd Hw. unfold usb_kick. rewrite Hd.
  apply Z.eqb_neq in Hw. cbn [writeable with_dead]. rewrite Hw. cbn.
  split_and!; try done.
  by destruct (negb (reaper_thread h =? 0)).
Qed.

(** C4.  A bulk write on a live handle whose submission succeeded waits
    with a 5-second bound each time; when a wait times out, or returns with
    the handle dead, the call returns -1 with [errno] ETIMEDOUT.  From the
    successful submission on, the trace only gains the waits and the unlock:
    nothing is submitted again and nothing is discarded.  The handle is left
    as the environment left it, so a kick of it, if it is live and writable,
    still makes it dead, discards both requests and clears the busy flags. *)
Theorem usb_bulk_write_times_out data len s rc s1 ws w rest h1 :
  dead (hnd s) = false ->
  submit_urb (submits s) (urb_bulk (ep_out (hnd s)) data len) (write_entered data len s)
    = (Ret rc, s1) ->
  rc <> -1 ->
  wakes s = ws ++ w :: rest ->
  keeps_waiting ws (with_urb_out_busy true (hnd s1)) = Some h1 ->
  wake_timeout w = true \/ dead (wake_change w h1) = true ->
  usb_bulk_write data len s
  = (Ret (-1),
     State (wake_change w h1) ETIMEDOUT
           (trace s1 ++ repeat (EvWait 5) (S (length ws)) ++ [EvUnlock])
           (submits s1) (reaps s) rest (self s)) /\
  List.filter is_submit (repeat (EvWait 5) (S (length ws)) ++ [EvUnlock]) = [] /\
  List.filter is_discard (trace (usb_bulk_write data len s).2) = List.filter is_discard (trace s) /\
  dead (usb_kick (wake_change w h1)).1 = true /\
  (dead (wake_change w h1) = false -> writeable (wake_change w h1) <> 0 ->
   urb_out_busy (usb_kick (wake_change w h1)).1 = false /\
   List.filter is_discard (usb_kick (wake_change w h1)).2
     = [EvDiscard SlotIn; EvDiscard SlotOut]).
Proof.
  intros Hd Hsub Hrc Hwakes Hkeep Hend.
  pose proof (submit_urb_frame (submits s) (urb_bulk (ep_out (hnd s)) data len)
                (write_entered data len s)) as Hframe.
  rewrite Hsub in Hframe. cbn [fst snd] in Hframe.
  destruct Hframe as (Hh & Hr & Hw & Hself & _ & _ & n & Htr).
  assert (usb_bulk_write data len s
          = (Ret (-1),
             State (wake_change w h1) ETIMEDOUT
               (trace s1 ++ repeat (EvWait 5) (S (length ws)) ++ [EvUnlock])
               (submits s1) (reaps s) rest (self s))) as Hcall.
  { unfold usb_bulk_write.
    replace (dead (hnd (write_entered data len s))) with false by done.
    change (urb_out (hnd (write_entered data len s)))
      with (urb_bulk (ep_out (hnd s)) data len).
    change (submits (write_entered data len s)) with (submits s).
    rewrite Hsub.
    replace (rc =? -1) with false by (symmetry; by apply Z.eqb_neq).
    change (wakes (on_hnd (with_urb_out_busy true) s1)) with (wakes s1).
    rewrite Hw. change (wakes (write_entered data len s)) with (wakes s).
    rewrite Hwakes.
    rewrite write_wait_gives_up with (h1 := h1) by done.
    cbn. by rewrite Hr, Hself. }
  split_and!.
  - exact Hcall.
  - rewrite List.filter_app, filter_repeat_none by done. done.
  - rewrite Hcall. cbn [snd trace]. rewrite Htr.
    rewrite !List.filter_app, !filter_repeat_none by done.
    unfold write_entered. cbn. rewrite !List.filter_app. cbn.
    by rewrite !app_nil_r.
  - apply usb_kick_dead.
  - intros Hlive Hwr.
    destruct (usb_kick_live_writable _ Hlive Hwr) as (_ & _ & Hbusy & _ & Hdis). done.
Qed.

Lemma usb_bulk_write_times_out_witness :
  (usb_bulk_write 0 64 write_times_out).1 = Ret (-1) /\
  errno (usb_bulk_write 0 64 write_times_out).2 = ETIMEDOUT /\
  List.filter is_discard (trace (usb_bulk_write 0 64 write_times_out).2) = [] /\
  List.filter is_submit (trace (usb_bulk_write 0 64 write_times_out).2)
    = [EvSubmit (urb_bulk 1 0 64)].
Proof.
  destruct (usb_bulk_write_times_out 0 64 write_times_out 0
              (emit (EvSubmit (urb_bulk 1 0 64))
                 (with_submits [] (write_entered 0 64 write_times_out)))
              [] (Wake true (fun h => h)) []
              (with_urb_out_busy true (with_urb_out (urb_bulk 1 0 64) live_handle)))
    as (Hcall & _ & Hdis & _); [reflexivity|reflexivity|lia|reflexivity|reflexivity|
                                left; reflexivity|].
  rewrite Hdis, Hcall. by split_and!.
Defined.

(** ** The stream read *)

Lemma read_reap_submits rs s : submits (read_reap rs s).2 = submits s.
Proof.
  revert s. induction rs as [|r rs IH]; intros s; simpl; [done|].
  repeat case_match; simpl; rewrite ?IH; done.
Qed.

(** A bulk read that returns has taken a submit answer, unless it found the
    handle dead and left EINVAL. *)
Lemma usb_bulk_read_consumes data len s n s1 :
  usb_bulk_read data len s = (Ret n, s1) ->
  (length (submits s1) < length (submits s))%nat \/ (n = -1 /\ errno s1 = EINVAL).
Proof.
  unfold usb_bulk_read. intros Hcall.
  destruct (dead (hnd (read_entered data len s))).
  { right. injection Hcall as <- <-. done. }
  pose proof (submit_urb_frame (submits (read_entered data len s))
                (urb_in (hnd (read_entered data len s))) (read_entered data len s)) as Hf.
  destruct (submit_urb _ _ _) as [[rc|] s2]; [|done].
  cbn [fst snd] in Hf. destruct Hf as (_ & _ & _ & _ & _ & Hlt & _).
  specialize (Hlt rc eq_refl). change (submits (read_entered data len s)) with (submits s) in Hlt.
  left. destruct (rc =? -1).
  - injection Hcall as <- <-. done.
  - apply (f_equal snd) in Hcall. cbn [snd] in Hcall. subst s1.
    rewrite read_reap_submits. done.
Qed.

(** The loop of [usb_read] does not depend on the bound once the bound
    exceeds the submit answers left. *)
Lemma usb_read_loop_fuel fuel fuel' data len s :
  (length (submits s) < fuel)%nat -> (length (submits s) < fuel')%nat ->
  usb_read_loop fuel data len s = usb_read_loop fuel' data len s.
Proof.
  revert fuel' data len s.
  induction fuel as [|fuel IH]; intros fuel' data len s Hf Hf'; [lia|].
  destruct fuel' as [|fuel']; [lia|]. simpl.
  destruct (0 <? len) eqn:Hlen; [|done].
  destruct (usb_bulk_read data len s) as [[n|] s1] eqn:Hcall; [|done].
  destruct (negb (n =? len)) eqn:Hn.
  - destruct ((errno s1 =? ETIMEDOUT) && negb (fd (hnd s1) =? -1)) eqn:Hretry; [|done].
    apply usb_bulk_read_consumes in Hcall as [Hlt|[_ Herr]].
    + destruct (0 <? n); apply IH; lia.
    + rewrite Herr in Hretry. done.
  - replace (len - len) with 0 by lia.
    destruct fuel, fuel'; reflexivity.
Qed.


(** What [usb_read] does after its first bulk read. *)
Lemma usb_read_first data len s n s1 :
  0 < len ->
  usb_bulk_read data len s = (Ret n, s1) ->
  usb_read data len s
  = (if n =? len then (Ret 0, s1)
     else if (errno s1 =? ETIMEDOUT) && negb (fd (hnd s1) =? -1)
          then if 0 <? n then usb_read (data + n) (len - n) s1
               else usb_read data len s1
          else (Ret (-1), s1)).
Proof.
  intros Hlen Hcall. unfold usb_read at 1. simpl.
  replace (0 <? len) with true by (symmetry; by apply Z.ltb_lt).
  rewrite Hcall.
  destruct (n =? len) eqn:Hn; simpl.
  - replace (len - len) with 0 by lia. by destruct (length (submits s)).
  - destruct ((errno s1 =? ETIMEDOUT) && negb (fd (hnd s1) =? -1)) eqn:Hretry; [|done].
    apply usb_bulk_read_consumes in Hcall as [Hlt|[_ Herr]];
      [|by rewrite Herr in Hretry].
    unfold usb_read.
    destruct (0 <? n);
      rewrite (usb_read_loop_fuel (length (submits s)) (S (length (submits s1)))) by lia;
      done.
Qed.



(** The premises of the retry hold for [read_times_out_first]: its first
    bulk read fails with ETIMEDOUT on an open descriptor. *)
Lemma usb_read_retry_premises :
  (usb_bulk_read 1000 100 read_times_out_first).1 = Ret (-1) /\
  errno (usb_bulk_read 1000 100 read_times_out_first).2 = ETIMEDOUT /\
  fd (hnd (usb_bulk_read 1000 100 read_times_out_first).2) = 5.
Proof. split_and!; vm_compute; reflexivity. Qed.

(** A bulk read whose request times out after 40 of 100 bytes returns -1:
    the count does not reach [usb_read], which asks for all 100 bytes again
    at the same address. *)
Lemma usb_read_timeout_after_forty :
  (usb_bulk_read 1000 100 read_times_out_after_forty).1 = Ret (-1) /\
  errno (usb_bulk_read 1000 100 read_times_out_after_forty).2 = ETIMEDOUT /\
  urb_actual_length (urb_in (hnd (usb_bulk_read 1000 100 read_times_out_after_forty).2))
  = 40 /\
  bulk_reads (trace (usb_read 1000 100 read_times_out_after_forty).2)
  = [(1000, 100); (1000, 100)].
Proof. split_and!; vm_compute; reflexivity. Qed.


(** ** The zero-length packet *)

(** What the callback is given when the endpoints behind an interface match. *)
Lemma match_endpoints_registered devdesc desclength interface bufptr m :
  Load.value (match_endpoints devdesc desclength interface bufptr) = Stop (Registered m) ->
  m_interface m = bInterfaceNumber devdesc interface /\
  m_serial_index m = devdesc 16 /\
  m_zero_mask m
  = if bInterfaceProtocol devdesc interface =? 1
    then to_unsigned (wMaxPacketSize devdesc bufptr - 1) else 0.
Proof.
  unfold match_endpoints, bInterfaceProtocol, wMaxPacketSize, bInterfaceNumber.
  rewrite !value_bind.
  set (p1 := Load.value (skip_ss_ep_comp devdesc desclength (bufptr + USB_DT_ENDPOINT_SIZE))).
  set (p2 := Load.value (skip_ss_ep_comp devdesc desclength (p1 + USB_DT_ENDPOINT_SIZE))).
  rewrite value_if. destruct (Load.value (Load.orR _ _)); [done|].
  rewrite !value_bind, value_if. destruct (Load.value (Load.orR _ _)); [done|].
  rewrite !value_bind.
  intros Hm. injection Hm as <-. cbn [m_interface m_serial_index m_zero_mask].
  split_and!; try done.
  destruct (devdesc (interface + 7) =? 1); [|done].
  unfold Load.le16. rewrite !value_bind. unfold Load.value, Load.u8, Load.ret. cbn [fst].
  by replace (bufptr + 4 + 1) with (bufptr + 5) by lia.
Qed.

Lemma descriptor_turn_registered policy devdesc desclength vid pid bufptr m :
  Load.value (descriptor_turn policy devdesc desclength vid pid bufptr)
    = Stop (Registered m) ->
  devdesc bufptr = USB_DT_INTERFACE_SIZE /\
  devdesc (bufptr + 1) = USB_DT_INTERFACE /\
  devdesc (bufptr + 4) = 2 /\
  m_interface m = bInterfaceNumber devdesc bufptr /\
  m_zero_mask m
  = if bInterfaceProtocol devdesc bufptr =? 1
    then to_unsigned (wMaxPacketSize devdesc (bufptr + USB_DT_INTERFACE_SIZE) - 1) else 0.
Proof.
  unfold descriptor_turn. rewrite !value_bind.
  unfold Load.value at 2 3, Load.u8 at 1 2. cbn [fst].
  change (Load.value (Load.u8 devdesc bufptr)) with (devdesc bufptr).
  rewrite value_if.
  destruct (devdesc (bufptr + 1) =? USB_DT_INTERFACE) eqn:Htype; [|done].
  rewrite value_if. destruct (devdesc bufptr =? USB_DT_INTERFACE_SIZE) eqn:Hlen; [|done].
  apply Z.eqb_eq in Hlen, Htype. rewrite Hlen. cbn [negb].
  rewrite value_bind, value_if.
  destruct (Load.value (Load.andR _ _)) eqn:Hadb; [|done].
  rewrite value_andR in Hadb. apply andb_true_iff in Hadb as [Hnum _].
  apply Z.eqb_eq in Hnum.
  intros Hm. apply match_endpoints_registered in Hm as (? & _ & ?). done.
Qed.

Lemma descriptor_loop_registered policy devdesc desclength fuel vid pid bufptr m :
  Load.value (descriptor_loop policy devdesc desclength fuel vid pid bufptr) = Registered m ->
  exists interface,
    matched_interface devdesc desclength interface /\
    m_interface m = bInterfaceNumber devdesc interface /\
    m_zero_mask m
    = if bInterfaceProtocol devdesc interface =? 1
      then to_unsigned (wMaxPacketSize devdesc (interface + USB_DT_INTERFACE_SIZE) - 1)
      else 0.
Proof.
  revert bufptr. induction fuel as [|fuel IH]; intros bufptr; simpl.
  { by destruct (bufptr <? desclength). }
  destruct (bufptr <? desclength) eqn:Hlt; [|done]. apply Z.ltb_lt in Hlt.
  rewrite value_bind.
  destruct (Load.value (descriptor_turn policy devdesc desclength vid pid bufptr))
    as [next|r] eqn:Hturn.
  - apply IH.
  - unfold Load.value at 1, Load.ret. cbn [fst]. intros ->.
    exists bufptr. apply descriptor_turn_registered in Hturn as (? & ? & ? & ? & ?).
    by repeat split.
Qed.

Lemma find_usb_device_parse_registered policy devdesc desclength fuel m :
  Load.value (find_usb_device_parse policy devdesc desclength fuel) = Registered m ->
  exists interface,
    matched_interface devdesc desclength interface /\
    m_interface m = bInterfaceNumber devdesc interface /\
    m_zero_mask m
    = if bInterfaceProtocol devdesc interface =? 1
      then to_unsigned (wMaxPacketSize devdesc (interface + USB_DT_INTERFACE_SIZE) - 1)
      else 0.
Proof.
  unfold find_usb_device_parse.
  rewrite value_if. destruct (desclength <? _); [done|].
  rewrite value_bind, value_if. destruct (Load.value (Load.orR _ _)); [done|].
  rewrite !value_bind, value_if. destruct (Load.value (Load.orR _ _)); [done|].
  apply descriptor_loop_registered.
Qed.

Lemma bulk_writes_app tr1 tr2 :
  bulk_writes (tr1 ++ tr2) = bulk_writes tr1 ++ bulk_writes tr2.
Proof. apply omap_app. Qed.

Lemma bulk_writes_repeat e n :
  (forall data len, e <> EvBulkWrite data len) -> bulk_writes (repeat e n) = [].
Proof.
  intros He. induction n as [|n IH]; [done|].
  simpl. unfold bulk_writes in *. simpl. rewrite IH.
  destruct e; try done. by destruct (He data len).
Qed.

Lemma write_wait_bulk_writes ws s :
  bulk_writes (trace (write_wait ws s).2) = bulk_writes (trace s).
Proof.
  revert s. induction ws as [|w ws IH]; intros s; simpl.
  { autorewrite with trace. rewrite bulk_writes_app. apply app_nil_r. }
  repeat case_match; unfold leave; cbn [snd]; rewrite ?IH;
    autorewrite with trace; rewrite ?bulk_writes_app; cbn; by rewrite ?app_nil_r.
Qed.

(** A bulk write enters the trace once as a bulk write. *)
Lemma usb_bulk_write_bulk_writes data len s :
  bulk_writes (trace (usb_bulk_write data len s).2) = bulk_writes (trace s) ++ [len].
Proof.
  assert (bulk_writes (trace (write_entered data len s)) = bulk_writes (trace s) ++ [len])
    as Hentered.
  { unfold write_entered. autorewrite with trace. rewrite !bulk_writes_app. cbn.
    by rewrite app_nil_r. }
  unfold usb_bulk_write.
  destruct (dead (hnd (write_entered data len s))).
  { unfold leave. cbn [snd]. autorewrite with trace. rewrite bulk_writes_app, Hentered.
    apply app_nil_r. }
  pose proof (submit_urb_frame (submits (write_entered data len s))
                (urb_out (hnd (write_entered data len s))) (write_entered data len s)) as Hf.
  destruct (submit_urb _ _ _) as [[rc|] s2]; cbn [fst snd] in Hf;
    destruct Hf as (_ & _ & _ & _ & _ & _ & n & Htr).
  - assert (bulk_writes (trace s2) = bulk_writes (trace s) ++ [len]) as H2.
    { rewrite Htr, bulk_writes_app, bulk_writes_repeat by done.
      rewrite Hentered. apply app_nil_r. }
    destruct (rc =? -1).
    + unfold leave. cbn [snd]. autorewrite with trace. rewrite bulk_writes_app, H2.
      apply app_nil_r.
    + rewrite write_wait_bulk_writes. autorewrite with trace. exact H2.
  - cbn [snd]. rewrite Htr, bulk_writes_app, bulk_writes_repeat by done.
    rewrite Hentered. apply app_nil_r.
Qed.

(** For a mask of [k] ones, [len & mask] is 0 exactly when [len] is a
    multiple of [2 ^ k]. *)
Lemma land_mask_multiple len k :
  0 <= k <= 32 ->
  Z.land (to_unsigned len) (2 ^ k - 1) = 0 <-> len mod 2 ^ k = 0.
Proof.
  intros Hk. unfold to_unsigned.
  replace (2 ^ k - 1) with (Z.ones k) by (rewrite Z.ones_equiv; lia).
  rewrite Z.land_ones by lia.
  rewrite Z.mod_mod_divide; [done|].
  exists (2 ^ (32 - k)). rewrite <- Z.pow_add_r by lia. f_equal. lia.
Qed.

(** C6, as amended.  For a device the scan registers, the mask handed to the
    callback is, for the interface that matched, the packet size of the
    endpoint behind it minus 1 (as [unsigned]) when the interface protocol
    is 1, and 0 otherwise.  A stream write whose bulk write returned the
    whole length issues one more bulk write, of length 0, exactly when the
    handle's mask is not 0 and [len & mask] is 0, and no further bulk write
    otherwise.  So with a mask of 0 (another protocol, or packet size 1) no
    zero-length write follows; and with a mask of [k >= 1] ones (packet
    size [2 ^ k]) one follows exactly when [len] is a multiple of the packet
    size, 0 included. *)
Theorem zero_packet_rule policy devdesc desclength fuel m data len s s1 :
  Load.value (find_usb_device_parse policy devdesc desclength fuel) = Registered m ->
  usb_bulk_write data len s = (Ret len, s1) ->
  (exists interface,
     matched_interface devdesc desclength interface /\
     m_interface m = bInterfaceNumber devdesc interface /\
     m_zero_mask m
     = if bInterfaceProtocol devdesc interface =? 1
       then to_unsigned (wMaxPacketSize devdesc (interface + USB_DT_INTERFACE_SIZE) - 1)
       else 0) /\
  bulk_writes (trace (usb_write data len s).2)
  = bulk_writes (trace s)
    ++ (if negb (zero_mask (hnd s1) =? 0)
           && (Z.land (to_unsigned len) (zero_mask (hnd s1)) =? 0)
        then [len; 0] else [len]) /\
  (zero_mask (hnd s1) = 0 ->
   bulk_writes (trace (usb_write data len s).2) = bulk_writes (trace s) ++ [len]) /\
  (forall k, 1 <= k <= 32 -> zero_mask (hnd s1) = 2 ^ k - 1 ->
     bulk_writes (trace (usb_write data len s).2)
     = bulk_writes (trace s) ++ (if len mod 2 ^ k =? 0 then [len; 0] else [len])).
Proof.
  intros Hparse Hwrite.
  assert (bulk_writes (trace (usb_write data len s).2)
          = bulk_writes (trace s)
            ++ (if negb (zero_mask (hnd s1) =? 0)
                   && (Z.land (to_unsigned len) (zero_mask (hnd s1)) =? 0)
                then [len; 0] else [len])) as Hrule.
  { pose proof (usb_bulk_write_bulk_writes data len s) as Hfirst.
    unfold usb_write. rewrite Hwrite in *. cbn [snd] in Hfirst.
    rewrite Z.eqb_refl. cbn [negb].
    destruct (negb (zero_mask (hnd s1) =? 0)
              && (Z.land (to_unsigned len) (zero_mask (hnd s1)) =? 0)).
    + rewrite usb_bulk_write_bulk_writes, Hfirst, <- app_assoc. done.
    + exact Hfirst. }
  split_and!.
  - by apply find_usb_device_parse_registered in Hparse.
  - exact Hrule.
  - intros Hmask. rewrite Hrule, Hmask. done.
  - intros k Hk Hmask. rewrite Hrule, Hmask.
    assert (2 <= 2 ^ k) as Hpow.
    { change 2 with (2 ^ 1) at 1. apply Z.pow_le_mono_r; lia. }
    replace (2 ^ k - 1 =? 0) with false by (symmetry; apply Z.eqb_neq; lia).
    cbn [negb andb].
    pose proof (land_mask_multiple len k ltac:(lia)) as Hiff.
    destruct (len mod 2 ^ k =? 0) eqn:Hmod.
    + apply Z.eqb_eq in Hmod. apply Hiff in Hmod. by rewrite Hmod.
    + apply Z.eqb_neq in Hmod.
      replace (Z.land (to_unsigned len) (2 ^ k - 1) =? 0) with false; [done|].
      symmetry. apply Z.eqb_neq. intros Hland. by apply Hmod, Hiff.
Qed.

Lemma zero_packet_rule_witness :
  (exists interface,
     matched_interface (buffer_of adb_descriptors 0) 50 interface /\
     m_interface (UsbMatch 129 1 0 3 63)
     = bInterfaceNumber (buffer_of adb_descriptors 0) interface /\
     m_zero_mask (UsbMatch 129 1 0 3 63)
     = if bInterfaceProtocol (buffer_of adb_descriptors 0) interface =? 1
       then to_unsigned (wMaxPacketSize (buffer_of adb_descriptors 0)
                           (interface + USB_DT_INTERFACE_SIZE) - 1)
       else 0) /\
  bulk_writes (trace (usb_write 0 128 (write_completes 128)).2)
  = bulk_writes (trace (write_completes 128))
    ++ (if negb (zero_mask (hnd (usb_bulk_write 0 128 (write_completes 128)).2) =? 0)
           && (Z.land (to_unsigned 128)
                 (zero_mask (hnd (usb_bulk_write 0 128 (write_completes 128)).2)) =? 0)
        then [128; 0] else [128]) /\
  (zero_mask (hnd (usb_bulk_write 0 128 (write_completes 128)).2) = 0 ->
   bulk_writes (trace (usb_write 0 128 (write_completes 128)).2)
   = bulk_writes (trace (write_completes 128)) ++ [128]) /\
  (forall k, 1 <= k <= 32 ->
     zero_mask (hnd (usb_bulk_write 0 128 (write_completes 128)).2) = 2 ^ k - 1 ->
     bulk_writes (trace (usb_write 0 128 (write_completes 128)).2)
     = bulk_writes (trace (write_completes 128))
       ++ (if 128 mod 2 ^ k =? 0 then [128; 0] else [128])).
Proof.
  apply (zero_packet_rule adb_class_policy (buffer_of adb_descriptors 0) 50 4
           (UsbMatch 129 1 0 3 63) 0 128 (write_completes 128)
           (usb_bulk_write 0 128 (write_completes 128)).2);
    vm_compute; reflexivity.
Defined.

(** With packet size 64 (mask 63) a write of 128 bytes is followed by a
    write of length 0, and a write of 127 bytes is not. *)
Lemma usb_write_128_and_127 :
  bulk_writes (trace (usb_write 0 128 (write_completes 128)).2) = [128; 0] /\
  (usb_write 0 128 (write_completes 128)).1 = Ret 0 /\
  bulk_writes (trace (usb_write 0 127 (write_completes 127)).2) = [127] /\
  (usb_write 0 127 (write_completes 127)).1 = Ret 0.
Proof. split_and!; vm_compute; reflexivity. Qed.

(** C6 as stated fails: on a handle with mask 63 a stream write of length 0,
    which is not a non-zero multiple of 64, is followed by one more write of
    length 0. *)
Lemma usb_write_empty_sends_zero_packet :
  zero_mask (hnd (write_completes 0)) = 63 /\
  bulk_writes (trace (usb_write 0 0 (write_completes 0)).2) = [0; 0] /\
  List.filter is_submit (trace (usb_write 0 0 (write_completes 0)).2)
  = [EvSubmit (urb_bulk 1 0 0); EvSubmit (urb_bulk 1 0 0)].
Proof. split_and!; vm_compute; reflexivity. Qed.

(** The mask test is a test of divisibility only for packet sizes that are
    powers of two: with packet size 3 (mask 2) a write of 4 bytes is
    followed by a write of length 0. *)
Lemma usb_write_odd_packet_size :
  bulk_writes
    (trace (usb_write 0 4
              (on_hnd (fun h => Handle (path h) (fd h) (ep_in h) (ep_out h) 2 (writeable h)
                                  (urb_in h) (urb_out h) (urb_in_busy h) (urb_out_busy h)
                                  (dead h) (mark h) (reaper_thread h))
                      (write_completes 4))).2) = [4; 0].
Proof. vm_compute; reflexivity. Qed.

(** With packet size 1 the mask is 0 and no write of length 0 follows,
    though every length is a multiple of the packet size. *)
Lemma usb_write_packet_size_one :
  to_unsigned (1 - 1) = 0 /\
  bulk_writes
    (trace (usb_write 0 4
              (on_hnd (fun h => Handle (path h) (fd h) (ep_in h) (ep_out h) 0 (writeable h)
                                  (urb_in h) (urb_out h) (urb_in_busy h) (urb_out_busy h)
                                  (dead h) (mark h) (reaper_thread h))
                      (write_completes 4))).2) = [4].
Proof. split; vm_compute; reflexivity. Qed.

(** ** Registration *)

Lemma existsb_path_is σ dev_name (l : list positive) :
  existsb (path_is σ dev_name) l = true <-> dev_name ∈ map path (omap (fun p => σ !! p) l).
Proof.
  induction l as [|p l IH]; simpl.
  { split; [done|]. intros H. by apply elem_of_nil in H. }
  rewrite orb_true_iff, IH. unfold path_is.
  destruct (σ !! p) as [h|]; simpl.
  - rewrite elem_of_cons, bool_decide_eq_true.
    split; (intros [H|H]; [left|right]); done.
  - split; [intros [H|H]; done|by right].
Qed.

Lemma omap_agree {A B} (f g : A -> option B) (l : list A) :
  (forall x, x ∈ l -> f x = g x) -> omap f l = omap g l.
Proof.
  induction l as [|x l IH]; intros Hfg; [done|].
  csimpl. rewrite (Hfg x) by apply list_elem_of_here.
  rewrite IH; [done|]. intros y Hy. apply Hfg. by apply list_elem_of_further.
Qed.

Lemma register_device_known Trim dev_name dev_path ep_in ep_out interface serial_index
    zero_mask os r :
  dev_name ∈ map path (listed r) ->
  register_device Trim dev_name dev_path ep_in ep_out interface serial_index zero_mask os r
  = Returned r [].
Proof.
  intros Hknown. apply existsb_path_is in Hknown.
  unfold register_device. by rewrite Hknown.
Qed.

(** The last part of [register_device] either faults and leaves the
    registry alone, or appends a fresh address that holds the new handle. *)
Lemma register_finish_registry Trim usb dev_path os r tr :
  registry_of (register_finish Trim usb dev_path os r tr) = r \/
  registry_of (register_finish Trim usb dev_path os r tr)
  = Registry (<[fresh (dom (heap r)) := usb]> (heap r))
             (g_usb_handles r ++ [fresh (dom (heap r))]).
Proof.
  unfold register_finish. destruct (skip4 dev_path); simpl; auto.
Qed.

Lemma register_device_registry Trim dev_name dev_path ep_in ep_out interface serial_index
    zero_mask os r :
  let r' := registry_of (register_device Trim dev_name dev_path ep_in ep_out interface
                           serial_index zero_mask os r) in
  (r' = r \/
   ((dev_name ∉ map path (listed r)) /\
    exists usb, path usb = dev_name /\ mark usb = true /\ dead usb = false /\
      r' = Registry (<[fresh (dom (heap r)) := usb]> (heap r))
                    (g_usb_handles r ++ [fresh (dom (heap r))]))).
Proof.
  unfold register_device.
  destruct (existsb _ _) eqn:Hknown; [by left|].
  assert (dev_name ∉ map path (listed r)) as Hnew.
  { intros Hin. apply existsb_path_is in Hin. unfold listed in *. congruence. }
  cbn [fd with_fd].
  destruct (open_rdwr os =? -1).
  - destruct (open_rdonly os =? -1); [by left|].
    match goal with
    | |- context [register_finish _ ?u _ _ _ ?t] =>
        destruct (register_finish_registry Trim u dev_path os r t) as [->| ->];
          [by left|right; split; [done|by exists u]]
    end.
  - destruct (negb (claim_rc os =? 0)); [by left|].
    match goal with
    | |- context [register_finish _ ?u _ _ _ ?t] =>
        destruct (register_finish_registry Trim u dev_path os r t) as [->| ->];
          [by left|right; split; [done|by exists u]]
    end.
Qed.

Lemma listed_insert_fresh r usb :
  registry_wf r ->
  listed (Registry (<[fresh (dom (heap r)) := usb]> (heap r))
                   (g_usb_handles r ++ [fresh (dom (heap r))]))
  = listed r ++ [usb].
Proof.
  intros [_ Halloc]. unfold listed. cbn [heap g_usb_handles].
  rewrite omap_app. f_equal.
  - apply omap_agree. intros q Hq.
    rewrite lookup_insert_ne; [done|].
    intros <-. apply Halloc, elem_of_dom in Hq. by apply is_fresh in Hq.
  - simpl. by rewrite lookup_insert_eq.
Qed.

Lemma register_device_wf Trim dev_name dev_path ep_in ep_out interface serial_index
    zero_mask os r :
  registry_wf r ->
  registry_wf (registry_of (register_device Trim dev_name dev_path ep_in ep_out interface
                              serial_index zero_mask os r)).
Proof.
  intros Hwf.
  destruct (register_device_registry Trim dev_name dev_path ep_in ep_out interface
              serial_index zero_mask os r) as [->|(Hnew & usb & Hpath & _ & _ & ->)];
    [done|].
  destruct Hwf as [Hnd Halloc]. split; cbn [heap g_usb_handles].
  - apply NoDup_app. split_and!; [done| |apply NoDup_singleton].
    intros q Hq ->%list_elem_of_singleton.
    apply Halloc, elem_of_dom in Hq. by apply is_fresh in Hq.
  - intros q [Hq| ->%list_elem_of_singleton]%elem_of_app.
    + destruct (decide (fresh (dom (heap r)) = q)) as [<-|Hne].
      * rewrite lookup_insert_eq. by eexists.
      * rewrite lookup_insert_ne by done. by apply Halloc.
    + rewrite lookup_insert_eq. by eexists.
Qed.

Lemma register_device_preserves Trim dev_name dev_path ep_in ep_out interface serial_index
    zero_mask os r :
  registry_wf r -> one_handle_per_path r ->
  registry_wf (registry_of (register_device Trim dev_name dev_path ep_in ep_out interface
                              serial_index zero_mask os r)) /\
  one_handle_per_path (registry_of (register_device Trim dev_name dev_path ep_in ep_out
                                      interface serial_index zero_mask os r)).
Proof.
  intros Hwf Hone. split; [by apply register_device_wf|].
  destruct (register_device_registry Trim dev_name dev_path ep_in ep_out interface
              serial_index zero_mask os r) as [->|(Hnew & usb & Hpath & _ & _ & ->)];
    [done|].
  unfold one_handle_per_path. rewrite listed_insert_fresh by done.
  rewrite map_app. apply NoDup_app. split_and!; [done| |apply NoDup_singleton].
  intros name Hname ->%list_elem_of_singleton. by rewrite Hpath in Hname.
Qed.

Lemma register_all_preserves Trim calls r :
  registry_wf r -> one_handle_per_path r ->
  registry_wf (register_all Trim calls r) /\ one_handle_per_path (register_all Trim calls r).
Proof.
  revert r. induction calls as [|c calls IH]; intros r Hwf Hone; [done|].
  pose proof (register_device_preserves Trim (rc_dev_name c) (rc_dev_path c) (rc_ep_in c)
                (rc_ep_out c) (rc_interface c) (rc_serial_index c) (rc_zero_mask c)
                (rc_os c) r Hwf Hone) as [Hwf' Hone'].
  simpl. destruct (register_device _ _ _ _ _ _ _ _ _ _); [by apply IH|done].
Qed.

(** In a list without two handles of the same path, a path occurs once or
    not at all. *)
Lemma filter_path_NoDup (l : list usb_handle) dev_name :
  NoDup (map path l) ->
  length (List.filter (fun h => bool_decide (path h = dev_name)) l)
  = if bool_decide (dev_name ∈ map path l) then 1%nat else 0%nat.
Proof.
  induction l as [|h l IH]; intros Hnd; [done|].
  simpl in Hnd. apply NoDup_cons in Hnd as [Hh Hnd]. simpl.
  specialize (IH Hnd).
  destruct (decide (path h = dev_name)) as [Heq|Hne].
  - rewrite bool_decide_eq_true_2 by done. simpl. rewrite IH.
    rewrite (bool_decide_eq_true_2 (dev_name ∈ path h :: map path l))
      by (rewrite Heq; apply list_elem_of_here).
    rewrite bool_decide_eq_false_2; [done|]. by rewrite <- Heq.
  - rewrite bool_decide_eq_false_2 by done. rewrite IH.
    rewrite (bool_decide_ext (dev_name ∈ path h :: map path l) (dev_name ∈ map path l));
      [done|].
    rewrite elem_of_cons. split; [intros [Heq|Hin]; [by destruct Hne|done]|by right].
Qed.

(** C7.  From a well-formed registry with at most one handle per path, any
    run of [register_device] calls leads to a well-formed registry with at
    most one listed handle for every path; and when the path of a call is
    already listed there, the call returns at once and changes nothing, so
    calling twice leaves the registry as it is, with exactly one handle for
    the path. *)
Theorem register_device_one_handle_per_path Trim calls c r :
  registry_wf r -> one_handle_per_path r ->
  registry_wf (register_all Trim calls r) /\
  one_handle_per_path (register_all Trim calls r) /\
  (forall dev_name, (handles_for dev_name (register_all Trim calls r) <= 1)%nat) /\
  (rc_dev_name c ∈ map path (listed (register_all Trim calls r)) ->
   register_call_on Trim c (register_all Trim calls r)
     = Returned (register_all Trim calls r) [] /\
   register_all Trim [c; c] (register_all Trim calls r) = register_all Trim calls r /\
   handles_for (rc_dev_name c) (register_all Trim [c; c] (register_all Trim calls r)) = 1%nat).
Proof.
  intros Hwf Hone.
  destruct (register_all_preserves Trim calls r Hwf Hone) as [Hwf' Hone'].
  split_and!; [done|done| |].
  - intros dev_name. unfold handles_for. rewrite filter_path_NoDup by done.
    case_bool_decide; lia.
  - intros Hknown.
    assert (register_call_on Trim c (register_all Trim calls r)
            = Returned (register_all Trim calls r) []) as Hcall
      by (by apply register_device_known).
    assert (register_all Trim [c; c] (register_all Trim calls r)
            = register_all Trim calls r) as Htwice.
    { unfold register_call_on in Hcall. simpl. by rewrite !Hcall. }
    split_and!; [done|done|].
    rewrite Htwice. unfold handles_for. rewrite filter_path_NoDup by done.
    by rewrite bool_decide_eq_true_2.
Qed.

Lemma register_device_one_handle_per_path_witness :
  registry_wf (register_all (fun s => s) [call_with_dev_path] no_handles) /\
  one_handle_per_path (register_all (fun s => s) [call_with_dev_path] no_handles) /\
  (forall dev_name,
     (handles_for dev_name (register_all (fun s => s) [call_with_dev_path] no_handles)
      <= 1)%nat) /\
  (rc_dev_name call_with_dev_path
     ∈ map path (listed (register_all (fun s => s) [call_with_dev_path] no_handles)) ->
   register_call_on (fun s => s) call_with_dev_path
     (register_all (fun s => s) [call_with_dev_path] no_handles)
     = Returned (register_all (fun s => s) [call_with_dev_path] no_handles) [] /\
   register_all (fun s => s) [call_with_dev_path; call_with_dev_path]
     (register_all (fun s => s) [call_with_dev_path] no_handles)
     = register_all (fun s => s) [call_with_dev_path] no_handles /\
   handles_for (rc_dev_name call_with_dev_path)
     (register_all (fun s => s) [call_with_dev_path; call_with_dev_path]
        (register_all (fun s => s) [call_with_dev_path] no_handles)) = 1%nat).
Proof.
  apply register_device_one_handle_per_path.
  - split; [apply (bool_decide_unpack _); vm_compute; exact I|].
    apply Forall_forall. apply (bool_decide_unpack _). vm_compute. exact I.
  - apply (bool_decide_unpack _). vm_compute. exact I.
Defined.

(** The new device of [call_with_dev_path] is listed after the call, so the
    premise of the last part above holds there. *)
Lemma register_device_lists_new_device :
  map path (listed (register_all (fun s => s) [call_with_dev_path] no_handles))
  = ["/dev/bus/usb/001/002"].
Proof. vm_compute. reflexivity. Qed.

(** ** Registration without a device path *)

(** [find_usb_device] hands no device path to the callback when [fstat]
    fails or the node is no character device, when the link cannot be read,
    and when the link has no slash. *)
Lemma resolve_devpath_none readlink :
  resolve_devpath None readlink = None /\
  resolve_devpath (Some (189, 1)) (fun _ => None) = None /\
  resolve_devpath (Some (189, 1)) (fun _ => Some "1-1") = None.
Proof. split_and!; reflexivity. Qed.

(** C9 (the code departs from the claim).  The claim: a matched device
    whose node opens and whose interface is claimed is registered also when
    the scanner passes no device path.  For [call_without_dev_path] on the
    empty registry the call opens the node, claims the interface and then
    forms [dev_path + 4] from the null pointer for the "%s" of the serial
    path: it faults, and no handle is listed. *)
Theorem register_device_without_dev_path Trim :
  register_call_on Trim call_without_dev_path no_handles
  = Fault no_handles [EvOpen "/dev/bus/usb/001/002" true; EvClaim 5 0].
Proof. reflexivity. Qed.

(** The same for every registry that does not know the path and every
    system that opens the node (and, when it opens it read-write, grants the
    interface). *)
Lemma register_device_null_dev_path Trim dev_name ep_in ep_out interface serial_index
    zero_mask os r :
  (dev_name ∉ map path (listed r)) ->
  (open_rdwr os <> -1 /\ claim_rc os = 0) \/ (open_rdwr os = -1 /\ open_rdonly os <> -1) ->
  exists tr,
    register_device Trim dev_name None ep_in ep_out interface serial_index zero_mask os r
    = Fault r tr.
Proof.
  intros Hnew Hopen. unfold register_device.
  destruct (existsb _ _) eqn:Hknown.
  { apply existsb_path_is in Hknown. done. }
  cbn [fd with_fd]. destruct Hopen as [[Hrw Hclaim]|[Hrw Hro]].
  - apply Z.eqb_neq in Hrw. rewrite Hrw, Hclaim. simpl. eauto.
  - apply Z.eqb_neq in Hro. rewrite Hrw, Hro. simpl. eauto.
Qed.

(** With a device path, an unreadable serial file does not stop the
    registration: the handle is listed and attached with the trimmed empty
    serial. *)
Lemma register_device_serial_unreadable Trim dev_name dev_path rest ep_in ep_out interface
    serial_index zero_mask os r :
  (dev_name ∉ map path (listed r)) ->
  open_rdwr os <> -1 -> claim_rc os = 0 ->
  skip4 (Some dev_path) = Some rest ->
  read_file os (String.append "/sys/bus/usb/devices/" (String.append rest "/serial")) = None ->
  register_device Trim dev_name (Some dev_path) ep_in ep_out interface serial_index
    zero_mask os r
  = Returned
      (Registry
         (<[fresh (dom (heap r))
            := Handle dev_name (open_rdwr os) ep_in ep_out zero_mask 1 urb_zero urb_zero
                      false false false true 0]> (heap r))
         (g_usb_handles r ++ [fresh (dom (heap r))]))
      [EvOpen dev_name true; EvClaim (open_rdwr os) interface;
       EvReadFile (String.append "/sys/bus/usb/devices/" (String.append rest "/serial"));
       EvRegisterTransport (fresh (dom (heap r))) (Trim EmptyString) (Some dev_path) 1].
Proof.
  intros Hnew Hrw Hclaim Hskip Hread. unfold register_device.
  destruct (existsb _ _) eqn:Hknown.
  { apply existsb_path_is in Hknown. done. }
  cbn [fd with_fd]. apply Z.eqb_neq in Hrw. rewrite Hrw, Hclaim. cbn [Z.eqb negb].
  unfold register_finish. rewrite Hskip, Hread. reflexivity.
Qed.

(** ** A whole cycle of the poll thread *)

(** A listed handle that the scan does not come across is left alone by
    it. *)
Lemma is_known_device_kept p usb dev_name r :
  kept p usb r -> path usb <> dev_name -> kept p usb (is_known_device dev_name r).2.
Proof.
  intros ([Hnd Halloc] & Hin & Hp) Hpath. unfold is_known_device.
  destruct (List.find _ _) as [q|] eqn:Hfind; [|done].
  apply List.find_some in Hfind as [_ Hq]. cbn [snd].
  assert (q <> p) as Hne.
  { intros ->. unfold path_is in Hq. rewrite Hp in Hq.
    by apply bool_decide_eq_true in Hq. }
  unfold kept, registry_wf. cbn [heap g_usb_handles]. split_and!.
  - exact Hnd.
  - intros x Hx. rewrite lookup_alter. case_decide; [|by apply Halloc].
    apply fmap_is_Some. subst. by apply Halloc.
  - exact Hin.
  - by rewrite lookup_alter_ne.
Qed.

Lemma register_device_kept Trim p usb dev_name dev_path ep_in ep_out interface serial_index
    zero_mask os r :
  kept p usb r ->
  kept p usb (registry_of (register_device Trim dev_name dev_path ep_in ep_out interface
                             serial_index zero_mask os r)).
Proof.
  intros (Hwf & Hin & Hp).
  pose proof (register_device_wf Trim dev_name dev_path ep_in ep_out interface
                serial_index zero_mask os r Hwf) as Hwf'.
  destruct (register_device_registry Trim dev_name dev_path ep_in ep_out interface
              serial_index zero_mask os r) as [Heq|(_ & new & _ & _ & _ & Heq)];
    rewrite Heq in *; [done|].
  split_and!; [done|apply elem_of_app; by left|].
  cbn [heap]. rewrite lookup_insert_ne; [done|].
  intros Hfresh. assert (p ∈ dom (heap r)) as Hdom by (apply elem_of_dom; by eexists).
  rewrite <- Hfresh in Hdom. by apply is_fresh in Hdom.
Qed.

Lemma register_device_events_on Trim p dev_name dev_path ep_in ep_out interface serial_index
    zero_mask os r :
  events_on p (events_of (register_device Trim dev_name dev_path ep_in ep_out interface
                            serial_index zero_mask os r)) = [].
Proof.
  unfold register_device, register_finish.
  repeat case_match; reflexivity.
Qed.

Section Cycle.

Variable Trim : string -> string.
Variable is_adb_interface : Z -> Z -> Z -> Z -> Z -> bool.
Variable fuel : nat.

Lemma find_usb_device_entry_kept p usb bus de r r' tr :
  kept p usb r -> path usb <> slash bus (de_name de) ->
  find_usb_device_entry Trim is_adb_interface fuel bus de r = ScanDone r' tr ->
  kept p usb r' /\ events_on p tr = [].
Proof.
  intros Hkept Hpath. unfold find_usb_device_entry.
  destruct (contains_non_digit _); [by intros [= <- <-]|].
  pose proof (is_known_device_kept p usb _ r Hkept Hpath) as Hknown.
  destruct (negb _); [by intros [= <- <-]|].
  destruct (de_open de =? -1); [by intros [= <- <-]|].
  destruct (de_read de <? 0); [by intros [= <- <-]|].
  destruct (Load.value _) as [m| |]; [|by intros [= <- <-]|done].
  match goal with
  | |- context [register_device ?T ?n ?dp ?a ?b ?c ?d ?e ?o ?r0] =>
      pose proof (register_device_kept T p usb n dp a b c d e o r0 Hknown) as Hreg;
      pose proof (register_device_events_on T p n dp a b c d e o r0) as Hev;
      destruct (register_device T n dp a b c d e o r0) as [r1 tr1|r1 tr1]
  end; [|done].
  intros [= <- <-]. split; [done|].
  cbn [events_of registry_of] in *.
  change (events_on p ([EvOpen (slash bus (de_name de)) false; EvRead (de_open de)]
                       ++ tr1 ++ [EvClose (de_open de)]) = []).
  rewrite !events_on_app, Hev. reflexivity.
Qed.

Lemma find_usb_device_bus_kept p usb bus des r tr r' tr' :
  kept p usb r ->
  (forall de, de ∈ des -> path usb <> slash bus (de_name de)) ->
  find_usb_device_bus Trim is_adb_interface fuel bus des r tr = ScanDone r' tr' ->
  kept p usb r' /\ events_on p tr' = events_on p tr.
Proof.
  revert r tr. induction des as [|de des IH]; intros r tr Hkept Hnames; simpl.
  { by intros [= <- <-]. }
  destruct (find_usb_device_entry _ _ _ _ _ _) as [r1 tr1|r1 tr1|r1 tr1] eqn:Hentry;
    [|done|done].
  apply find_usb_device_entry_kept with (p := p) (usb := usb) in Hentry as [Hkept1 Hev1];
    [|done|apply Hnames, list_elem_of_here].
  intros Hrest. apply IH in Hrest as [Hkept' Hev'];
    [|done|intros de' Hde'; by apply Hnames, list_elem_of_further].
  split; [done|]. by rewrite Hev', events_on_app, Hev1, app_nil_r.
Qed.

Lemma find_usb_device_buses_kept p usb base buses r tr r' tr' :
  kept p usb r ->
  (path usb ∉ scanned_names base buses) ->
  find_usb_device_buses Trim is_adb_interface fuel base buses r tr = ScanDone r' tr' ->
  kept p usb r' /\ events_on p tr' = events_on p tr.
Proof.
  revert r tr. induction buses as [|b buses IH]; intros r tr Hkept Hnames; simpl.
  { by intros [= <- <-]. }
  unfold scanned_names in Hnames. simpl in Hnames. fold (scanned_names base buses) in Hnames.
  apply not_elem_of_app in Hnames as [Hhere Hnames].
  destruct (contains_non_digit _); [by apply IH|].
  destruct (bus_devs b) as [des|]; [|by apply IH].
  destruct (find_usb_device_bus _ _ _ _ _ _ _) as [r1 tr1|r1 tr1|r1 tr1] eqn:Hbus;
    [|done|done].
  apply find_usb_device_bus_kept with (p := p) (usb := usb) in Hbus as [Hkept1 Hev1];
    [|done|].
  - intros Hrest. apply IH in Hrest as [Hkept' Hev']; [|done|done].
    split; [done|]. by rewrite Hev'.
  - intros de Hde Heq. apply Hhere. rewrite Heq.
    apply list_elem_of_fmap. by exists de.
Qed.

(** A listed handle whose mark is false and whose path the scan of a cycle
    does not come across is kicked at the end of the cycle: it is dead
    afterwards, and [unregister_usb_transport] was called once for it if it
    was live and read-only, and not at all otherwise. *)
Lemma device_poll_cycle_kicks_unlisted p usb dir r r' tr :
  registry_wf r -> p ∈ g_usb_handles r -> heap r !! p = Some usb ->
  mark usb = false ->
  (forall buses, dir = Some buses -> path usb ∉ scanned_names "/dev/bus/usb" buses) ->
  device_poll_cycle Trim is_adb_interface fuel dir r = ScanDone r' tr ->
  heap r' !! p = Some (usb_kick usb).1 /\
  dead (usb_kick usb).1 = true /\
  events_on p tr = (usb_kick usb).2 /\
  unregistered p tr = if dead usb || negb (writeable usb =? 0) then 0%nat else 1%nat.
Proof.
  intros Hwf Hin Hp Hmark Hnames. unfold device_poll_cycle, find_usb_device.
  assert (kept p usb r) as Hkept by done.
  assert (forall r1 tr1, kept p usb r1 -> events_on p tr1 = [] ->
            ScanDone (kick_disconnected_devices r1).1 (tr1 ++ (kick_disconnected_devices r1).2)
            = ScanDone r' tr ->
            heap r' !! p = Some (usb_kick usb).1 /\
            dead (usb_kick usb).1 = true /\
            events_on p tr = (usb_kick usb).2 /\
            unregistered p tr
            = if dead usb || negb (writeable usb =? 0) then 0%nat else 1%nat) as Hkick.
  { intros r1 tr1 ([Hnd _] & Hin1 & Hp1) Hev1 [= <- <-].
    destruct (kick_sweep_member (g_usb_handles r1) (heap r1, []) p usb Hnd Hin1 Hp1)
      as [Hheap Hev].
    unfold kick_disconnected_devices, unregistered. cbn [fst snd heap].
    rewrite events_on_app, Hev1, Hheap, Hev, Hmark. cbn [app].
    split_and!; [done|apply usb_kick_dead|done|apply usb_kick_unregisters]. }
  destruct dir as [buses|].
  - destruct (find_usb_device_buses _ _ _ _ _ _ _) as [r1 tr1|r1 tr1|r1 tr1] eqn:Hscan;
      [|done|done].
    apply find_usb_device_buses_kept with (p := p) (usb := usb) in Hscan as [Hkept1 Hev1];
      [|done|by apply Hnames].
    by apply Hkick.
  - by apply Hkick.
Qed.

End Cycle.

(** The device of [adb_descriptors] is registered by a cycle when its stable
    path resolves, and the cycle faults when [fstat] fails: the callback is
    then called without a device path. *)
Lemma device_poll_cycle_registers :
  (exists r,
     device_poll_cycle (fun s => s) adb_class_policy 10 (one_device (Some (189, 1))) no_handles
     = ScanDone r
         [EvOpen "/dev/bus/usb/001/002" false; EvRead 4;
          EvOpen "/dev/bus/usb/001/002" true; EvClaim 5 0;
          EvReadFile "/sys/bus/usb/devices/1-1/serial";
          EvRegisterTransport 1%positive "" (Some "usb:1-1") 1;
          EvClose 4] /\
     map path (listed r) = ["/dev/bus/usb/001/002"]) /\
  device_poll_cycle (fun s => s) adb_class_policy 10 (one_device None) no_handles
  = ScanFault no_handles
      [EvOpen "/dev/bus/usb/001/002" false; EvRead 4;
       EvOpen "/dev/bus/usb/001/002" true; EvClaim 5 0].
Proof.
  split; [|vm_compute; reflexivity].
  eexists. split; vm_compute; reflexivity.
Qed.

(** When [unix_read] fails, its -1 becomes the largest [size_t] and [bufend]
    wraps to the address before [devdesc]: the loop is not entered and the
    node is only closed, whatever [devdesc] held before; here the
    descriptors of an ADB device. *)
Lemma find_usb_device_entry_read_failure Trim is_adb_interface fuel bus de r :
  contains_non_digit (de_name de) = false ->
  (is_known_device (slash bus (de_name de)) r).1 = 0 ->
  de_open de <> -1 ->
  de_read de < 0 ->
  find_usb_device_entry Trim is_adb_interface fuel bus de r
  = ScanDone (is_known_device (slash bus (de_name de)) r).2
      [EvOpen (slash bus (de_name de)) false; EvRead (de_open de); EvClose (de_open de)].
Proof.
  intros Hnum Hknown Hopen Hread. unfold find_usb_device_entry.
  rewrite Hnum, Hknown. cbn [Z.eqb negb].
  replace (de_open de =? -1) with false by (symmetry; by apply Z.eqb_neq).
  replace (de_read de <? 0) with true by (symmetry; by apply Z.ltb_lt).
  reflexivity.
Qed.

Lemma find_usb_device_entry_read_failure_adb :
  find_usb_device_entry (fun s => s) adb_class_policy 10 "/dev/bus/usb/001"
    (DevEntry "003" 4 (-1) (buffer_of adb_descriptors 0) (Some (189, 2))
              (fun _ => Some "../../usb1/1-2") node_opens)
    no_handles
  = ScanDone no_handles
      [EvOpen "/dev/bus/usb/001/003" false; EvRead 4; EvClose 4].
Proof. vm_compute. reflexivity. Qed.

(** * Further properties *)

(** ** The descriptor scan: what a match means *)

Lemma skip_ss_ep_comp_cases devdesc desclength bufptr :
  Load.value (skip_ss_ep_comp devdesc desclength bufptr) = bufptr \/
  Load.value (skip_ss_ep_comp devdesc desclength bufptr) = bufptr + USB_DT_SS_EP_COMP_SIZE.
Proof.
  unfold skip_ss_ep_comp. rewrite value_bind.
  destruct (Load.value (Load.andR _ _)); unfold Load.value, Load.ret; cbn [fst]; auto.
Qed.

Lemma value_neq_false devdesc off c :
  Load.value (Load.neq (Load.u8 devdesc off) c) = false -> devdesc off = c.
Proof.
  unfold Load.neq. rewrite value_bind, value_ret.
  change (Load.value (Load.u8 devdesc off)) with (devdesc off).
  intros H. apply negb_false_iff in H. by apply Z.eqb_eq.
Qed.

Lemma match_endpoints_details devdesc desclength interface bufptr m :
  Load.value (match_endpoints devdesc desclength interface bufptr) = Stop (Registered m) ->
  exists ep2,
    (ep2 = bufptr + USB_DT_ENDPOINT_SIZE \/
     ep2 = bufptr + USB_DT_ENDPOINT_SIZE + USB_DT_SS_EP_COMP_SIZE) /\
    bulk_endpoint devdesc desclength bufptr /\
    bulk_endpoint devdesc desclength ep2 /\
    m_ep_in m = (if Z.land (bEndpointAddress devdesc bufptr) USB_ENDPOINT_DIR_MASK =? 0
                 then bEndpointAddress devdesc ep2 else bEndpointAddress devdesc bufptr) /\
    m_ep_out m = (if Z.land (bEndpointAddress devdesc bufptr) USB_ENDPOINT_DIR_MASK =? 0
                  then bEndpointAddress devdesc bufptr else bEndpointAddress devdesc ep2).
Proof.
  unfold match_endpoints. rewrite !value_bind.
  pose proof (skip_ss_ep_comp_cases devdesc desclength (bufptr + USB_DT_ENDPOINT_SIZE)) as C1.
  set (p1 := Load.value (skip_ss_ep_comp devdesc desclength (bufptr + USB_DT_ENDPOINT_SIZE)))
    in *.
  pose proof (skip_ss_ep_comp_forward devdesc desclength (p1 + USB_DT_ENDPOINT_SIZE)) as F2.
  set (p2 := Load.value (skip_ss_ep_comp devdesc desclength (p1 + USB_DT_ENDPOINT_SIZE)))
    in *.
  rewrite value_if. destruct (Load.value (Load.orR _ _)) eqn:Hbad; [done|].
  rewrite !value_orR, value_ret in Hbad.
  apply orb_false_iff in Hbad as [Hend Hbad]. apply Z.ltb_ge in Hend.
  apply orb_false_iff in Hbad as [Hl1 Hbad]. apply value_neq_false in Hl1.
  apply orb_false_iff in Hbad as [Ht1 Hbad]. apply value_neq_false in Ht1.
  apply orb_false_iff in Hbad as [Hl2 Ht2].
  apply value_neq_false in Hl2. apply value_neq_false in Ht2.
  rewrite !value_bind, value_if. destruct (Load.value (Load.orR _ _)) eqn:Hbulk; [done|].
  rewrite value_orR in Hbulk. apply orb_false_iff in Hbulk as [Hb1 Hb2].
  apply value_neq_false in Hb1. apply value_neq_false in Hb2.
  rewrite !value_bind. intros [= <-]. cbn [m_ep_in m_ep_out].
  exists p1. unfold bulk_endpoint, bmAttributes, bEndpointAddress.
  change (Load.value (Load.u8 devdesc (bufptr + 2))) with (devdesc (bufptr + 2)).
  unfold USB_DT_ENDPOINT_SIZE, USB_DT_SS_EP_COMP_SIZE in *.
  split; [destruct C1 as [->| ->]; auto|].
  split; [split_and!; [destruct C1; lia|done..]|].
  split; [split_and!; [lia|done..]|].
  destruct (Z.land (devdesc (bufptr + 2)) USB_ENDPOINT_DIR_MASK =? 0); done.
Qed.

Lemma descriptor_turn_details policy devdesc desclength vid pid bufptr m :
  bufptr < desclength ->
  Load.value (descriptor_turn policy devdesc desclength vid pid bufptr)
    = Stop (Registered m) ->
  exists ep2, registered_from devdesc desclength bufptr ep2 m.
Proof.
  intros Hlt Hturn.
  pose proof (descriptor_turn_registered _ _ _ _ _ _ _ Hturn) as (Hsize & Htype & Hnum & Hif & _).
  revert Hturn. unfold descriptor_turn. rewrite !value_bind.
  change (Load.value (Load.u8 devdesc bufptr)) with (devdesc bufptr).
  change (Load.value (Load.u8 devdesc (bufptr + 1))) with (devdesc (bufptr + 1)).
  rewrite Htype, Hsize, !Z.eqb_refl. cbn [negb].
  rewrite value_bind, value_if. destruct (Load.value (Load.andR _ _)); [|done].
  intros Hm.
  pose proof (match_endpoints_registered _ _ _ _ _ Hm) as (_ & Hserial & _).
  apply match_endpoints_details in Hm as (ep2 & Hep2 & He1 & He2 & Hin & Hout).
  exists ep2. unfold registered_from, matched_interface. by split_and!.
Qed.

Lemma descriptor_loop_details policy devdesc desclength fuel vid pid bufptr m :
  Load.value (descriptor_loop policy devdesc desclength fuel vid pid bufptr) = Registered m ->
  exists interface ep2, registered_from devdesc desclength interface ep2 m.
Proof.
  revert bufptr. induction fuel as [|fuel IH]; intros bufptr; simpl.
  { by destruct (bufptr <? desclength). }
  destruct (bufptr <? desclength) eqn:Hlt; [|done]. apply Z.ltb_lt in Hlt.
  rewrite value_bind.
  destruct (Load.value (descriptor_turn policy devdesc desclength vid pid bufptr))
    as [next|r] eqn:Hturn.
  - apply IH.
  - rewrite value_ret. intros ->. exists bufptr. by eapply descriptor_turn_details.
Qed.

Lemma find_usb_device_parse_details policy devdesc desclength fuel m :
  Load.value (find_usb_device_parse policy devdesc desclength fuel) = Registered m ->
  exists interface ep2, registered_from devdesc desclength interface ep2 m.
Proof.
  unfold find_usb_device_parse.
  rewrite value_if. destruct (desclength <? _); [done|].
  rewrite value_bind, value_if. destruct (Load.value (Load.orR _ _)); [done|].
  rewrite !value_bind, value_if. destruct (Load.value (Load.orR _ _)); [done|].
  apply descriptor_loop_details.
Qed.

(** X1.  When the scan calls the callback, its arguments come from an
    interface record inside the buffer with the length and type of an
    interface descriptor and two endpoints, and from two endpoint records
    that lie wholly inside the buffer, have the length and type of an
    endpoint descriptor and are bulk endpoints; the second follows the first
    directly or behind a 6-byte companion. *)
Theorem find_usb_device_parse_match policy devdesc desclength fuel m :
  Load.value (find_usb_device_parse policy devdesc desclength fuel) = Registered m ->
  exists interface ep2, registered_from devdesc desclength interface ep2 m.
Proof. apply find_usb_device_parse_details. Qed.

Lemma find_usb_device_parse_match_witness :
  exists interface ep2,
    registered_from (buffer_of adb_descriptors 0) 50 interface ep2 (UsbMatch 129 1 0 3 63).
Proof.
  apply (find_usb_device_parse_match adb_class_policy (buffer_of adb_descriptors 0) 50 4).
  vm_compute. reflexivity.
Defined.



(** ** The descriptor scan: bounds, rejection and the end of the walk *)

Lemma buffer_of_nonneg bytes garbage off :
  Forall (fun b => 0 <= b) bytes -> 0 <= garbage -> 0 <= buffer_of bytes garbage off.
Proof.
  intros Hbytes Hg. unfold buffer_of. destruct (off <? 0); [done|].
  destruct (Nat.lt_ge_cases (Z.to_nat off) (length bytes)) as [Hlt|Hge].
  - rewrite List.Forall_forall in Hbytes. apply Hbytes. by apply List.nth_In.
  - by rewrite List.nth_overflow.
Qed.

(** X3.  Whatever the buffer holds (bytes are not negative), no load of the
    scan is at or behind offset [desclength + 7]; so when at most 4089 bytes
    were read, every load is inside the 4096 bytes of the array [devdesc]. *)
Theorem find_usb_device_parse_stays_near policy devdesc desclength fuel :
  (forall off, 0 <= devdesc off) ->
  within (desclength + 7)
    (Load.loads (find_usb_device_parse policy devdesc desclength fuel)) /\
  (desclength <= 4089 ->
   within 4096 (Load.loads (find_usb_device_parse policy devdesc desclength fuel))).
Proof.
  intros Hbytes.
  pose proof (find_usb_device_parse_loads_bound policy devdesc desclength fuel Hbytes) as H.
  split; [exact H|]. intros Hlen. eapply within_weaken; [|exact H]. lia.
Qed.

Lemma find_usb_device_parse_stays_near_witness :
  within (28 + 7)
    (Load.loads (find_usb_device_parse adb_class_policy
                   (buffer_of trailing_byte_descriptors 4) 28 3)) /\
  (28 <= 4089 ->
   within 4096
     (Load.loads (find_usb_device_parse adb_class_policy
                    (buffer_of trailing_byte_descriptors 4) 28 3))).
Proof.
  apply find_usb_device_parse_stays_near.
  intros off. apply buffer_of_nonneg; [|lia].
  apply (bool_decide_unpack _). vm_compute. exact I.
Defined.

Lemma descriptor_turn_not_scanning policy devdesc desclength vid pid bufptr :
  Load.value (descriptor_turn policy devdesc desclength vid pid bufptr) <> Stop Scanning.
Proof.
  unfold descriptor_turn. rewrite !value_bind, value_if.
  destruct (_ =? USB_DT_INTERFACE); [|done].
  rewrite value_if. destruct (negb _); [done|].
  rewrite value_bind, value_if. destruct (Load.value (Load.andR _ _)); [|done].
  unfold match_endpoints. rewrite !value_bind, value_if.
  destruct (Load.value (Load.orR _ _)); [done|].
  rewrite !value_bind, value_if. destruct (Load.value (Load.orR _ _)); [done|].
  rewrite !value_bind. done.
Qed.

Lemma descriptor_loop_scanning policy devdesc desclength vid pid fuel bufptr :
  (forall off, 0 <= devdesc off) ->
  desclength - bufptr <= Z.of_nat fuel ->
  Load.value (descriptor_loop policy devdesc desclength fuel vid pid bufptr) = Scanning ->
  exists off, bufptr <= off < desclength /\
              devdesc off = 0 /\ devdesc (off + 1) <> USB_DT_INTERFACE.
Proof.
  intros Hbytes. revert bufptr.
  induction fuel as [|fuel IH]; intros bufptr Hfuel; simpl.
  { destruct (bufptr <? desclength) eqn:Hlt; [|done]. apply Z.ltb_lt in Hlt. lia. }
  destruct (bufptr <? desclength) eqn:Hlt; [|done]. apply Z.ltb_lt in Hlt.
  rewrite value_bind.
  destruct (Load.value (descriptor_turn policy devdesc desclength vid pid bufptr))
    as [next|r] eqn:Hturn.
  - destruct (decide (devdesc bufptr = 0)) as [Hzero|Hnonzero].
    + destruct (decide (devdesc (bufptr + 1) = USB_DT_INTERFACE)) as [Hif|Hnoif].
      * apply descriptor_turn_forward in Hturn; [|done|by right].
        intros Hrest. apply IH in Hrest as (off & Hoff & Hrec); [|lia].
        exists off. split; [lia|done].
      * intros _. exists bufptr. split; [lia|done].
    + apply descriptor_turn_forward in Hturn; [|done|by left].
      intros Hrest. apply IH in Hrest as (off & Hoff & Hrec); [|lia].
      exists off. split; [lia|done].
  - rewrite value_ret. intros ->. by apply descriptor_turn_not_scanning in Hturn.
Qed.

(** X4.  The walk can only fail to end on a record of declared length 0
    that is not an interface: if it is still running after as many turns as
    the buffer has bytes behind the headers, such a record lies in the
    buffer. *)
Theorem find_usb_device_parse_runs_on policy devdesc desclength fuel :
  (forall off, 0 <= devdesc off) ->
  desclength - 27 <= Z.of_nat fuel ->
  Load.value (find_usb_device_parse policy devdesc desclength fuel) = Scanning ->
  exists off, 27 <= off < desclength /\
              devdesc off = 0 /\ devdesc (off + 1) <> USB_DT_INTERFACE.
Proof.
  intros Hbytes Hfuel. unfold find_usb_device_parse.
  rewrite value_if. destruct (desclength <? _); [done|].
  rewrite value_bind, value_if. destruct (Load.value (Load.orR _ _)); [done|].
  rewrite !value_bind, value_if. destruct (Load.value (Load.orR _ _)); [done|].
  apply descriptor_loop_scanning; [done|].
  unfold USB_DT_DEVICE_SIZE, USB_DT_CONFIG_SIZE. lia.
Qed.

Lemma find_usb_device_parse_runs_on_witness :
  exists off, 27 <= off < 29 /\
              buffer_of zero_length_descriptors 0 off = 0 /\
              buffer_of zero_length_descriptors 0 (off + 1) <> USB_DT_INTERFACE.
Proof.
  apply (find_usb_device_parse_runs_on adb_class_policy
           (buffer_of zero_length_descriptors 0) 29 2).
  - intros off. apply buffer_of_nonneg; [|lia].
    apply (bool_decide_unpack _). vm_compute. exact I.
  - lia.
  - vm_compute. reflexivity.
Defined.

Ltac header_loads :=
  apply Forall_forall; apply (bool_decide_unpack _); vm_compute; exact I.

(** X5.  A buffer that is too short, or whose device or configuration
    header has the wrong length or type, is skipped: the callback is not
    called, the loop is not entered, and only header bytes are loaded (none
    at all when the buffer is too short). *)
Theorem find_usb_device_parse_rejects policy devdesc desclength fuel :
  desclength < 27 \/ devdesc 0 <> 18 \/ devdesc 1 <> 1 \/ devdesc 18 <> 9 \/ devdesc 19 <> 2 ->
  Load.value (find_usb_device_parse policy devdesc desclength fuel) = Skipped /\
  (forall off, off ∈ Load.loads (find_usb_device_parse policy devdesc desclength fuel) ->
               off ∈ header_offsets) /\
  (desclength < 27 -> Load.loads (find_usb_device_parse policy devdesc desclength fuel) = []).
Proof.
  intros Hbad. unfold find_usb_device_parse.
  destruct (desclength <? USB_DT_DEVICE_SIZE + USB_DT_CONFIG_SIZE) eqn:Hlen.
  { split_and!; [done| |done]. intros off Hoff. by apply elem_of_nil in Hoff. }
  apply Z.ltb_ge in Hlen. unfold USB_DT_DEVICE_SIZE, USB_DT_CONFIG_SIZE in Hlen.
  destruct Hbad as [Hshort|Hbad]; [lia|].
  unfold Load.orR, Load.neq, Load.le16, Load.bind, Load.u8, Load.ret,
    USB_DT_DEVICE_SIZE, USB_DT_CONFIG_SIZE, USB_DT_DEVICE, USB_DT_CONFIG,
    Load.value, Load.loads, header_offsets.
  cbn [fst snd]. fold_offsets.
  destruct (devdesc 0 =? 18) eqn:H0; cbn [negb fst snd app].
  2:{ split_and!; [done|header_loads|lia]. }
  destruct (devdesc 1 =? 1) eqn:H1; cbn [negb fst snd app].
  2:{ split_and!; [done|header_loads|lia]. }
  destruct (devdesc 18 =? 9) eqn:H18; cbn [negb fst snd app].
  2:{ split_and!; [done|header_loads|lia]. }
  destruct (devdesc 19 =? 2) eqn:H19; cbn [negb fst snd app].
  2:{ split_and!; [done|header_loads|lia]. }
  apply Z.eqb_eq in H0, H1, H18, H19. exfalso.
  destruct Hbad as [?|[?|[?|?]]]; done.
Qed.

Lemma find_usb_device_parse_rejects_witness :
  Load.value (find_usb_device_parse adb_class_policy (buffer_of [18; 2] 0) 40 3) = Skipped /\
  (forall off,
     off ∈ Load.loads (find_usb_device_parse adb_class_policy (buffer_of [18; 2] 0) 40 3) ->
     off ∈ header_offsets) /\
  (40 < 27 ->
   Load.loads (find_usb_device_parse adb_class_policy (buffer_of [18; 2] 0) 40 3) = []).
Proof.
  apply find_usb_device_parse_rejects.
  right. right. left. vm_compute. discriminate.
Defined.

(** ** The bulk calls: how they end *)

Lemma submit_urb_not_eintr answers urb s s1 :
  submit_urb answers urb s = (Ret (-1), s1) -> errno s1 <> EINTR.
Proof.
  revert s. induction answers as [|a answers IH]; intros s; simpl; [done|].
  destruct (submit_rc a =? -1) eqn:Hrc; simpl.
  - destruct (submit_errno a =? EINTR) eqn:Herr; [apply IH|].
    intros [= _ <-]. by apply Z.eqb_neq in Herr.
  - intros [= Heq _]. rewrite Heq in Hrc. done.
Qed.

(** X6.  When the kernel refuses the request (the submit ioctl returns -1
    with an [errno] other than EINTR, after any number of interrupted
    attempts), both bulk calls return -1 at once with the kernel's [errno]:
    they neither wait nor reap, and the slot is not marked busy. *)
Theorem usb_bulk_calls_submit_refused data len s :
  dead (hnd s) = false ->
  (forall s1,
     submit_urb (submits s) (urb_bulk (ep_out (hnd s)) data len) (write_entered data len s)
     = (Ret (-1), s1) ->
     usb_bulk_write data len s = (Ret (-1), emit EvUnlock s1) /\
     errno s1 <> EINTR /\
     urb_out_busy (hnd s1) = urb_out_busy (hnd s) /\ wakes s1 = wakes s) /\
  (forall s1,
     submit_urb (submits s) (urb_bulk (ep_in (hnd s)) data len) (read_entered data len s)
     = (Ret (-1), s1) ->
     usb_bulk_read data len s = (Ret (-1), emit EvUnlock s1) /\
     errno s1 <> EINTR /\
     urb_in_busy (hnd s1) = urb_in_busy (hnd s) /\ reaps s1 = reaps s).
Proof.
  intros Hd. split; intros s1 Hsub.
  - pose proof (submit_urb_frame (submits s) (urb_bulk (ep_out (hnd s)) data len)
                  (write_entered data len s)) as Hf.
    rewrite Hsub in Hf. cbn [fst snd] in Hf. destruct Hf as (Hh & _ & Hw & _).
    split_and!.
    + unfold usb_bulk_write.
      replace (dead (hnd (write_entered data len s))) with false by done.
      change (urb_out (hnd (write_entered data len s)))
        with (urb_bulk (ep_out (hnd s)) data len).
      change (submits (write_entered data len s)) with (submits s).
      by rewrite Hsub.
    + by eapply submit_urb_not_eintr.
    + by rewrite Hh.
    + by rewrite Hw.
  - pose proof (submit_urb_frame (submits s) (urb_bulk (ep_in (hnd s)) data len)
                  (read_entered data len s)) as Hf.
    rewrite Hsub in Hf. cbn [fst snd] in Hf. destruct Hf as (Hh & Hr & _ & _).
    split_and!.
    + unfold usb_bulk_read.
      replace (dead (hnd (read_entered data len s))) with false by done.
      change (urb_in (hnd (read_entered data len s)))
        with (urb_bulk (ep_in (hnd s)) data len).
      change (submits (read_entered data len s)) with (submits s).
      by rewrite Hsub.
    + by eapply submit_urb_not_eintr.
    + by rewrite Hh.
    + by rewrite Hr.
Qed.

Lemma usb_bulk_calls_submit_refused_witness :
  (usb_bulk_write 0 64 submit_refused).1 = Ret (-1) /\
  errno (usb_bulk_write 0 64 submit_refused).2 = ENODEV /\
  (usb_bulk_read 0 64 submit_refused).1 = Ret (-1) /\
  errno (usb_bulk_read 0 64 submit_refused).2 = ENODEV.
Proof.
  pose proof (usb_bulk_calls_submit_refused 0 64 submit_refused eq_refl) as [Hw Hr].
  pose proof (Hw (submit_urb (submits submit_refused) (urb_bulk 1 0 64)
                    (write_entered 0 64 submit_refused)).2
                 ltac:(vm_compute; reflexivity)) as (-> & _).
  pose proof (Hr (submit_urb (submits submit_refused) (urb_bulk 129 0 64)
                    (read_entered 0 64 submit_refused)).2
                 ltac:(vm_compute; reflexivity)) as (-> & _).
  split_and!; vm_compute; reflexivity.
Defined.

Lemma write_wait_completes ws w rest s h1 :
  keeps_waiting ws (hnd s) = Some h1 ->
  wake_timeout w = false ->
  dead (wake_change w h1) = false ->
  urb_out_busy (wake_change w h1) = false ->
  write_wait (ws ++ w :: rest) s
  = (Ret (if urb_status (urb_out (wake_change w h1)) =? 0
          then urb_actual_length (urb_out (wake_change w h1)) else -1),
     State (wake_change w h1)
           (if urb_status (urb_out (wake_change w h1)) =? 0
            then errno s else - urb_status (urb_out (wake_change w h1)))
           (trace s ++ repeat (EvWait 5) (S (length ws)) ++ [EvUnlock])
           (submits s) (reaps s) rest (self s)).
Proof.
  revert s. induction ws as [|w0 ws IH]; intros s Hkeep Hto Hd Hbusy.
  - simpl in Hkeep. injection Hkeep as <-. cbn [app write_wait].
    cbn [hnd on_hnd with_hnd with_wakes emit].
    rewrite Hto, Hd, Hbusy. cbn [orb negb].
    destruct (urb_status (urb_out (wake_change w (hnd s))) =? 0);
      unfold leave, emit, with_errno; cbn; by rewrite <- app_assoc.
  - simpl in Hkeep. cbn [app write_wait].
    cbn [hnd on_hnd with_hnd with_wakes emit].
    destruct (wake_timeout w0 || dead (wake_change w0 (hnd s))
              || negb (urb_out_busy (wake_change w0 (hnd s)))) eqn:Hstay; [done|].
    apply orb_false_iff in Hstay as [Hstay Hb].
    rewrite Hstay, Hb.
    rewrite IH by done.
    cbn. do 2 f_equal. by rewrite <- app_assoc.
Qed.

(** X7.  A bulk write on a live handle whose request the kernel accepted
    returns when a wake-up finds the out-slot no longer busy (no timeout,
    handle alive): the completed request's byte count when its status is 0,
    and otherwise -1 with [errno] the negated status.  The handle is as the
    environment left it. *)
Theorem usb_bulk_write_completes data len s rc s1 ws w rest h1 :
  dead (hnd s) = false ->
  submit_urb (submits s) (urb_bulk (ep_out (hnd s)) data len) (write_entered data len s)
    = (Ret rc, s1) ->
  rc <> -1 ->
  wakes s = ws ++ w :: rest ->
  keeps_waiting ws (hnd (write_submitted s1)) = Some h1 ->
  wake_timeout w = false ->
  dead (wake_change w h1) = false ->
  urb_out_busy (wake_change w h1) = false ->
  usb_bulk_write data len s
  = (Ret (if urb_status (urb_out (wake_change w h1)) =? 0
          then urb_actual_length (urb_out (wake_change w h1)) else -1),
     State (wake_change w h1)
           (if urb_status (urb_out (wake_change w h1)) =? 0
            then errno s1 else - urb_status (urb_out (wake_change w h1)))
           (trace s1 ++ repeat (EvWait 5) (S (length ws)) ++ [EvUnlock])
           (submits s1) (reaps s) rest (self s)).
Proof.
  intros Hd Hsub Hrc Hwakes Hkeep Hto Hlive Hbusy.
  pose proof (submit_urb_frame (submits s) (urb_bulk (ep_out (hnd s)) data len)
                (write_entered data len s)) as Hframe.
  rewrite Hsub in Hframe. cbn [fst snd] in Hframe.
  destruct Hframe as (Hh & Hr & Hw & Hself & _).
  unfold usb_bulk_write.
  replace (dead (hnd (write_entered data len s))) with false by done.
  change (urb_out (hnd (write_entered data len s)))
    with (urb_bulk (ep_out (hnd s)) data len).
  change (submits (write_entered data len s)) with (submits s).
  rewrite Hsub.
  replace (rc =? -1) with false by (symmetry; by apply Z.eqb_neq).
  change (wakes (on_hnd (with_urb_out_busy true) s1)) with (wakes s1).
  rewrite Hw. change (wakes (write_entered data len s)) with (wakes s).
  rewrite Hwakes.
  change (on_hnd (with_urb_out_busy true) s1) with (write_submitted s1).
  rewrite write_wait_completes with (h1 := h1) by done.
  cbn. by rewrite Hr, Hself.
Qed.

Lemma usb_bulk_write_completes_witness :
  (usb_bulk_write 0 64 (write_completes_late 0 64)).1 = Ret 64 /\
  (usb_bulk_write 0 64 (write_completes_late (- ENODEV) 0)).1 = Ret (-1) /\
  errno (usb_bulk_write 0 64 (write_completes_late (- ENODEV) 0)).2 = ENODEV.
Proof.
  pose proof (fun status actual =>
    usb_bulk_write_completes 0 64 (write_completes_late status actual) 0
      (emit (EvSubmit (urb_bulk 1 0 64))
         (with_submits [] (write_entered 0 64 (write_completes_late status actual))))
      [Wake false (fun h => h)]
      (Wake false (fun h => with_urb_out_busy false (completes SlotOut status actual h))) []
      (with_urb_out_busy true (with_urb_out (urb_bulk 1 0 64) live_handle))
      eq_refl eq_refl ltac:(lia) eq_refl eq_refl eq_refl eq_refl eq_refl) as H.
  rewrite (H 0 64), (H (- ENODEV) 0). split_and!; vm_compute; reflexivity.
Defined.

(** Writes the handle tested by [if dead _ then _ else _] as [h]. *)
Ltac see_handle h :=
  match goal with
  | |- context [if dead ?x then _ else _] => change x with h
  end.

(** The reap loop steps over answers that leave the reader reaping. *)
Lemma read_reap_skip rs rest s h1 :
  keeps_reaping (self s) rs (hnd s) = Some h1 ->
  exists s1,
    read_reap (rs ++ rest) s = read_reap rest s1 /\
    hnd s1 = h1 /\ self s1 = self s /\ submits s1 = submits s /\ wakes s1 = wakes s /\
    List.filter is_submit (trace s1) = List.filter is_submit (trace s).
Proof.
  revert s. induction rs as [|r rs IH]; intros s Hkeep.
  { simpl in Hkeep. injection Hkeep as <-. exists s. by split_and!. }
  cbn [keeps_reaping] in Hkeep.
  set (h := with_reaper_thread 0 (reap_change r (with_reaper_thread (self s) (hnd s)))) in *.
  destruct (dead h) eqn:Hd; [done|].
  cbn [app read_reap]. cbn [hnd on_hnd with_hnd with_reaps emit self].
  assert (forall s2, self s2 = self s -> submits s2 = submits s -> wakes s2 = wakes s ->
            List.filter is_submit (trace s2) = List.filter is_submit (trace s) ->
            keeps_reaping (self s2) rs (hnd s2) = Some h1 ->
            exists s1,
              read_reap (rs ++ rest) s2 = read_reap rest s1 /\
              hnd s1 = h1 /\ self s1 = self s /\ submits s1 = submits s /\
              wakes s1 = wakes s /\
              List.filter is_submit (trace s1) = List.filter is_submit (trace s)) as Hstep.
  { intros s2 Hself Hsub Hwk Htr Hkeep2.
    destruct (IH s2 Hkeep2) as (s1 & Hs1 & ? & ? & ? & ? & ?).
    exists s1. split_and!; congruence. }
  destruct (reap_rc r <? 0) eqn:Hrc.
  - destruct (reap_errno r =? EINTR) eqn:Herr; [|done].
    cbn [with_errno hnd errno]. see_handle h. rewrite Hd, Herr.
    apply Hstep; [done|done|done| |exact Hkeep].
    cbn. rewrite !List.filter_app. cbn. by rewrite !app_nil_r.
  - see_handle h. rewrite Hd. destruct (reap_out r) eqn:Hout; [done| |].
    + apply Hstep; [done|done|done| |exact Hkeep].
      cbn. rewrite !List.filter_app. cbn. by rewrite !app_nil_r.
    + apply Hstep; [done|done|done| |exact Hkeep].
      cbn. rewrite !List.filter_app. cbn. by rewrite !app_nil_r.
Qed.

(** One turn of the reap loop, with the state at the tests written out. *)
Lemma read_reap_turn r rest s :
  read_reap (r :: rest) s
  = let s' := State (after_reap (self s) r (hnd s))
                    (if reap_rc r <? 0 then reap_errno r else errno s)
                    (trace s ++ [EvUnlock; EvReap (fd (hnd s)); EvLock])
                    (submits s) rest (wakes s) (self s) in
    if dead (hnd s') then leave (-1) (with_errno EINVAL s')
    else if reap_rc r <? 0 then
      if reap_errno r =? EINTR then read_reap rest s'
      else leave (-1) (with_errno (reap_errno r) s')
    else
      match reap_out r with
      | ReapedIn =>
          let s' := on_hnd (with_urb_in_busy false) s' in
          if negb (urb_status (urb_in (hnd s')) =? 0)
          then leave (-1) (with_errno (- urb_status (urb_in (hnd s'))) s')
          else leave (urb_actual_length (urb_in (hnd s'))) s'
      | ReapedOut =>
          read_reap rest (emit EvNotifyAll (on_hnd (with_urb_out_busy false) s'))
      | ReapedOther => read_reap rest s'
      end.
Proof.
  cbn [read_reap]. cbv zeta.
  set (s0 := on_hnd (with_reaper_thread 0) _).
  set (s' := State _ _ _ _ _ _ _).
  assert (s0 = s') as Hs.
  { unfold s0, s', after_reap. destruct (reap_rc r <? 0);
      unfold on_hnd, emit, with_errno, with_reaps, with_hnd; cbn; by rewrite <- ?app_assoc. }
  assert (errno (if reap_rc r <? 0
                 then with_errno (reap_errno r)
                        (on_hnd (reap_change r)
                           (with_reaps rest
                              (emit (EvReap (fd (hnd (on_hnd (with_reaper_thread (self s)) s))))
                                 (emit EvUnlock (on_hnd (with_reaper_thread (self s)) s)))))
                 else on_hnd (reap_change r)
                        (with_reaps rest
                           (emit (EvReap (fd (hnd (on_hnd (with_reaper_thread (self s)) s))))
                              (emit EvUnlock (on_hnd (with_reaper_thread (self s)) s)))))
          = if reap_rc r <? 0 then reap_errno r else errno s) as He.
  { by destruct (reap_rc r <? 0). }
  rewrite He, Hs.
  destruct (dead (hnd s')); [done|].
  destruct (reap_rc r <? 0); done.
Qed.

(** A bulk read whose request the kernel accepted gets to the reap answers
    that follow those that leave it reaping. *)
Lemma usb_bulk_read_reaps data len s rc s1 rs rest h1 :
  dead (hnd s) = false ->
  submit_urb (submits s) (urb_bulk (ep_in (hnd s)) data len) (read_entered data len s)
    = (Ret rc, s1) ->
  rc <> -1 ->
  reaps s = rs ++ rest ->
  keeps_reaping (self s) rs (hnd (read_submitted s1)) = Some h1 ->
  exists s2,
    usb_bulk_read data len s = read_reap rest s2 /\
    hnd s2 = h1 /\ self s2 = self s /\ submits s2 = submits s1 /\ wakes s2 = wakes s /\
    List.filter is_submit (trace s2) = List.filter is_submit (trace s1).
Proof.
  intros Hd Hsub Hrc Hreaps Hkeep.
  pose proof (submit_urb_frame (submits s) (urb_bulk (ep_in (hnd s)) data len)
                (read_entered data len s)) as Hframe.
  rewrite Hsub in Hframe. cbn [fst snd] in Hframe.
  destruct Hframe as (Hh & Hr & Hw & Hself & _).
  change (self (read_entered data len s)) with (self s) in Hself.
  change (wakes (read_entered data len s)) with (wakes s) in Hw.
  change (reaps (read_entered data len s)) with (reaps s) in Hr.
  rewrite <- Hself in Hkeep.
  destruct (read_reap_skip rs rest (read_submitted s1) h1 Hkeep)
    as (s2 & Hcall & Hhnd & Hs & Hsubs & Hwk & Htr).
  exists s2. split_and!; try done.
  - unfold usb_bulk_read.
    replace (dead (hnd (read_entered data len s))) with false by done.
    change (urb_in (hnd (read_entered data len s)))
      with (urb_bulk (ep_in (hnd s)) data len).
    change (submits (read_entered data len s)) with (submits s).
    rewrite Hsub.
    replace (rc =? -1) with false by (symmetry; by apply Z.eqb_neq).
    change (reaps (on_hnd (with_urb_in_busy true) s1)) with (reaps s1).
    rewrite Hr, Hreaps. exact Hcall.
  - by rewrite Hs.
  - by rewrite Hwk.
Qed.

(** X8.  A bulk read on a live handle whose request the kernel accepted
    returns when the reap hands back the reader's own request and the handle
    is still alive: the request's byte count when its status is 0, and
    otherwise -1 with [errno] the negated status.  The in-slot is no longer
    busy and no reaper is recorded.  Interrupted reaps and completions of
    other requests before that are stepped over, and the request is not
    submitted again. *)
Theorem usb_bulk_read_completes data len s rc s1 rs r rest h1 :
  dead (hnd s) = false ->
  submit_urb (submits s) (urb_bulk (ep_in (hnd s)) data len) (read_entered data len s)
    = (Ret rc, s1) ->
  rc <> -1 ->
  reaps s = rs ++ r :: rest ->
  keeps_reaping (self s) rs (hnd (read_submitted s1)) = Some h1 ->
  dead (after_reap (self s) r h1) = false ->
  0 <= reap_rc r ->
  reap_out r = ReapedIn ->
  (usb_bulk_read data len s).1
  = Ret (if urb_status (urb_in (after_reap (self s) r h1)) =? 0
         then urb_actual_length (urb_in (after_reap (self s) r h1)) else -1) /\
  hnd (usb_bulk_read data len s).2 = with_urb_in_busy false (after_reap (self s) r h1) /\
  urb_in_busy (hnd (usb_bulk_read data len s).2) = false /\
  reaper_thread (hnd (usb_bulk_read data len s).2) = 0 /\
  (urb_status (urb_in (after_reap (self s) r h1)) <> 0 ->
   errno (usb_bulk_read data len s).2 = - urb_status (urb_in (after_reap (self s) r h1))) /\
  reaps (usb_bulk_read data len s).2 = rest /\
  List.filter is_submit (trace (usb_bulk_read data len s).2)
  = List.filter is_submit (trace s1).
Proof.
  intros Hd Hsub Hrc Hreaps Hkeep Hlive Hres Hout.
  destruct (usb_bulk_read_reaps data len s rc s1 rs (r :: rest) h1)
    as (s2 & -> & Hh & Hself & _ & _ & Htr); try done.
  rewrite read_reap_turn. cbv zeta. cbn [hnd]. rewrite Hh, Hself, Hlive.
  replace (reap_rc r <? 0) with false by (symmetry; apply Z.ltb_ge; lia).
  rewrite Hout. cbn [hnd on_hnd with_hnd urb_in with_urb_in_busy].
  destruct (urb_status (urb_in (after_reap (self s) r h1)) =? 0) eqn:Hst;
    cbn [negb leave fst snd hnd emit with_errno errno reaps trace with_hnd];
    split_and!; try done;
    try (intros Hne; by apply Z.eqb_eq in Hst);
    unfold on_hnd, emit, with_hnd; cbn [trace];
    rewrite <- Htr, !List.filter_app; cbn; by rewrite !app_nil_r.
Qed.

Lemma usb_bulk_read_completes_witness :
  (usb_bulk_read 0 64 (read_completes_late 0 40)).1 = Ret 40 /\
  (usb_bulk_read 0 64 (read_completes_late (- ENODEV) 0)).1 = Ret (-1) /\
  errno (usb_bulk_read 0 64 (read_completes_late (- ENODEV) 0)).2 = ENODEV /\
  List.filter is_submit (trace (usb_bulk_read 0 64 (read_completes_late 0 40)).2)
  = [EvSubmit (urb_bulk 129 0 64); EvSubmit (urb_bulk 129 0 64)].
Proof.
  pose proof (fun status actual =>
    usb_bulk_read_completes 0 64 (read_completes_late status actual) 0
      (submit_urb (submits (read_completes_late status actual)) (urb_bulk 129 0 64)
         (read_entered 0 64 (read_completes_late status actual))).2
      [ReapAnswer (-1) EINTR ReapedOther (fun h => h);
       ReapAnswer 0 0 ReapedOut (completes SlotOut 0 0)]
      (ReapAnswer 0 0 ReapedIn (completes SlotIn status actual)) []
      (completes SlotOut 0 0
         (with_urb_in_busy true (with_urb_in (urb_bulk 129 0 64) live_handle)))
      eq_refl eq_refl ltac:(lia) eq_refl) as H.
  destruct (H 0 40) as (H1 & _ & _ & _ & _ & _ & H2);
    [vm_compute; reflexivity|reflexivity|vm_compute; discriminate|reflexivity|].
  destruct (H (- ENODEV) 0) as (H3 & _ & _ & _ & H4 & _);
    [vm_compute; reflexivity|reflexivity|vm_compute; discriminate|reflexivity|].
  rewrite H1, H2, H3, H4 by (vm_compute; discriminate).
  split_and!; vm_compute; reflexivity.
Defined.

(** X9.  A bulk read that finds the handle dead when it comes back from a
    reap returns -1 with [errno] EINVAL, whatever the reap returned, also
    when it handed back the reader's own completed request.  The in-slot's
    busy flag is left as the environment left it and the request is not
    submitted again. *)
Theorem usb_bulk_read_finds_dead data len s rc s1 rs r rest h1 :
  dead (hnd s) = false ->
  submit_urb (submits s) (urb_bulk (ep_in (hnd s)) data len) (read_entered data len s)
    = (Ret rc, s1) ->
  rc <> -1 ->
  reaps s = rs ++ r :: rest ->
  keeps_reaping (self s) rs (hnd (read_submitted s1)) = Some h1 ->
  dead (after_reap (self s) r h1) = true ->
  (usb_bulk_read data len s).1 = Ret (-1) /\
  errno (usb_bulk_read data len s).2 = EINVAL /\
  hnd (usb_bulk_read data len s).2 = after_reap (self s) r h1 /\
  reaps (usb_bulk_read data len s).2 = rest /\
  List.filter is_submit (trace (usb_bulk_read data len s).2)
  = List.filter is_submit (trace s1).
Proof.
  intros Hd Hsub Hrc Hreaps Hkeep Hdead.
  destruct (usb_bulk_read_reaps data len s rc s1 rs (r :: rest) h1)
    as (s2 & -> & Hh & Hself & _ & _ & Htr); try done.
  rewrite read_reap_turn. cbv zeta. cbn [hnd]. rewrite Hh, Hself, Hdead.
  split_and!; try done.
  unfold leave, emit, with_errno; cbn [snd trace].
  rewrite <- Htr, !List.filter_app; cbn; by rewrite !app_nil_r.
Qed.

Lemma usb_bulk_read_finds_dead_witness :
  (usb_bulk_read 0 64 read_kicked).1 = Ret (-1) /\
  errno (usb_bulk_read 0 64 read_kicked).2 = EINVAL /\
  urb_actual_length (urb_in (hnd (usb_bulk_read 0 64 read_kicked).2)) = 64.
Proof.
  destruct (usb_bulk_read_finds_dead 0 64 read_kicked 0
              (submit_urb (submits read_kicked) (urb_bulk 129 0 64)
                 (read_entered 0 64 read_kicked)).2
              [] (ReapAnswer 0 0 ReapedIn (fun h => (usb_kick (completes SlotIn 0 64 h)).1)) []
              (with_urb_in_busy true (with_urb_in (urb_bulk 129 0 64) live_handle)))
    as (H1 & H2 & H3 & _);
    [reflexivity|vm_compute; reflexivity|lia|reflexivity|reflexivity|vm_compute; reflexivity|].
  rewrite H1, H2, H3. split_and!; vm_compute; reflexivity.
Defined.

(** X10.  A bulk read whose reap fails with an error other than EINTR, the
    handle being alive, returns -1 with [errno] the error of the reap.  The
    handle is as the environment left it, but for the reaper it no longer
    records; the request is not submitted again. *)
Theorem usb_bulk_read_reap_fails data len s rc s1 rs r rest h1 :
  dead (hnd s) = false ->
  submit_urb (submits s) (urb_bulk (ep_in (hnd s)) data len) (read_entered data len s)
    = (Ret rc, s1) ->
  rc <> -1 ->
  reaps s = rs ++ r :: rest ->
  keeps_reaping (self s) rs (hnd (read_submitted s1)) = Some h1 ->
  dead (after_reap (self s) r h1) = false ->
  reap_rc r < 0 ->
  reap_errno r <> EINTR ->
  (usb_bulk_read data len s).1 = Ret (-1) /\
  errno (usb_bulk_read data len s).2 = reap_errno r /\
  hnd (usb_bulk_read data len s).2 = after_reap (self s) r h1 /\
  reaps (usb_bulk_read data len s).2 = rest /\
  List.filter is_submit (trace (usb_bulk_read data len s).2)
  = List.filter is_submit (trace s1).
Proof.
  intros Hd Hsub Hrc Hreaps Hkeep Hlive Hres Herr.
  destruct (usb_bulk_read_reaps data len s rc s1 rs (r :: rest) h1)
    as (s2 & -> & Hh & Hself & _ & _ & Htr); try done.
  rewrite read_reap_turn. cbv zeta. cbn [hnd]. rewrite Hh, Hself, Hlive.
  replace (reap_rc r <? 0) with true by (symmetry; by apply Z.ltb_lt).
  replace (reap_errno r =? EINTR) with false by (symmetry; by apply Z.eqb_neq).
  split_and!; try done.
  unfold leave, emit, with_errno; cbn [snd trace].
  rewrite <- Htr, !List.filter_app; cbn; by rewrite !app_nil_r.
Qed.

Lemma usb_bulk_read_reap_fails_witness :
  (usb_bulk_read 0 64 read_reap_fails).1 = Ret (-1) /\
  errno (usb_bulk_read 0 64 read_reap_fails).2 = ENODEV /\
  urb_in_busy (hnd (usb_bulk_read 0 64 read_reap_fails).2) = true.
Proof.
  destruct (usb_bulk_read_reap_fails 0 64 read_reap_fails 0
              (submit_urb (submits read_reap_fails) (urb_bulk 129 0 64)
                 (read_entered 0 64 read_reap_fails)).2
              [ReapAnswer (-1) EINTR ReapedOther (fun h => h)]
              (ReapAnswer (-1) ENODEV ReapedOther (fun h => h)) []
              (with_urb_in_busy true (with_urb_in (urb_bulk 129 0 64) live_handle)))
    as (H1 & H2 & H3 & _);
    [reflexivity|vm_compute; reflexivity|lia|reflexivity|reflexivity|reflexivity
    |vm_compute; reflexivity|vm_compute; discriminate|].
  rewrite H1, H2, H3. split_and!; vm_compute; reflexivity.
Defined.

(** X11.  While a bulk read waits in the reap, the mutex is released and
    the handle records the reading thread as its reaper.  A kick of the
    handle in that state, if it is writable, signals that thread, discards
    both requests and wakes the waiters; the handle is dead afterwards, so
    the reader finds it dead when the reap returns. *)
Theorem usb_kick_signals_reader data len s rc s1 h1 :
  dead (hnd s) = false ->
  submit_urb (submits s) (urb_bulk (ep_in (hnd s)) data len) (read_entered data len s)
    = (Ret rc, s1) ->
  rc <> -1 ->
  keeps_reaping (self s) (reaps s) (hnd (read_submitted s1)) = Some h1 ->
  dead h1 = false ->
  writeable h1 <> 0 ->
  self s <> 0 ->
  (usb_bulk_read data len s).1 = Blocked /\
  hnd (usb_bulk_read data len s).2 = with_reaper_thread (self s) h1 /\
  (exists tr, trace (usb_bulk_read data len s).2 = tr ++ [EvUnlock; EvReap (fd h1)]) /\
  (usb_kick (hnd (usb_bulk_read data len s).2)).2
  = [EvLock; EvKill (self s); EvDiscard SlotIn; EvDiscard SlotOut; EvNotifyAll; EvUnlock] /\
  forall res err out,
    dead (after_reap (self s) (ReapAnswer res err out (fun h => (usb_kick h).1)) h1) = true.
Proof.
  intros Hd Hsub Hrc Hkeep Hlive Hwr Hself0.
  destruct (usb_bulk_read_reaps data len s rc s1 (reaps s) [] h1)
    as (s2 & -> & Hh & Hself & _ & _ & Htr); try done.
  { by rewrite app_nil_r. }
  cbn [read_reap fst snd]. unfold with_reaps, emit, on_hnd, with_hnd.
  cbn [hnd trace self fd with_reaper_thread]. rewrite Hh, Hself.
  split_and!; try done.
  - exists (trace s2). by rewrite <- app_assoc.
  - unfold usb_kick. cbn [dead with_reaper_thread]. rewrite Hlive.
    change (writeable (with_dead true (with_reaper_thread (self s) h1)))
      with (writeable h1).
    change (reaper_thread (with_dead true (with_reaper_thread (self s) h1)))
      with (self s).
    replace (writeable h1 =? 0) with false by (symmetry; by apply Z.eqb_neq).
    replace (self s =? 0) with false by (symmetry; by apply Z.eqb_neq).
    done.
  - intros res err out. unfold after_reap. cbn [reap_change dead with_reaper_thread].
    apply usb_kick_dead.
Qed.

Lemma usb_kick_signals_reader_witness :
  (usb_bulk_read 0 64 read_waits).1 = Blocked /\
  reaper_thread (hnd (usb_bulk_read 0 64 read_waits).2) = 7 /\
  (usb_kick (hnd (usb_bulk_read 0 64 read_waits).2)).2
  = [EvLock; EvKill 7; EvDiscard SlotIn; EvDiscard SlotOut; EvNotifyAll; EvUnlock].
Proof.
  destruct (usb_kick_signals_reader 0 64 read_waits 0
              (submit_urb (submits read_waits) (urb_bulk 129 0 64)
                 (read_entered 0 64 read_waits)).2
              (with_urb_in_busy true (with_urb_in (urb_bulk 129 0 64) live_handle)))
    as (H1 & H2 & _ & H3 & _);
    [reflexivity|vm_compute; reflexivity|lia|reflexivity|reflexivity|vm_compute; discriminate
    |vm_compute; discriminate|].
  rewrite H1, H3, H2. split_and!; vm_compute; reflexivity.
Defined.

(** ** What a bulk read returns *)

Lemma submit_urb_errno answers urb s rc s1 :
  submit_urb answers urb s = (Ret rc, s1) -> rc <> -1 ->
  errno s1 = errno s \/ errno s1 = EINTR.
Proof.
  revert s. induction answers as [|a answers IH]; intros s; simpl; [done|].
  destruct (submit_rc a =? -1) eqn:Hrc; cbn [andb].
  - cbn [errno with_errno].
    destruct (submit_errno a =? EINTR) eqn:Herr.
    + intros Hcall Hne. apply IH in Hcall as [Heq|Heq]; [|by right|done].
      right. rewrite Heq. cbn. by apply Z.eqb_eq.
    + intros [= <- <-] Hne. apply Z.eqb_eq in Hrc. done.
  - intros [= <- <-] _. by left.
Qed.

Lemma read_reap_count rs s n s1 :
  read_reap rs s = (Ret n, s1) -> n <> -1 ->
  n = urb_actual_length (urb_in (hnd s1)) /\
  urb_status (urb_in (hnd s1)) = 0 /\
  (errno s1 = errno s \/ errno s1 = EINTR).
Proof.
  revert s. induction rs as [|r rs IH]; intros s; [done|].
  rewrite read_reap_turn. cbv zeta. cbn [hnd].
  destruct (dead (after_reap (self s) r (hnd s))); [by intros [= <- <-]|].
  destruct (reap_rc r <? 0).
  - destruct (reap_errno r =? EINTR) eqn:Herr; [|by intros [= <- <-]].
    intros Hcall Hn. apply IH in Hcall as (H1 & H2 & H3); [|done].
    split_and!; [done|done|]. right. apply Z.eqb_eq in Herr.
    destruct H3 as [->| ->]; done.
  - destruct (reap_out r).
    + cbn [hnd on_hnd with_hnd urb_in with_urb_in_busy].
      destruct (urb_status (urb_in (after_reap (self s) r (hnd s))) =? 0) eqn:Hst;
        cbn [negb]; [|by intros [= <- <-]].
      intros [= <- <-] _. apply Z.eqb_eq in Hst. split_and!; [done|done|by left].
    + intros Hcall Hn. by apply IH in Hcall.
    + intros Hcall Hn. by apply IH in Hcall.
Qed.

(** X28.  [usb_bulk_read] returns a value other than -1 only for a request
    that completed with status 0, and the value is the request's
    [actual_length]; [errno] is then as it was before the call, or EINTR
    when an attempt was interrupted.  So the count of a request that
    completed with an error status is not returned; and after a count other
    than the length asked for, [usb_read] returns -1 unless [errno] was
    ETIMEDOUT before the bulk read. *)
Theorem usb_bulk_read_count data len s n s1 :
  usb_bulk_read data len s = (Ret n, s1) ->
  n <> -1 ->
  n = urb_actual_length (urb_in (hnd s1)) /\
  urb_status (urb_in (hnd s1)) = 0 /\
  (errno s1 = errno s \/ errno s1 = EINTR) /\
  (0 < len -> n <> len -> errno s <> ETIMEDOUT ->
   usb_read data len s = (Ret (-1), s1)).
Proof.
  intros Hcall Hn.
  assert (n = urb_actual_length (urb_in (hnd s1)) /\
          urb_status (urb_in (hnd s1)) = 0 /\
          (errno s1 = errno s \/ errno s1 = EINTR)) as (H1 & H2 & H3).
  { revert Hcall. unfold usb_bulk_read.
    destruct (dead (hnd (read_entered data len s))); [by intros [= <- <-]|].
    destruct (submit_urb _ _ _) as [[rc|] s2] eqn:Hsub; [|done].
    destruct (rc =? -1) eqn:Hrc; [by intros [= <- <-]|].
    apply Z.eqb_neq in Hrc. apply submit_urb_errno in Hsub; [|done].
    intros Hreap. apply read_reap_count in Hreap as (H1 & H2 & H3); [|done].
    split_and!; [done|done|].
    change (errno (on_hnd (with_urb_in_busy true) s2)) with (errno s2) in H3.
    change (errno (read_entered data len s)) with (errno s) in Hsub.
    destruct H3 as [->| ->]; [done|by right]. }
  split_and!; [done|done|done|].
  intros Hlen Hshort Herr.
  rewrite (usb_read_first data len s n s1 Hlen Hcall).
  replace (n =? len) with false by (symmetry; by apply Z.eqb_neq).
  replace (errno s1 =? ETIMEDOUT) with false; [done|].
  symmetry. apply Z.eqb_neq. destruct H3 as [->| ->]; done.
Qed.

Lemma usb_bulk_read_count_witness :
  40 = urb_actual_length (urb_in (hnd (usb_bulk_read 0 64 (read_completes_late 0 40)).2)) /\
  urb_status (urb_in (hnd (usb_bulk_read 0 64 (read_completes_late 0 40)).2)) = 0 /\
  (errno (usb_bulk_read 0 64 (read_completes_late 0 40)).2
   = errno (read_completes_late 0 40) \/
   errno (usb_bulk_read 0 64 (read_completes_late 0 40)).2 = EINTR) /\
  (0 < 64 -> 40 <> 64 -> errno (read_completes_late 0 40) <> ETIMEDOUT ->
   usb_read 0 64 (read_completes_late 0 40)
   = (Ret (-1), (usb_bulk_read 0 64 (read_completes_late 0 40)).2)).
Proof.
  apply usb_bulk_read_count; [vm_compute; reflexivity|lia].
Defined.

(** ** The stream calls *)

Lemma bulk_reads_app tr1 tr2 :
  bulk_reads (tr1 ++ tr2) = bulk_reads tr1 ++ bulk_reads tr2.
Proof. apply omap_app. Qed.

Lemma bulk_reads_repeat e n :
  (forall data len, e <> EvBulkRead data len) -> bulk_reads (repeat e n) = [].
Proof.
  intros He. induction n as [|n IH]; [done|].
  simpl. unfold bulk_reads in *. simpl. rewrite IH.
  destruct e; try done. by destruct (He data len).
Qed.

Lemma read_reap_bulk_reads rs s :
  bulk_reads (trace (read_reap rs s).2) = bulk_reads (trace s).
Proof.
  revert s. induction rs as [|r rs IH]; intros s.
  { simpl. autorewrite with trace. rewrite !bulk_reads_app. cbn. by rewrite !app_nil_r. }
  rewrite read_reap_turn. cbv zeta.
  repeat case_match; unfold leave; cbn [snd]; rewrite ?IH;
    autorewrite with trace; cbn [trace]; rewrite ?bulk_reads_app; cbn; by rewrite ?app_nil_r.
Qed.

(** A bulk read enters the trace once as a bulk read. *)
Lemma usb_bulk_read_bulk_reads data len s :
  bulk_reads (trace (usb_bulk_read data len s).2) = bulk_reads (trace s) ++ [(data, len)].
Proof.
  assert (bulk_reads (trace (read_entered data len s))
          = bulk_reads (trace s) ++ [(data, len)]) as Hentered.
  { unfold read_entered. autorewrite with trace. rewrite !bulk_reads_app. cbn.
    by rewrite app_nil_r. }
  unfold usb_bulk_read.
  destruct (dead (hnd (read_entered data len s))).
  { unfold leave. cbn [snd]. autorewrite with trace. rewrite bulk_reads_app, Hentered.
    apply app_nil_r. }
  pose proof (submit_urb_frame (submits (read_entered data len s))
                (urb_in (hnd (read_entered data len s))) (read_entered data len s)) as Hf.
  destruct (submit_urb _ _ _) as [[rc|] s2]; cbn [fst snd] in Hf;
    destruct Hf as (_ & _ & _ & _ & _ & _ & n & Htr).
  - assert (bulk_reads (trace s2) = bulk_reads (trace s) ++ [(data, len)]) as H2.
    { rewrite Htr, bulk_reads_app, bulk_reads_repeat by done.
      rewrite Hentered. apply app_nil_r. }
    destruct (rc =? -1).
    + unfold leave. cbn [snd]. autorewrite with trace. rewrite bulk_reads_app, H2.
      apply app_nil_r.
    + rewrite read_reap_bulk_reads. autorewrite with trace. exact H2.
  - cbn [snd]. rewrite Htr, bulk_reads_app, bulk_reads_repeat by done.
    rewrite Hentered. apply app_nil_r.
Qed.

(** The requests of the loop of [usb_read]: each lies in what is left of the
    caller's buffer and ends where the buffer ends. *)
Lemma usb_read_loop_requests fuel data len s :
  exists reqs,
    bulk_reads (trace (usb_read_loop fuel data len s).2) = bulk_reads (trace s) ++ reqs /\
    Forall (fun req => data <= req.1 /\ 0 < req.2 /\ req.1 + req.2 = data + len) reqs.
Proof.
  revert data len s. induction fuel as [|fuel IH]; intros data len s; simpl.
  { exists []. destruct (0 <? len); simpl; by rewrite app_nil_r. }
  destruct (0 <? len) eqn:Hlen; [|exists []; simpl; by rewrite app_nil_r].
  apply Z.ltb_lt in Hlen.
  pose proof (usb_bulk_read_bulk_reads data len s) as Hfirst.
  destruct (usb_bulk_read data len s) as [[n|] s1]; cbn [snd] in *.
  2: { exists [(data, len)]. split; [done|]. apply Forall_singleton. simpl. lia. }
  assert (forall d l, data <= d -> d + l = data + len ->
            exists reqs,
              bulk_reads (trace (usb_read_loop fuel d l s1).2) = bulk_reads (trace s) ++ reqs /\
              Forall (fun req => data <= req.1 /\ 0 < req.2 /\ req.1 + req.2 = data + len)
                     reqs) as Hnext.
  { intros d l Hd Hsum. destruct (IH d l s1) as (reqs & Htr & Hall).
    exists ((data, len) :: reqs). split.
    - by rewrite Htr, Hfirst, <- app_assoc.
    - apply Forall_cons. split; [simpl; lia|].
      eapply Forall_impl; [exact Hall|]. intros [d' l']. simpl. lia. }
  destruct (negb (n =? len)).
  - destruct ((errno s1 =? ETIMEDOUT) && negb (fd (hnd s1) =? -1)).
    + destruct (0 <? n) eqn:Hn.
      * apply Z.ltb_lt in Hn. apply Hnext; lia.
      * apply Hnext; lia.
    + exists [(data, len)]. split; [done|]. apply Forall_singleton. simpl. lia.
  - apply Hnext; lia.
Qed.

(** X12.  Every bulk read that [usb_read] issues asks for a positive number
    of bytes at an address not before the caller's [data], and ends exactly
    where the caller's buffer ends, whatever the bulk reads return: no
    request reaches beyond the [len] bytes at [data]. *)
Theorem usb_read_stays_in_buffer data len s :
  exists reqs,
    bulk_reads (trace (usb_read data len s).2) = bulk_reads (trace s) ++ reqs /\
    Forall (fun req => data <= req.1 /\ 0 < req.2 /\ req.1 + req.2 = data + len) reqs.
Proof. apply usb_read_loop_requests. Qed.

(** X13.  [usb_write] returns 0 only when the bulk write of the payload
    returned exactly [len] and, where the handle's mask asks for a
    zero-length packet behind it, the bulk write of that packet returned 0.
    After a bulk write of the payload that returned another value, it
    returns -1 at once: the state is the one that bulk write left and no
    further bulk write is issued.  While that bulk write is waiting, so is
    [usb_write]. *)
Theorem usb_write_reports_success data len s :
  ((usb_write data len s).1 = Ret 0 ->
   exists s1,
     usb_bulk_write data len s = (Ret len, s1) /\
     if negb (zero_mask (hnd s1) =? 0) && (Z.land (to_unsigned len) (zero_mask (hnd s1)) =? 0)
     then usb_bulk_write data 0 s1 = (Ret 0, (usb_write data len s).2)
     else (usb_write data len s).2 = s1) /\
  (forall n s1,
     usb_bulk_write data len s = (Ret n, s1) -> n <> len ->
     usb_write data len s = (Ret (-1), s1) /\
     bulk_writes (trace (usb_write data len s).2) = bulk_writes (trace s) ++ [len]) /\
  (forall s1,
     usb_bulk_write data len s = (Blocked, s1) ->
     usb_write data len s = (Blocked, s1)).
Proof.
  split_and!.
  - unfold usb_write.
    destruct (usb_bulk_write data len s) as [[n|] s1]; [|done].
    destruct (n =? len) eqn:Hn; cbn [negb]; [|done].
    apply Z.eqb_eq in Hn. subst n. intros Hok. exists s1. split; [done|].
    destruct (negb (zero_mask (hnd s1) =? 0)
              && (Z.land (to_unsigned len) (zero_mask (hnd s1)) =? 0)); [|done].
    destruct (usb_bulk_write data 0 s1) as [r2 s2]. cbn [fst snd] in *. by subst r2.
  - intros n s1 Hcall Hn.
    pose proof (usb_bulk_write_bulk_writes data len s) as Hfirst.
    unfold usb_write. rewrite Hcall in *. cbn [snd] in Hfirst.
    replace (n =? len) with false by (symmetry; by apply Z.eqb_neq).
    done.
  - intros s1 Hcall. unfold usb_write. by rewrite Hcall.
Qed.

Lemma usb_write_reports_success_witness :
  exists s1,
    usb_bulk_write 0 128 (write_completes 128) = (Ret 128, s1) /\
    if negb (zero_mask (hnd s1) =? 0) && (Z.land (to_unsigned 128) (zero_mask (hnd s1)) =? 0)
    then usb_bulk_write 0 0 s1 = (Ret 0, (usb_write 0 128 (write_completes 128)).2)
    else (usb_write 0 128 (write_completes 128)).2 = s1.
Proof.
  apply (proj1 (usb_write_reports_success 0 128 (write_completes 128))).
  vm_compute. reflexivity.
Defined.

(** A payload write that comes back short: the request completes with 64
    of 128 bytes, [usb_write] returns -1 and no write of length 0 follows,
    though 128 is a multiple of the packet size. *)
Lemma usb_write_short_payload :
  (usb_bulk_write 0 128 (write_completes 64)).1 = Ret 64 /\
  (usb_write 0 128 (write_completes 64)).1 = Ret (-1) /\
  bulk_writes (trace (usb_write 0 128 (write_completes 64)).2) = [128].
Proof. split_and!; vm_compute; reflexivity. Qed.

(** ** The handle list *)

Lemma find_path_is (σ : gmap positive usb_handle) dev_name (l : list positive) :
  match List.find (path_is σ dev_name) l with
  | Some p => p ∈ l /\ exists usb, σ !! p = Some usb /\ path usb = dev_name
  | None => dev_name ∉ map path (omap (fun p => σ !! p) l)
  end.
Proof.
  destruct (List.find _ _) as [p|] eqn:Hfind.
  - apply List.find_some in Hfind as [Hin Hp]. split; [by apply list_elem_of_In|].
    unfold path_is in Hp. destruct (σ !! p) as [usb|]; [|done].
    exists usb. split; [done|]. by apply bool_decide_eq_true in Hp.
  - intros Hin. apply existsb_path_is in Hin.
    apply List.existsb_exists in Hin as (p & Hp & Hpath).
    by rewrite (List.find_none _ _ Hfind p Hp) in Hpath.
Qed.

(** Marking a handle changes no path. *)
Lemma listed_alter_mark b p (σ : gmap positive usb_handle) (l : list positive) :
  map path (omap (fun q => alter (with_mark b) p σ !! q) l)
  = map path (omap (fun q => σ !! q) l).
Proof.
  induction l as [|q l IH]; [done|]. csimpl.
  rewrite lookup_alter. case_decide as Hq.
  - subst q. destruct (σ !! p) as [usb|]; simpl; by rewrite IH.
  - destruct (σ !! q) as [usb|]; simpl; by rewrite IH.
Qed.

(** Marking the handle at [p] is storing the marked handle there. *)
Lemma alter_with_mark p usb (σ : gmap positive usb_handle) :
  σ !! p = Some usb -> alter (with_mark true) p σ = <[p := with_mark true usb]> σ.
Proof.
  intros Hp. apply map_eq. intros q. rewrite lookup_alter, lookup_insert.
  case_decide; [subst; by rewrite Hp|done].
Qed.

(** What [List.find] finds is the first address of the list with the
    path. *)
Lemma find_path_is_first (σ : gmap positive usb_handle) dev_name (l : list positive) p :
  List.find (path_is σ dev_name) l = Some p ->
  exists l1 l2,
    l = l1 ++ p :: l2 /\
    (dev_name ∉ map path (omap (fun q => σ !! q) l1)) /\
    exists usb, σ !! p = Some usb /\ path usb = dev_name.
Proof.
  induction l as [|q l IH]; [done|]. simpl.
  destruct (path_is σ dev_name q) eqn:Hq.
  - intros [= ->]. exists [], l. split_and!; [done|by intros H%elem_of_nil|].
    unfold path_is in Hq. destruct (σ !! p) as [usb|]; [|done].
    exists usb. split; [done|]. by apply bool_decide_eq_true in Hq.
  - intros Hfind. destruct (IH Hfind) as (l1 & l2 & -> & Hnone & Hp).
    exists (q :: l1), l2. split_and!; [done| |done].
    csimpl. unfold path_is in Hq. destruct (σ !! q) as [u|]; [|done]. simpl.
    apply not_elem_of_cons. split; [|done].
    apply bool_decide_eq_false in Hq. congruence.
Qed.

(** X14.  [is_known_device] returns 0 and changes nothing when no listed
    handle has the path.  When one has, it returns 1 and sets the mark of
    the first listed handle with that path: the heap afterwards is the heap
    before with that handle replaced by itself with [mark] true, so its
    mark is set whatever it was, and no other handle, no other field and
    not the list is changed. *)
Theorem is_known_device_marks dev_name r :
  ((dev_name ∉ map path (listed r)) -> is_known_device dev_name r = (0, r)) /\
  ((dev_name ∈ map path (listed r)) ->
   exists l1 p l2 usb,
     g_usb_handles r = l1 ++ p :: l2 /\
     (dev_name ∉ map path (omap (fun q => heap r !! q) l1)) /\
     heap r !! p = Some usb /\ path usb = dev_name /\
     is_known_device dev_name r
     = (1, Registry (<[p := with_mark true usb]> (heap r)) (g_usb_handles r)) /\
     (mark <$> heap (is_known_device dev_name r).2 !! p) = Some true /\
     (forall q, q <> p -> heap (is_known_device dev_name r).2 !! q = heap r !! q)) /\
  (((is_known_device dev_name r).1 = 1 /\ (dev_name ∈ map path (listed r))) \/
   ((is_known_device dev_name r).1 = 0 /\ (dev_name ∉ map path (listed r)) /\
    (is_known_device dev_name r).2 = r)) /\
  g_usb_handles (is_known_device dev_name r).2 = g_usb_handles r /\
  map path (listed (is_known_device dev_name r).2) = map path (listed r) /\
  (forall p, heap r !! p = None -> heap (is_known_device dev_name r).2 !! p = None) /\
  (forall p usb, heap r !! p = Some usb ->
     heap (is_known_device dev_name r).2 !! p = Some usb \/
     (p ∈ g_usb_handles r /\ path usb = dev_name /\
      heap (is_known_device dev_name r).2 !! p = Some (with_mark true usb))).
Proof.
  pose proof (find_path_is (heap r) dev_name (g_usb_handles r)) as Hfind.
  pose proof (find_path_is_first (heap r) dev_name (g_usb_handles r)) as Hfirst.
  unfold is_known_device.
  destruct (List.find _ _) as [q|]; cbn [fst snd heap g_usb_handles].
  - destruct Hfind as (Hin & usb & Hq & Hpath).
    assert (dev_name ∈ map path (listed r)) as Hlisted.
    { apply existsb_path_is.
      apply List.existsb_exists. exists q. split; [by apply list_elem_of_In|].
      unfold path_is. rewrite Hq. by apply bool_decide_eq_true. }
    split_and!.
    + done.
    + intros _. destruct (Hfirst q eq_refl) as (l1 & l2 & Hl & Hnone & _).
      exists l1, q, l2, usb. split_and!; try done.
      * by rewrite (alter_with_mark q usb).
      * rewrite lookup_alter. case_decide; [|done]. by rewrite Hq.
      * intros x Hx. by rewrite lookup_alter_ne.
    + by left.
    + done.
    + apply listed_alter_mark.
    + intros p Hp. rewrite lookup_alter. case_decide; [subst; by rewrite Hp|done].
    + intros p usb' Hp. rewrite lookup_alter. case_decide as Hpq; [|by left].
      subst p. rewrite Hp. right. rewrite Hq in Hp. injection Hp as <-. done.
  - split_and!; try done; [by right|by left].
Qed.

(** On [two_handles] the handle with the path, which is not marked, is
    marked afterwards, and the other handle is as before. *)
Lemma is_known_device_marks_unseen :
  (mark <$> heap two_handles !! 1%positive) = Some false /\
  (is_known_device "/dev/bus/usb/001/002" two_handles).1 = 1 /\
  heap (is_known_device "/dev/bus/usb/001/002" two_handles).2 !! 1%positive
  = Some (with_mark true unseen_handle) /\
  heap (is_known_device "/dev/bus/usb/001/002" two_handles).2 !! 2%positive
  = Some seen_handle.
Proof. split_and!; vm_compute; reflexivity. Qed.

Lemma elem_of_filter_others (p q : positive) (l : list positive) :
  q ∈ List.filter (fun x => negb (Pos.eqb x p)) l <-> q <> p /\ q ∈ l.
Proof.
  rewrite !list_elem_of_In, List.filter_In, negb_true_iff, Pos.eqb_neq. tauto.
Qed.

Lemma filter_others_absent (p : positive) (l : list positive) :
  p ∉ l -> List.filter (fun x => negb (Pos.eqb x p)) l = l.
Proof.
  induction l as [|q l IH]; intros Hout; [done|].
  apply not_elem_of_cons in Hout as [Hne Hout]. simpl.
  replace (Pos.eqb q p) with false by (symmetry; apply Pos.eqb_neq; congruence).
  simpl. f_equal. by apply IH.
Qed.

Lemma NoDup_filter_others (p : positive) (l : list positive) :
  NoDup l -> NoDup (List.filter (fun x => negb (Pos.eqb x p)) l).
Proof.
  induction l as [|q l IH]; intros Hnd; [done|].
  apply NoDup_cons in Hnd as [Hq Hnd]. simpl.
  destruct (negb (Pos.eqb q p)); [|by apply IH].
  apply NoDup_cons. split; [|by apply IH].
  rewrite elem_of_filter_others. tauto.
Qed.

(** The handles listed after [usb_close] are those listed before, in the
    same order, without the one at [p]. *)
Lemma listed_usb_close p (r : registry) :
  listed (usb_close p r).1
  = omap (fun q => heap r !! q) (List.filter (fun x => negb (Pos.eqb x p)) (g_usb_handles r)).
Proof.
  unfold listed, usb_close. cbn [fst heap g_usb_handles].
  apply omap_agree. intros q [Hq _]%elem_of_filter_others.
  by rewrite lookup_delete_ne.
Qed.

Lemma paths_filter_others p (σ : gmap positive usb_handle) (l : list positive) name :
  name ∈ map path (omap (fun q => σ !! q) (List.filter (fun x => negb (Pos.eqb x p)) l)) ->
  name ∈ map path (omap (fun q => σ !! q) l).
Proof.
  induction l as [|q l IH]; [done|]. simpl.
  destruct (negb (Pos.eqb q p)); csimpl.
  - destruct (σ !! q) as [usb|]; simpl; [|done].
    rewrite !elem_of_cons. intros [->|Hin]; [by left|right; by apply IH].
  - intros Hin. destruct (σ !! q) as [usb|]; simpl; [right|]; by apply IH.
Qed.

Lemma NoDup_paths_filter_others p (σ : gmap positive usb_handle) (l : list positive) :
  NoDup (map path (omap (fun q => σ !! q) l)) ->
  NoDup (map path (omap (fun q => σ !! q)
                     (List.filter (fun x => negb (Pos.eqb x p)) l))).
Proof.
  induction l as [|q l IH]; [done|]. simpl.
  destruct (negb (Pos.eqb q p)); csimpl.
  - destruct (σ !! q) as [usb|]; simpl; [|done].
    rewrite !NoDup_cons. intros [Hq Hnd]. split; [|by apply IH].
    intros Hin. by apply Hq, paths_filter_others with (p := p).
  - destruct (σ !! q) as [usb|]; simpl; [|done].
    rewrite NoDup_cons. intros [_ Hnd]. by apply IH.
Qed.

(** X15.  [usb_close] of an allocated handle takes it off the list and
    frees it, closing its descriptor unless that is -1.  The other handles
    stay allocated, unchanged and listed in the same order, and the
    registry stays well formed with at most one handle per path. *)
Theorem usb_close_removes p usb r :
  registry_wf r -> one_handle_per_path r -> heap r !! p = Some usb ->
  registry_wf (usb_close p r).1 /\
  one_handle_per_path (usb_close p r).1 /\
  (p ∉ g_usb_handles (usb_close p r).1) /\
  heap (usb_close p r).1 !! p = None /\
  (forall q, q <> p ->
     heap (usb_close p r).1 !! q = heap r !! q /\
     (q ∈ g_usb_handles (usb_close p r).1 <-> q ∈ g_usb_handles r)) /\
  (p ∉ g_usb_handles r -> g_usb_handles (usb_close p r).1 = g_usb_handles r) /\
  (usb_close p r).2 = (if fd usb =? -1 then [] else [EvClose (fd usb)]).
Proof.
  intros [Hnd Halloc] Hone Hp. split_and!.
  - split; cbn [usb_close fst heap g_usb_handles].
    + by apply NoDup_filter_others.
    + intros q [Hq Hin]%elem_of_filter_others.
      rewrite lookup_delete_ne by done. by apply Halloc.
  - unfold one_handle_per_path. rewrite listed_usb_close.
    by apply NoDup_paths_filter_others.
  - cbn [usb_close fst g_usb_handles]. rewrite elem_of_filter_others. tauto.
  - apply lookup_delete_eq.
  - intros q Hq. cbn [usb_close fst heap g_usb_handles]. split.
    + by apply lookup_delete_ne.
    + rewrite elem_of_filter_others. tauto.
  - intros Hout. cbn [usb_close fst g_usb_handles]. by apply filter_others_absent.
  - unfold usb_close. cbn [snd]. rewrite Hp. by destruct (fd usb =? -1).
Qed.

Lemma usb_close_removes_witness :
  one_handle_per_path (usb_close 1%positive two_handles).1 /\
  heap (usb_close 1%positive two_handles).1 !! 1%positive = None /\
  (usb_close 1%positive two_handles).2 = [EvClose 3].
Proof.
  assert (registry_wf two_handles) as Hwf.
  { split.
    - apply (bool_decide_unpack _). vm_compute. exact I.
    - apply Forall_forall. apply (bool_decide_unpack _). vm_compute. exact I. }
  assert (one_handle_per_path two_handles) as Hone.
  { apply (bool_decide_unpack _). vm_compute. exact I. }
  destruct (usb_close_removes 1%positive unseen_handle two_handles Hwf Hone eq_refl)
    as (_ & Hone' & _ & Hheap & _ & _ & Hev).
  split_and!; [exact Hone'|exact Hheap|exact Hev].
Defined.

Lemma is_known_device_result dev_name r :
  (is_known_device dev_name r).1
  = if bool_decide (dev_name ∈ map path (listed r)) then 1 else 0.
Proof.
  pose proof (find_path_is (heap r) dev_name (g_usb_handles r)) as Hfind.
  unfold is_known_device. destruct (List.find _ _) as [q|]; cbn [fst].
  - destruct Hfind as (Hin & usb & Hq & Hpath).
    rewrite bool_decide_eq_true_2; [done|].
    apply existsb_path_is, List.existsb_exists. exists q.
    split; [by apply list_elem_of_In|].
    unfold path_is. rewrite Hq. by apply bool_decide_eq_true.
  - by rewrite bool_decide_eq_false_2.
Qed.

Lemma listed_member (σ : gmap positive usb_handle) (l : list positive) p usb :
  p ∈ l -> σ !! p = Some usb -> usb ∈ omap (fun q => σ !! q) l.
Proof.
  intros Hin Hp. apply list_elem_of_omap. by exists p.
Qed.

(** With one handle per path, the path of the handle at [p] is on no other
    listed handle. *)
Lemma path_gone_without p usb (σ : gmap positive usb_handle) (l : list positive) :
  NoDup (map path (omap (fun q => σ !! q) l)) ->
  p ∈ l -> σ !! p = Some usb ->
  path usb ∉ map path (omap (fun q => σ !! q)
                         (List.filter (fun x => negb (Pos.eqb x p)) l)).
Proof.
  induction l as [|q l IH]; intros Hnd Hin Hp; [by apply elem_of_nil in Hin|].
  simpl. destruct (Pos.eqb_spec q p) as [->|Hne]; simpl.
  - csimpl in Hnd. rewrite Hp in Hnd. simpl in Hnd.
    apply NoDup_cons in Hnd as [Hout _].
    intros Hin'. by apply Hout, paths_filter_others with (p := p).
  - apply elem_of_cons in Hin as [->|Hin]; [done|].
    csimpl. csimpl in Hnd. destruct (σ !! q) as [u|]; simpl in *; [|by apply IH].
    apply NoDup_cons in Hnd as [Hout Hnd].
    apply not_elem_of_cons. split; [|by apply IH].
    intros Heq. apply Hout. rewrite <- Heq.
    apply list_elem_of_fmap. exists usb. split; [done|by eapply listed_member].
Qed.

(** X16.  A listed handle is known by its path; once [usb_close] has
    removed it, its path is no longer known, so that the next scan opens
    the node again and [register_device] for that path no longer returns at
    once but starts by opening the node. *)
Theorem usb_close_forgets Trim p usb r dev_path ep_in ep_out interface serial_index
    zero_mask os :
  registry_wf r -> one_handle_per_path r ->
  p ∈ g_usb_handles r -> heap r !! p = Some usb ->
  (is_known_device (path usb) r).1 = 1 /\
  (is_known_device (path usb) (usb_close p r).1).1 = 0 /\
  (is_known_device (path usb) (usb_close p r).1).2 = (usb_close p r).1 /\
  exists tr,
    events_of (register_device Trim (path usb) dev_path ep_in ep_out interface serial_index
                 zero_mask os (usb_close p r).1)
    = EvOpen (path usb) true :: tr.
Proof.
  intros Hwf Hone Hin Hp.
  assert (path usb ∉ map path (listed (usb_close p r).1)) as Hgone.
  { rewrite listed_usb_close. by apply path_gone_without. }
  split_and!.
  - rewrite is_known_device_result, bool_decide_eq_true_2; [done|].
    apply list_elem_of_fmap. exists usb. split; [done|by eapply listed_member].
  - by rewrite is_known_device_result, bool_decide_eq_false_2.
  - pose proof (find_path_is (heap (usb_close p r).1) (path usb)
                  (g_usb_handles (usb_close p r).1)) as Hfind.
    unfold is_known_device. destruct (List.find _ _) as [q|]; [|done].
    destruct Hfind as (Hq & u & Hu & Hpath). destruct Hgone.
    rewrite <- Hpath. apply list_elem_of_fmap. exists u. split; [done|by eapply listed_member].
  - unfold register_device.
    destruct (existsb _ _) eqn:Hknown.
    { apply existsb_path_is in Hknown. by destruct Hgone. }
    cbn [fd with_fd]. unfold register_finish.
    repeat case_match; cbn [events_of app]; eauto.
Qed.

Lemma usb_close_forgets_witness :
  (is_known_device "/dev/bus/usb/001/002" two_handles).1 = 1 /\
  (is_known_device "/dev/bus/usb/001/002" (usb_close 1%positive two_handles).1).1 = 0.
Proof.
  assert (registry_wf two_handles) as Hwf.
  { split.
    - apply (bool_decide_unpack _). vm_compute. exact I.
    - apply Forall_forall. apply (bool_decide_unpack _). vm_compute. exact I. }
  assert (one_handle_per_path two_handles) as Hone.
  { apply (bool_decide_unpack _). vm_compute. exact I. }
  assert (1%positive ∈ g_usb_handles two_handles) as Hin.
  { apply (bool_decide_unpack _). vm_compute. exact I. }
  destruct (usb_close_forgets (fun s => s) 1%positive unseen_handle two_handles
              (Some "usb:1-1") 129 1 0 3 63 node_opens Hwf Hone Hin eq_refl)
    as (H1 & H2 & _).
  split; [exact H1|exact H2].
Defined.

(** ** Registration, case by case *)

(** How a call of [register_device] for a path that is not listed goes. *)
Lemma register_device_new Trim c r :
  rc_dev_name c ∉ map path (listed r) ->
  (open_rdwr (rc_os c) = -1 /\ open_rdonly (rc_os c) = -1 /\
   register_call_on Trim c r
   = Returned r [EvOpen (rc_dev_name c) true; EvOpen (rc_dev_name c) false]) \/
  (open_rdwr (rc_os c) <> -1 /\ claim_rc (rc_os c) <> 0 /\
   register_call_on Trim c r
   = Returned r [EvOpen (rc_dev_name c) true;
                 EvClaim (open_rdwr (rc_os c)) (rc_interface c);
                 EvClose (open_rdwr (rc_os c))]) \/
  (opened (rc_os c) <> -1 /\
   (open_rdwr (rc_os c) <> -1 -> claim_rc (rc_os c) = 0) /\
   register_call_on Trim c r
   = register_finish Trim (new_handle c) (rc_dev_path c) (rc_os c) r
       (EvOpen (rc_dev_name c) true
        :: (if open_rdwr (rc_os c) =? -1
            then [EvOpen (rc_dev_name c) false]
            else [EvClaim (open_rdwr (rc_os c)) (rc_interface c)]))).
Proof.
  intros Hnew. unfold register_call_on, register_device, new_handle, opened.
  destruct (existsb _ _) eqn:Hknown.
  { apply existsb_path_is in Hknown. done. }
  cbn [fd with_fd with_writeable path ep_in ep_out zero_mask writeable urb_in urb_out
       urb_in_busy urb_out_busy dead mark reaper_thread app].
  destruct (open_rdwr (rc_os c) =? -1) eqn:Hrw.
  - apply Z.eqb_eq in Hrw. destruct (open_rdonly (rc_os c) =? -1) eqn:Hro.
    + apply Z.eqb_eq in Hro. by left.
    + apply Z.eqb_neq in Hro. right. right. split_and!; [done|done|done].
  - apply Z.eqb_neq in Hrw. destruct (claim_rc (rc_os c) =? 0) eqn:Hclaim; cbn [negb].
    + apply Z.eqb_eq in Hclaim. right. right. split_and!; [done|done|done].
    + apply Z.eqb_neq in Hclaim. right. left. by split_and!.
Qed.

Lemma fresh_not_listed r :
  registry_wf r -> fresh (dom (heap r)) ∉ g_usb_handles r.
Proof.
  intros [_ Halloc] Hin. apply Halloc, elem_of_dom in Hin. by apply is_fresh in Hin.
Qed.

(** X17.  [register_usb_transport] is only called for a handle that
    [register_device] has just put at the end of the list: the handle is
    allocated at an address that was not listed, carries the path of the
    call, an open descriptor, the mark and the writability that is passed
    on, and is not dead; the device path passed on is the one of the call.
    The path is known to [is_known_device] afterwards. *)
Theorem register_device_transport_listed Trim c r p serial dp w :
  registry_wf r ->
  EvRegisterTransport p serial dp w ∈ events_of (register_call_on Trim c r) ->
  (p ∉ g_usb_handles r) /\
  g_usb_handles (registry_of (register_call_on Trim c r)) = g_usb_handles r ++ [p] /\
  heap (registry_of (register_call_on Trim c r)) !! p = Some (new_handle c) /\
  path (new_handle c) = rc_dev_name c /\
  fd (new_handle c) <> -1 /\
  writeable (new_handle c) = w /\
  mark (new_handle c) = true /\
  dead (new_handle c) = false /\
  dp = rc_dev_path c /\
  (is_known_device (rc_dev_name c) (registry_of (register_call_on Trim c r))).1 = 1.
Proof.
  intros Hwf Hev.
  destruct (decide (rc_dev_name c ∈ map path (listed r))) as [Hknown|Hnew].
  { unfold register_call_on in Hev. rewrite register_device_known in Hev by done.
    by apply elem_of_nil in Hev. }
  destruct (register_device_new Trim c r Hnew)
    as [(_ & _ & Hcall)|[(_ & _ & Hcall)|(Hfd & _ & Hcall)]]; rewrite Hcall in *.
  - cbn in Hev. rewrite !elem_of_cons in Hev.
    destruct Hev as [?|[?|Hev]]; [done|done|by apply elem_of_nil in Hev].
  - cbn in Hev. rewrite !elem_of_cons in Hev.
    destruct Hev as [?|[?|[?|Hev]]]; [done|done|done|by apply elem_of_nil in Hev].
  - unfold register_finish in *. destruct (skip4 (rc_dev_path c)) as [rest|].
    + cbn [events_of registry_of heap g_usb_handles] in *.
      assert (EvRegisterTransport p serial dp w
              = EvRegisterTransport (fresh (dom (heap r)))
                  (Trim match read_file (rc_os c)
                                (String.append "/sys/bus/usb/devices/"
                                   (String.append rest "/serial")) with
                        | Some content => content
                        | None => EmptyString
                        end)
                  (rc_dev_path c) (writeable (new_handle c))) as Heq.
      { destruct (open_rdwr (rc_os c) =? -1); cbn [app] in Hev;
          rewrite !elem_of_cons in Hev;
          destruct Hev as [?|[?|[?|[?|Hev]]]]; try done; by apply elem_of_nil in Hev. }
      injection Heq as -> -> -> ->.
      split_and!; try done.
      * by apply fresh_not_listed.
      * apply lookup_insert_eq.
      * rewrite is_known_device_result, bool_decide_eq_true_2; [done|].
        rewrite listed_insert_fresh by done. rewrite map_app.
        apply elem_of_app. right. apply list_elem_of_singleton. done.
    + cbn [events_of] in Hev.
      destruct (open_rdwr (rc_os c) =? -1);
        rewrite !elem_of_cons in Hev;
        destruct Hev as [?|[?|Hev]]; try done; by apply elem_of_nil in Hev.
Qed.

Lemma register_device_transport_listed_witness :
  g_usb_handles (registry_of (register_call_on (fun s => s) call_with_dev_path no_handles))
  = g_usb_handles no_handles ++ [1%positive] /\
  heap (registry_of (register_call_on (fun s => s) call_with_dev_path no_handles)) !! 1%positive
  = Some (new_handle call_with_dev_path) /\
  (is_known_device (rc_dev_name call_with_dev_path)
     (registry_of (register_call_on (fun s => s) call_with_dev_path no_handles))).1 = 1.
Proof.
  assert (registry_wf no_handles) as Hwf.
  { split; [apply NoDup_nil_2|]. intros p Hp. by apply elem_of_nil in Hp. }
  assert (EvRegisterTransport 1%positive "" (Some "usb:1-1") 1
          ∈ events_of (register_call_on (fun s => s) call_with_dev_path no_handles)) as Hev.
  { assert (events_of (register_call_on (fun s => s) call_with_dev_path no_handles)
            = [EvOpen "/dev/bus/usb/001/002" true; EvClaim 5 0;
               EvReadFile "/sys/bus/usb/devices/1-1/serial";
               EvRegisterTransport 1%positive "" (Some "usb:1-1") 1]) as ->
      by (vm_compute; reflexivity).
    do 3 apply list_elem_of_further. apply list_elem_of_here. }
  destruct (register_device_transport_listed (fun s => s) call_with_dev_path no_handles
              1%positive "" (Some "usb:1-1") 1 Hwf Hev)
    as (_ & Hlist & Hheap & _ & _ & _ & _ & _ & _ & Hknown).
  split_and!; [exact Hlist|exact Hheap|exact Hknown].
Defined.

(** X18.  [register_device] does not leak the descriptor it opens: when
    the call returns and the node was opened, either the handle that holds
    the descriptor is on the list, at an address that was not allocated
    before, or the registry is as it was and the last thing the call did
    was to close the descriptor (the interface was refused). *)
Theorem register_device_no_leak Trim c r r' tr :
  register_call_on Trim c r = Returned r' tr ->
  tr <> [] ->
  opened (rc_os c) <> -1 ->
  (heap r !! fresh (dom (heap r)) = None /\
   g_usb_handles r' = g_usb_handles r ++ [fresh (dom (heap r))] /\
   heap r' !! fresh (dom (heap r)) = Some (new_handle c) /\
   fd (new_handle c) = opened (rc_os c) /\
   List.filter (fun e => match e with EvClose _ => true | _ => false end) tr = []) \/
  (r' = r /\ last tr = Some (EvClose (opened (rc_os c))) /\
   List.filter (fun e => match e with EvRegisterTransport _ _ _ _ => true | _ => false end) tr
   = []).
Proof.
  intros Hcall Htr Hfd.
  destruct (decide (rc_dev_name c ∈ map path (listed r))) as [Hknown|Hnew].
  { unfold register_call_on in Hcall. rewrite register_device_known in Hcall by done.
    by injection Hcall as <- <-. }
  destruct (register_device_new Trim c r Hnew)
    as [(Hrw & Hro & Hcall')|[(Hrw & Hclaim & Hcall')|(_ & _ & Hcall')]];
    rewrite Hcall' in Hcall.
  - unfold opened in Hfd. rewrite Hrw in Hfd. cbn in Hfd. done.
  - injection Hcall as <- <-. right. unfold opened.
    replace (open_rdwr (rc_os c) =? -1) with false by (symmetry; by apply Z.eqb_neq).
    done.
  - unfold register_finish in Hcall. destruct (skip4 (rc_dev_path c)); [|done].
    injection Hcall as <- <-. left. cbn [heap g_usb_handles]. split_and!; try done.
    + apply not_elem_of_dom, is_fresh.
    + apply lookup_insert_eq.
    + by destruct (open_rdwr (rc_os c) =? -1).
Qed.

Lemma register_device_no_leak_witness :
  (heap no_handles !! fresh (dom (heap no_handles)) = None /\
   g_usb_handles (registry_of (register_call_on (fun s => s) call_claim_refused no_handles))
   = g_usb_handles no_handles ++ [fresh (dom (heap no_handles))] /\
   heap (registry_of (register_call_on (fun s => s) call_claim_refused no_handles))
     !! fresh (dom (heap no_handles)) = Some (new_handle call_claim_refused) /\
   fd (new_handle call_claim_refused) = opened (rc_os call_claim_refused) /\
   List.filter (fun e => match e with EvClose _ => true | _ => false end)
     (events_of (register_call_on (fun s => s) call_claim_refused no_handles)) = []) \/
  (registry_of (register_call_on (fun s => s) call_claim_refused no_handles) = no_handles /\
   last (events_of (register_call_on (fun s => s) call_claim_refused no_handles))
   = Some (EvClose (opened (rc_os call_claim_refused))) /\
   List.filter (fun e => match e with EvRegisterTransport _ _ _ _ => true | _ => false end)
     (events_of (register_call_on (fun s => s) call_claim_refused no_handles)) = []).
Proof.
  apply (register_device_no_leak (fun s => s) call_claim_refused no_handles).
  - vm_compute. reflexivity.
  - vm_compute. discriminate.
  - vm_compute. discriminate.
Defined.

(** X19.  When the node of a new device only opens read-only,
    [register_device] claims no interface and lists a handle that is not
    writable; the transport is registered as not writable.  A kick of that
    handle unregisters the transport and touches no request. *)
Theorem register_device_read_only Trim c r rest :
  (rc_dev_name c ∉ map path (listed r)) ->
  open_rdwr (rc_os c) = -1 ->
  open_rdonly (rc_os c) <> -1 ->
  skip4 (rc_dev_path c) = Some rest ->
  exists serial,
    register_call_on Trim c r
    = Returned
        (Registry (<[fresh (dom (heap r)) := new_handle c]> (heap r))
                  (g_usb_handles r ++ [fresh (dom (heap r))]))
        [EvOpen (rc_dev_name c) true; EvOpen (rc_dev_name c) false;
         EvReadFile (String.append "/sys/bus/usb/devices/" (String.append rest "/serial"));
         EvRegisterTransport (fresh (dom (heap r))) serial (rc_dev_path c) 0] /\
    fd (new_handle c) = open_rdonly (rc_os c) /\
    writeable (new_handle c) = 0 /\
    usb_kick (new_handle c)
    = (with_dead true (new_handle c), [EvLock; EvUnregister; EvUnlock]).
Proof.
  intros Hnew Hrw Hro Hskip.
  destruct (register_device_new Trim c r Hnew)
    as [(_ & Hro' & _)|[(Hrw' & _)|(_ & _ & Hcall)]]; [done|done|].
  rewrite Hcall. unfold register_finish. rewrite Hskip.
  unfold new_handle, opened. rewrite Hrw. cbn [Z.eqb app].
  eexists. split_and!; reflexivity.
Qed.

Lemma register_device_read_only_witness :
  exists serial,
    register_call_on (fun s => s) call_read_only no_handles
    = Returned
        (Registry (<[fresh (dom (heap no_handles)) := new_handle call_read_only]>
                     (heap no_handles))
                  (g_usb_handles no_handles ++ [fresh (dom (heap no_handles))]))
        [EvOpen (rc_dev_name call_read_only) true; EvOpen (rc_dev_name call_read_only) false;
         EvReadFile (String.append "/sys/bus/usb/devices/" (String.append "1-1" "/serial"));
         EvRegisterTransport (fresh (dom (heap no_handles))) serial
           (rc_dev_path call_read_only) 0] /\
    fd (new_handle call_read_only) = open_rdonly (rc_os call_read_only) /\
    writeable (new_handle call_read_only) = 0 /\
    usb_kick (new_handle call_read_only)
    = (with_dead true (new_handle call_read_only), [EvLock; EvUnregister; EvUnlock]).
Proof.
  apply (register_device_read_only (fun s => s) call_read_only no_handles "1-1").
  - intros Hin. by apply elem_of_nil in Hin.
  - reflexivity.
  - vm_compute. discriminate.
  - reflexivity.
Defined.

(** ** The device path *)

Lemma substring_whole s : String.substring 0 (String.length s) s = s.
Proof. induction s as [|c s IH]; [done|]. simpl. by rewrite IH. Qed.

(** A device path that [find_usb_device] resolves is "usb:" followed by at
    most 123 characters, so [dev_path + 4] is a string. *)
Lemma resolve_devpath_skip4 fstat_chr readlink dp :
  resolve_devpath fstat_chr readlink = Some dp ->
  exists rest, dp = String.append "usb:" rest /\ skip4 (Some dp) = Some rest.
Proof.
  unfold resolve_devpath. destruct fstat_chr as [[major minor]|]; [|done].
  destruct (readlink _) as [link|]; [|done].
  destruct (after_last_slash _) as [name|]; [|done].
  intros [= <-]. exists (String.substring 0 123 name). split; [done|].
  cbn [skip4 String.append String.substring String.length].
  change (4 <=? S (S (S (S (String.length (String.substring 0 123 name))))))%nat
    with true.
  cbn [Nat.sub]. rewrite Nat.sub_0_r. by rewrite substring_whole.
Qed.

(** X20.  A scan faults in [register_device] only for a device whose
    stable path could not be resolved: the node is not known, it opened,
    the read did not fail, its descriptors matched, and [resolve_devpath]
    gave nothing.  With a resolved path the callback always returns. *)
Theorem find_usb_device_entry_faults Trim is_adb_interface fuel bus de r r' tr :
  find_usb_device_entry Trim is_adb_interface fuel bus de r = ScanFault r' tr ->
  resolve_devpath (de_fstat_chr de) (de_readlink de) = None /\
  contains_non_digit (de_name de) = false /\
  (slash bus (de_name de) ∉ map path (listed r)) /\
  de_open de <> -1 /\
  0 <= de_read de /\
  (exists m, Load.value (find_usb_device_parse is_adb_interface (de_devdesc de)
                           (to_size_t (de_read de)) fuel) = Registered m) /\
  r' = r.
Proof.
  unfold find_usb_device_entry.
  destruct (contains_non_digit (de_name de)); [done|].
  pose proof (is_known_device_result (slash bus (de_name de)) r) as Hres.
  pose proof (find_path_is (heap r) (slash bus (de_name de)) (g_usb_handles r)) as Hfind.
  assert ((is_known_device (slash bus (de_name de)) r).1 = 0 ->
          (is_known_device (slash bus (de_name de)) r).2 = r) as Hsame.
  { unfold is_known_device. by destruct (List.find _ _). }
  destruct ((is_known_device (slash bus (de_name de)) r).1 =? 0) eqn:Hknown; [|done].
  apply Z.eqb_eq in Hknown. rewrite Hsame by done. cbn [negb].
  assert (slash bus (de_name de) ∉ map path (listed r)) as Hnew.
  { rewrite Hknown in Hres. by case_bool_decide. }
  destruct (de_open de =? -1) eqn:Hopen; [done|]. apply Z.eqb_neq in Hopen.
  destruct (de_read de <? 0) eqn:Hread; [done|]. apply Z.ltb_ge in Hread.
  destruct (Load.value _) as [m| |] eqn:Hparse; [|done|done].
  destruct (resolve_devpath _ _) as [dp|] eqn:Hdp.
  - apply resolve_devpath_skip4 in Hdp as (rest & _ & Hskip).
    unfold register_device. destruct (existsb _ _); [done|].
    cbn [fd with_fd]. unfold register_finish. rewrite Hskip.
    destruct (open_rdwr (de_os de) =? -1);
      [destruct (open_rdonly (de_os de) =? -1)|destruct (negb (claim_rc (de_os de) =? 0))];
      done.
  - destruct (register_device _ _ _ _ _ _ _ _ _ _) as [r1 tr1|r1 tr1] eqn:Hreg; [done|].
    intros [= <- <-]. split_and!; try done; [by exists m|].
    pose proof (register_device_registry Trim (slash bus (de_name de)) None (m_ep_in m)
                  (m_ep_out m) (m_interface m) (m_serial_index m) (m_zero_mask m)
                  (de_os de) r) as Hr.
    rewrite Hreg in Hr. cbn [registry_of] in Hr.
    destruct Hr as [->|(_ & usb & _ & _ & _ & ->)]; [done|].
    unfold register_device, register_finish in Hreg. cbn [skip4 fd with_fd] in Hreg.
    destruct (existsb _ _); [done|].
    destruct (open_rdwr (de_os de) =? -1);
      [destruct (open_rdonly (de_os de) =? -1)|destruct (negb (claim_rc (de_os de) =? 0))];
      try done; injection Hreg as Hreg _; apply (f_equal g_usb_handles) in Hreg;
      cbn [g_usb_handles] in Hreg; apply (f_equal length) in Hreg;
      rewrite length_app in Hreg; simpl in Hreg; lia.
Qed.

Lemma find_usb_device_entry_faults_witness :
  resolve_devpath (de_fstat_chr (adb_entry None)) (de_readlink (adb_entry None)) = None /\
  de_open (adb_entry None) <> -1.
Proof.
  destruct (find_usb_device_entry_faults (fun s => s) adb_class_policy 10 "/dev/bus/usb/001"
              (adb_entry None) no_handles no_handles
              [EvOpen "/dev/bus/usb/001/002" false; EvRead 4;
               EvOpen "/dev/bus/usb/001/002" true; EvClaim 5 0])
    as (H1 & _ & _ & H2 & _ & _); [vm_compute; reflexivity|].
  split; [exact H1|exact H2].
Defined.

(** ** What a scan does to the handles that are listed *)

Lemma with_mark_idem b b' u : with_mark b (with_mark b' u) = with_mark b u.
Proof. done. Qed.

Lemma with_mark_same u : with_mark (mark u) u = u.
Proof. by destruct u. Qed.

(** With one handle per path, two listed handles of the same path are the
    same handle. *)
Lemma one_handle_per_path_unique (σ : gmap positive usb_handle) (l : list positive) p q u v :
  NoDup (map path (omap (fun x => σ !! x) l)) ->
  p ∈ l -> q ∈ l -> σ !! p = Some u -> σ !! q = Some v -> path u = path v -> p = q.
Proof.
  induction l as [|x l IH]; intros Hnd Hp Hq Hu Hv Hpath; [by apply elem_of_nil in Hp|].
  assert (forall a w b w', σ !! a = Some w -> σ !! b = Some w' -> path w = path w' ->
            a = x -> b ∈ l -> False) as Hhead.
  { intros a w b w' Ha Hb Hw -> Hin. csimpl in Hnd. rewrite Ha in Hnd. simpl in Hnd.
    apply NoDup_cons in Hnd as [Hout _]. apply Hout. rewrite Hw.
    apply list_elem_of_fmap. exists w'. split; [done|by eapply listed_member]. }
  apply elem_of_cons in Hp as [Hp|Hp]; apply elem_of_cons in Hq as [Hq|Hq].
  - congruence.
  - by destruct (Hhead p u q v).
  - by destruct (Hhead q v p u).
  - apply IH; try done. csimpl in Hnd.
    destruct (σ !! x); simpl in Hnd; [by apply NoDup_cons in Hnd as [_ Hnd]|done].
Qed.

(** [is_known_device] on a registry where [p] is listed as [u]: the handle
    is marked when [dev_name] is its path, and left alone when not. *)
Lemma is_known_device_listed_at p u dev_name r :
  listed_at p u r ->
  g_usb_handles (is_known_device dev_name r).2 = g_usb_handles r /\
  (forall q, heap r !! q = None -> heap (is_known_device dev_name r).2 !! q = None) /\
  if bool_decide (path u = dev_name)
  then (is_known_device dev_name r).1 = 1 /\
       listed_at p (with_mark true u) (is_known_device dev_name r).2
  else listed_at p u (is_known_device dev_name r).2.
Proof.
  intros ([Hnd Halloc] & Hone & Hin & Hp).
  pose proof (find_path_is (heap r) dev_name (g_usb_handles r)) as Hfind.
  unfold is_known_device. destruct (List.find _ _) as [q|]; cbn [fst snd heap g_usb_handles].
  - destruct Hfind as (Hq & v & Hv & Hpath).
    assert (registry_wf (Registry (alter (with_mark true) q (heap r)) (g_usb_handles r)))
      as Hwf'.
    { split; [done|]. cbn [heap g_usb_handles]. intros x Hx. rewrite lookup_alter.
      case_decide; [|by apply Halloc]. apply fmap_is_Some. subst. by apply Halloc. }
    assert (one_handle_per_path
              (Registry (alter (with_mark true) q (heap r)) (g_usb_handles r))) as Hone'.
    { unfold one_handle_per_path, listed. cbn [heap g_usb_handles].
      by rewrite listed_alter_mark. }
    split_and!; [done| |].
    { intros x Hx. rewrite lookup_alter. case_decide; [subst; by rewrite Hx|done]. }
    case_bool_decide as Hu.
    + assert (p = q) as <-.
      { apply (one_handle_per_path_unique (heap r) (g_usb_handles r) p q u v);
          [exact Hone|done|done|done|done|by rewrite Hu, Hpath]. }
      split; [done|]. split_and!; try done.
      cbn [heap]. rewrite lookup_alter. case_decide; [|done]. by rewrite Hp.
    + split_and!; try done. cbn [heap]. rewrite lookup_alter_ne; [done|].
      intros ->. rewrite Hp in Hv. injection Hv as ->. done.
  - split_and!; [done|done|]. case_bool_decide as Hu; [|done].
    destruct Hfind. rewrite <- Hu. apply list_elem_of_fmap. exists u.
    split; [done|by eapply listed_member].
Qed.

Lemma register_device_listed_at Trim p u dev_name dev_path ep_in ep_out interface
    serial_index zero_mask os r :
  listed_at p u r ->
  listed_at p u (registry_of (register_device Trim dev_name dev_path ep_in ep_out interface
                                serial_index zero_mask os r)).
Proof.
  intros (Hwf & Hone & Hin & Hp).
  destruct (register_device_preserves Trim dev_name dev_path ep_in ep_out interface
              serial_index zero_mask os r Hwf Hone) as [Hwf' Hone'].
  destruct (register_device_kept Trim p u dev_name dev_path ep_in ep_out interface
              serial_index zero_mask os r) as (_ & Hin' & Hp'); [done|].
  done.
Qed.

Lemma extends_refl r : extends r r.
Proof. split; [exists []; by rewrite app_nil_r|done]. Qed.

Lemma extends_trans r1 r2 r3 : extends r1 r2 -> extends r2 r3 -> extends r1 r3.
Proof.
  intros [[n1 H1] A1] [[n2 H2] A2]. split; [|auto].
  exists (n1 ++ n2). by rewrite H2, H1, app_assoc.
Qed.

Lemma is_known_device_extends dev_name r : extends r (is_known_device dev_name r).2.
Proof.
  unfold is_known_device. destruct (List.find _ _) as [q|]; [|apply extends_refl].
  split; cbn [snd heap g_usb_handles]; [exists []; by rewrite app_nil_r|].
  intros x Hx. rewrite lookup_alter. case_decide; [|done]. subst. by apply fmap_is_Some.
Qed.

Lemma register_device_extends Trim dev_name dev_path ep_in ep_out interface serial_index
    zero_mask os r :
  extends r (registry_of (register_device Trim dev_name dev_path ep_in ep_out interface
                            serial_index zero_mask os r)).
Proof.
  destruct (register_device_registry Trim dev_name dev_path ep_in ep_out interface
              serial_index zero_mask os r) as [->|(_ & usb & _ & _ & _ & ->)];
    [apply extends_refl|].
  split; cbn [heap g_usb_handles]; [by eexists|].
  intros q Hq. rewrite lookup_insert. case_decide; [by eexists|done].
Qed.

Section ScanKeeps.

Variable Trim : string -> string.
Variable is_adb_interface : Z -> Z -> Z -> Z -> Z -> bool.
Variable fuel : nat.

(** One entry of a bus directory: the list grows at most, nothing is done
    on a listed handle, and the handle is marked when the entry has its
    name, and left alone when not. *)
Lemma find_usb_device_entry_listed_at p u bus de r r' tr :
  listed_at p u r ->
  find_usb_device_entry Trim is_adb_interface fuel bus de r = ScanDone r' tr ->
  extends r r' /\ events_on p tr = [] /\
  if negb (contains_non_digit (de_name de))
     && bool_decide (path u = slash bus (de_name de))
  then listed_at p (with_mark true u) r'
  else listed_at p u r'.
Proof.
  intros Hl. unfold find_usb_device_entry.
  destruct (contains_non_digit (de_name de)).
  { intros [= <- <-]. split_and!; [apply extends_refl|done|done]. }
  cbn [negb andb].
  destruct (is_known_device_listed_at p u (slash bus (de_name de)) r Hl) as (_ & _ & Hk).
  pose proof (is_known_device_extends (slash bus (de_name de)) r) as Hext.
  set (k := is_known_device (slash bus (de_name de)) r) in *.
  destruct (bool_decide (path u = slash bus (de_name de))).
  { destruct Hk as [-> Hk]. cbn [Z.eqb negb]. by intros [= <- <-]. }
  destruct (negb (k.1 =? 0)); [by intros [= <- <-]|].
  destruct (de_open de =? -1); [by intros [= <- <-]|].
  destruct (de_read de <? 0); [by intros [= <- <-]|].
  destruct (Load.value _) as [m| |]; [|by intros [= <- <-]|done].
  match goal with
  | |- context [register_device ?T ?n ?dp ?a ?b ?c ?d ?e ?o ?r0] =>
      pose proof (register_device_listed_at T p u n dp a b c d e o r0 Hk) as Hreg;
      pose proof (register_device_extends T n dp a b c d e o r0) as Hext';
      pose proof (register_device_events_on T p n dp a b c d e o r0) as Hev;
      destruct (register_device T n dp a b c d e o r0) as [r1 tr1|r1 tr1]
  end; [|done].
  intros [= <- <-]. cbn [events_of registry_of] in *.
  split_and!; [by eapply extends_trans| |done].
  change (events_on p ([EvOpen (slash bus (de_name de)) false; EvRead (de_open de)]
                       ++ tr1 ++ [EvClose (de_open de)]) = []).
  rewrite !events_on_app, Hev. reflexivity.
Qed.

(** The entries of one bus directory. *)
Lemma find_usb_device_bus_listed_at p u bus des r tr r' tr' :
  listed_at p u r ->
  find_usb_device_bus Trim is_adb_interface fuel bus des r tr = ScanDone r' tr' ->
  extends r r' /\ events_on p tr' = events_on p tr /\
  if bool_decide (path u ∈ map (fun de => slash bus (de_name de))
                    (List.filter (fun de => negb (contains_non_digit (de_name de))) des))
  then listed_at p (with_mark true u) r'
  else listed_at p u r'.
Proof.
  revert u r tr. induction des as [|de des IH]; intros u r tr Hl;
    cbn [find_usb_device_bus List.filter].
  { intros [= <- <-]. split_and!; [apply extends_refl|done|].
    rewrite bool_decide_eq_false_2; [done|]. intros Hin. by apply elem_of_nil in Hin. }
  destruct (find_usb_device_entry _ _ _ _ _ _) as [r1 tr1|r1 tr1|r1 tr1] eqn:Hentry;
    [|done|done].
  apply (find_usb_device_entry_listed_at p u) in Hentry as (Hext1 & Hev1 & Hl1); [|done].
  intros Hrest.
  destruct (negb (contains_non_digit (de_name de))) eqn:Hnum; cbn [andb map] in *.
  - case_bool_decide as Hname.
    + apply (IH (with_mark true u)) in Hrest as (Hext & Hev & Hl'); [|done].
      split_and!; [by eapply extends_trans|by rewrite Hev, events_on_app, Hev1, app_nil_r|].
      rewrite bool_decide_eq_true_2 by (rewrite Hname; apply list_elem_of_here).
      case_bool_decide; by rewrite ?with_mark_idem in Hl'.
    + apply (IH u) in Hrest as (Hext & Hev & Hl'); [|done].
      split_and!; [by eapply extends_trans|by rewrite Hev, events_on_app, Hev1, app_nil_r|].
      rewrite (bool_decide_ext _ (path u ∈ map (fun de => slash bus (de_name de))
                 (List.filter (fun de => negb (contains_non_digit (de_name de))) des)));
        [done|].
      rewrite elem_of_cons. split; [intros [?|?]; done|by right].
  - apply (IH u) in Hrest as (Hext & Hev & Hl'); [|done].
    split_and!; [by eapply extends_trans|by rewrite Hev, events_on_app, Hev1, app_nil_r|done].
Qed.

(** The entries of the base directory. *)
Lemma find_usb_device_buses_listed_at p u base buses r tr r' tr' :
  listed_at p u r ->
  find_usb_device_buses Trim is_adb_interface fuel base buses r tr = ScanDone r' tr' ->
  extends r r' /\ events_on p tr' = events_on p tr /\
  if bool_decide (path u ∈ looked_up_names base buses)
  then listed_at p (with_mark true u) r'
  else listed_at p u r'.
Proof.
  revert u r tr. induction buses as [|b buses IH]; intros u r tr Hl;
    cbn [find_usb_device_buses].
  { intros [= <- <-]. split_and!; [apply extends_refl|done|].
    rewrite bool_decide_eq_false_2; [done|]. intros Hin. by apply elem_of_nil in Hin. }
  unfold looked_up_names. cbn [map concat]. fold (looked_up_names base buses).
  destruct (contains_non_digit (bus_name b)); [by apply IH|].
  destruct (bus_devs b) as [des|]; [|by apply IH].
  destruct (find_usb_device_bus _ _ _ _ _ _ _) as [r1 tr1|r1 tr1|r1 tr1] eqn:Hbus;
    [|done|done].
  apply (find_usb_device_bus_listed_at p u) in Hbus as (Hext1 & Hev1 & Hl1); [|done].
  intros Hrest. case_bool_decide as Hhere.
  - apply (IH (with_mark true u)) in Hrest as (Hext & Hev & Hl'); [|done].
    split_and!; [by eapply extends_trans|by rewrite Hev|].
    rewrite bool_decide_eq_true_2 by (apply elem_of_app; by left).
    case_bool_decide; by rewrite ?with_mark_idem in Hl'.
  - apply (IH u) in Hrest as (Hext & Hev & Hl'); [|done].
    split_and!; [by eapply extends_trans|by rewrite Hev|].
    rewrite (bool_decide_ext _ (path u ∈ looked_up_names base buses)); [done|].
    rewrite elem_of_app. split; [intros [?|?]; done|by right].
Qed.

End ScanKeeps.

(** ** What the sweep keeps *)

Lemma usb_kick_path h : path (usb_kick h).1 = path h.
Proof.
  unfold usb_kick. destruct (dead h); [done|].
  by destruct (negb (writeable (with_dead true h) =? 0)).
Qed.

Lemma usb_kick_fd h : fd (usb_kick h).1 = fd h.
Proof.
  unfold usb_kick. destruct (dead h); [done|].
  by destruct (negb (writeable (with_dead true h) =? 0)).
Qed.

Lemma paths_agree (σ σ' : gmap positive usb_handle) (l : list positive) :
  (forall p, p ∈ l -> path <$> σ' !! p = path <$> σ !! p) ->
  map path (omap (fun q => σ' !! q) l) = map path (omap (fun q => σ !! q) l).
Proof.
  induction l as [|q l IH]; intros Hagree; [done|]. csimpl.
  pose proof (Hagree q (list_elem_of_here _ _)) as Hq.
  assert (map path (omap (fun q => σ' !! q) l) = map path (omap (fun q => σ !! q) l)) as Hl.
  { apply IH. intros p Hp. by apply Hagree, list_elem_of_further. }
  destruct (σ' !! q) as [u'|], (σ !! q) as [u|]; simpl in *; try done.
  injection Hq as ->. by rewrite Hl.
Qed.

(** The sweep keeps the registry well formed, the list and every path. *)
Lemma kick_disconnected_devices_wf r :
  registry_wf r ->
  registry_wf (kick_disconnected_devices r).1 /\
  g_usb_handles (kick_disconnected_devices r).1 = g_usb_handles r /\
  map path (listed (kick_disconnected_devices r).1) = map path (listed r) /\
  (forall q, is_Some (heap r !! q) -> is_Some (heap (kick_disconnected_devices r).1 !! q)).
Proof.
  intros [Hnd Halloc].
  assert (forall p, p ∈ g_usb_handles r ->
            exists u, heap r !! p = Some u /\
              heap (kick_disconnected_devices r).1 !! p
              = Some (if mark u then with_mark false u else (usb_kick u).1)) as Hmember.
  { intros p Hp. destruct (Halloc p Hp) as [u Hu]. exists u. split; [done|].
    by destruct (kick_sweep_member (g_usb_handles r) (heap r, []) p u Hnd Hp Hu). }
  split_and!.
  - split; [done|]. intros p Hp. destruct (Hmember p Hp) as (u & _ & ->). by eexists.
  - done.
  - unfold listed.
    change (g_usb_handles (kick_disconnected_devices r).1) with (g_usb_handles r).
    apply paths_agree. intros p Hp. destruct (Hmember p Hp) as (u & Hu & Hu').
    rewrite Hu, Hu'. simpl. f_equal. destruct (mark u); [done|apply usb_kick_path].
  - intros q Hq. destruct (decide (q ∈ g_usb_handles r)) as [Hin|Hout].
    + destruct (Hmember q Hin) as (u & _ & ->). by eexists.
    + destruct (kick_sweep_other (g_usb_handles r) (heap r, []) q Hout) as [Hheap _].
      unfold kick_disconnected_devices. cbn [fst heap]. by rewrite Hheap.
Qed.

Section Cycles.

Variable Trim : string -> string.
Variable is_adb_interface : Z -> Z -> Z -> Z -> Z -> bool.
Variable fuel : nat.

(** The scan keeps the registry well formed with one handle per path. *)
Lemma find_usb_device_entry_wf bus de r r' tr :
  registry_wf r -> one_handle_per_path r ->
  find_usb_device_entry Trim is_adb_interface fuel bus de r = ScanDone r' tr ->
  registry_wf r' /\ one_handle_per_path r' /\ extends r r'.
Proof.
  intros Hwf Hone. unfold find_usb_device_entry.
  destruct (contains_non_digit (de_name de)).
  { intros [= <- <-]. split_and!; [done|done|apply extends_refl]. }
  pose proof (is_known_device_extends (slash bus (de_name de)) r) as Hext.
  assert (registry_wf (is_known_device (slash bus (de_name de)) r).2 /\
          one_handle_per_path (is_known_device (slash bus (de_name de)) r).2) as [Hwf1 Hone1].
  { unfold is_known_device. destruct (List.find _ _) as [q|]; [|done].
    cbn [snd]. split.
    - destruct Hwf as [Hnd Halloc]. split; [done|]. cbn [heap g_usb_handles].
      intros x Hx. rewrite lookup_alter.
      case_decide; [|by apply Halloc]. apply fmap_is_Some. subst. by apply Halloc.
    - unfold one_handle_per_path, listed. cbn [heap g_usb_handles].
      by rewrite listed_alter_mark. }
  set (k := is_known_device (slash bus (de_name de)) r) in *.
  destruct (negb (k.1 =? 0)); [by intros [= <- <-]|].
  destruct (de_open de =? -1); [by intros [= <- <-]|].
  destruct (de_read de <? 0); [by intros [= <- <-]|].
  destruct (Load.value _) as [m| |]; [|by intros [= <- <-]|done].
  match goal with
  | |- context [register_device ?T ?n ?dp ?a ?b ?c ?d ?e ?o ?r0] =>
      pose proof (register_device_preserves T n dp a b c d e o r0 Hwf1 Hone1) as [Hwf2 Hone2];
      pose proof (register_device_extends T n dp a b c d e o r0) as Hext';
      destruct (register_device T n dp a b c d e o r0) as [r1 tr1|r1 tr1]
  end; [|done].
  intros [= <- <-]. cbn [registry_of] in *.
  split_and!; [done|done|by eapply extends_trans].
Qed.

Lemma find_usb_device_bus_wf bus des r tr r' tr' :
  registry_wf r -> one_handle_per_path r ->
  find_usb_device_bus Trim is_adb_interface fuel bus des r tr = ScanDone r' tr' ->
  registry_wf r' /\ one_handle_per_path r' /\ extends r r'.
Proof.
  revert r tr. induction des as [|de des IH]; intros r tr Hwf Hone;
    cbn [find_usb_device_bus].
  { intros [= <- <-]. split_and!; [done|done|apply extends_refl]. }
  destruct (find_usb_device_entry _ _ _ _ _ _) as [r1 tr1|r1 tr1|r1 tr1] eqn:Hentry;
    [|done|done].
  apply find_usb_device_entry_wf in Hentry as (Hwf1 & Hone1 & Hext1); [|done|done].
  intros Hrest. apply IH in Hrest as (Hwf' & Hone' & Hext'); [|done|done].
  split_and!; [done|done|by eapply extends_trans].
Qed.

Lemma find_usb_device_buses_wf base buses r tr r' tr' :
  registry_wf r -> one_handle_per_path r ->
  find_usb_device_buses Trim is_adb_interface fuel base buses r tr = ScanDone r' tr' ->
  registry_wf r' /\ one_handle_per_path r' /\ extends r r'.
Proof.
  revert r tr. induction buses as [|b buses IH]; intros r tr Hwf Hone;
    cbn [find_usb_device_buses].
  { intros [= <- <-]. split_and!; [done|done|apply extends_refl]. }
  destruct (contains_non_digit (bus_name b)); [by apply IH|].
  destruct (bus_devs b) as [des|]; [|by apply IH].
  destruct (find_usb_device_bus _ _ _ _ _ _ _) as [r1 tr1|r1 tr1|r1 tr1] eqn:Hbus;
    [|done|done].
  apply find_usb_device_bus_wf in Hbus as (Hwf1 & Hone1 & Hext1); [|done|done].
  intros Hrest. apply IH in Hrest as (Hwf' & Hone' & Hext'); [|done|done].
  split_and!; [done|done|by eapply extends_trans].
Qed.

(** A scan and what it leaves of a listed handle. *)
Lemma find_usb_device_listed_at p u dir r r' tr :
  listed_at p u r ->
  find_usb_device Trim is_adb_interface fuel "/dev/bus/usb" dir r = ScanDone r' tr ->
  events_on p tr = [] /\
  if bool_decide (path u ∈ looked_up dir)
  then listed_at p (with_mark true u) r'
  else listed_at p u r'.
Proof.
  intros Hl. unfold find_usb_device, looked_up. destruct dir as [buses|].
  - intros Hscan.
    by apply (find_usb_device_buses_listed_at Trim is_adb_interface fuel p u) in Hscan
      as (_ & Hev & Hl').
  - intros [= <- <-]. split; [done|].
    rewrite bool_decide_eq_false_2; [done|]. intros Hin. by apply elem_of_nil in Hin.
Qed.

End Cycles.

(** ** Scans that stop *)

Section ScanStops.

Variable Trim : string -> string.
Variable is_adb_interface : Z -> Z -> Z -> Z -> Z -> bool.
Variable fuel : nat.

(** One entry, however it ends: nothing is done on a listed handle, and
    the handle is marked when the entry has its name, and left alone when
    not.  An entry with the name of a listed handle neither faults nor
    hangs. *)
Lemma find_usb_device_entry_any p u bus de r :
  listed_at p u r ->
  events_on p (events_of_scan (find_usb_device_entry Trim is_adb_interface fuel bus de r))
  = [] /\
  if negb (contains_non_digit (de_name de))
     && bool_decide (path u = slash bus (de_name de))
  then listed_at p (with_mark true u)
         (registry_of_scan (find_usb_device_entry Trim is_adb_interface fuel bus de r))
  else listed_at p u
         (registry_of_scan (find_usb_device_entry Trim is_adb_interface fuel bus de r)).
Proof.
  intros Hl. unfold find_usb_device_entry.
  destruct (contains_non_digit (de_name de)); [done|].
  cbn [negb andb].
  destruct (is_known_device_listed_at p u (slash bus (de_name de)) r Hl) as (_ & _ & Hk).
  set (k := is_known_device (slash bus (de_name de)) r) in *.
  destruct (bool_decide (path u = slash bus (de_name de))).
  { destruct Hk as [-> Hk]. done. }
  destruct (negb (k.1 =? 0)); [done|].
  destruct (de_open de =? -1); [done|].
  destruct (de_read de <? 0); [done|].
  destruct (Load.value _) as [m| |]; [|done|done].
  match goal with
  | |- context [register_device ?T ?n ?dp ?a ?b ?c ?d ?e ?o ?r0] =>
      pose proof (register_device_listed_at T p u n dp a b c d e o r0 Hk) as Hreg;
      pose proof (register_device_events_on T p n dp a b c d e o r0) as Hev;
      destruct (register_device T n dp a b c d e o r0) as [r1 tr1|r1 tr1]
  end; cbn [events_of registry_of events_of_scan registry_of_scan] in *.
  - split; [|done].
    change (events_on p ([EvOpen (slash bus (de_name de)) false; EvRead (de_open de)]
                         ++ tr1 ++ [EvClose (de_open de)]) = []).
    rewrite !events_on_app, Hev. reflexivity.
  - split; [|done].
    change (events_on p ([EvOpen (slash bus (de_name de)) false; EvRead (de_open de)]
                         ++ tr1) = []).
    rewrite !events_on_app, Hev. reflexivity.
Qed.

(** The entries of one bus directory, however the scan ends. *)
Lemma find_usb_device_bus_any p u bus des r tr :
  listed_at p u r ->
  events_on p (events_of_scan (find_usb_device_bus Trim is_adb_interface fuel bus des r tr))
  = events_on p tr /\
  exists u',
    listed_at p u'
      (registry_of_scan (find_usb_device_bus Trim is_adb_interface fuel bus des r tr)) /\
    (u' = u \/ u' = with_mark true u) /\
    ((path u ∉ map (fun de => slash bus (de_name de))
                 (List.filter (fun de => negb (contains_non_digit (de_name de))) des)) ->
     u' = u).
Proof.
  revert u r tr. induction des as [|de des IH]; intros u r tr Hl;
    cbn [find_usb_device_bus List.filter].
  { split; [done|]. exists u. by split_and!; [|left|]. }
  destruct (find_usb_device_entry_any p u bus de r Hl) as [Hev1 Hl1].
  assert (exists u1,
            listed_at p u1
              (registry_of_scan (find_usb_device_entry Trim is_adb_interface fuel bus de r)) /\
            (u1 = u \/ u1 = with_mark true u) /\
            ((path u ∉ map (fun de => slash bus (de_name de))
                         (List.filter (fun de => negb (contains_non_digit (de_name de)))
                            (de :: des))) -> u1 = u))
    as (u1 & Hlu1 & Hcase1 & Hsame1).
  { cbn [List.filter].
    destruct (negb (contains_non_digit (de_name de))); cbn [andb map] in *.
    - case_bool_decide as Hname.
      + exists (with_mark true u). split_and!; [done|by right|].
        intros Hout. destruct Hout. rewrite Hname. apply list_elem_of_here.
      + exists u. by split_and!; [|left|].
    - exists u. by split_and!; [|left|]. }
  cbn [List.filter] in Hsame1.
  destruct (find_usb_device_entry _ _ _ _ _ _) as [r1 tr1|r1 tr1|r1 tr1];
    cbn [events_of_scan registry_of_scan] in *.
  - destruct (IH u1 r1 (tr ++ tr1) Hlu1) as (Hev & u' & Hl' & Hcase & Hsame).
    split; [by rewrite Hev, events_on_app, Hev1, app_nil_r|].
    exists u'. split_and!; [done| |].
    + destruct Hcase1 as [->| ->], Hcase as [->| ->]; auto.
    + intros Hout. rewrite (Hsame1 Hout) in *. apply Hsame.
      intros Hin. apply Hout.
      destruct (negb (contains_non_digit (de_name de))); [|done].
      cbn [map]. by apply list_elem_of_further.
  - split; [by rewrite events_on_app, Hev1, app_nil_r|]. by exists u1.
  - split; [by rewrite events_on_app, Hev1, app_nil_r|]. by exists u1.
Qed.

(** The entries of the base directory, however the scan ends. *)
Lemma find_usb_device_buses_any p u base buses r tr :
  listed_at p u r ->
  events_on p
    (events_of_scan (find_usb_device_buses Trim is_adb_interface fuel base buses r tr))
  = events_on p tr /\
  exists u',
    listed_at p u'
      (registry_of_scan (find_usb_device_buses Trim is_adb_interface fuel base buses r tr)) /\
    (u' = u \/ u' = with_mark true u) /\
    ((path u ∉ looked_up_names base buses) -> u' = u).
Proof.
  revert u r tr. induction buses as [|b buses IH]; intros u r tr Hl;
    cbn [find_usb_device_buses].
  { split; [done|]. exists u. by split_and!; [|left|]. }
  unfold looked_up_names. cbn [map concat]. fold (looked_up_names base buses).
  destruct (contains_non_digit (bus_name b)); [by apply IH|].
  destruct (bus_devs b) as [des|]; [|by apply IH].
  destruct (find_usb_device_bus_any p u (slash base (bus_name b)) des r tr Hl)
    as (Hev1 & u1 & Hlu1 & Hcase1 & Hsame1).
  destruct (find_usb_device_bus _ _ _ _ _ _ _) as [r1 tr1|r1 tr1|r1 tr1];
    cbn [events_of_scan registry_of_scan] in *.
  - destruct (IH u1 r1 tr1 Hlu1) as (Hev & u' & Hl' & Hcase & Hsame).
    split; [by rewrite Hev|].
    exists u'. split_and!; [done| |].
    + destruct Hcase1 as [->| ->], Hcase as [->| ->]; auto.
    + intros Hout. apply not_elem_of_app in Hout as [Hout1 Hout2].
      rewrite (Hsame1 Hout1) in *. by apply Hsame.
  - split; [done|]. exists u1. split_and!; [done|done|].
    intros Hout. apply not_elem_of_app in Hout as [Hout1 _]. by apply Hsame1.
  - split; [done|]. exists u1. split_and!; [done|done|].
    intros Hout. apply not_elem_of_app in Hout as [Hout1 _]. by apply Hsame1.
Qed.

(** A turn of the poll thread that does not complete ends in the scan: the
    sweep is not reached. *)
Lemma device_poll_cycle_stopped p u dir r :
  listed_at p u r ->
  match device_poll_cycle Trim is_adb_interface fuel dir r with
  | ScanDone _ _ => True
  | ScanFault r' tr | ScanHung r' tr =>
      events_on p tr = [] /\
      exists u', listed_at p u' r' /\ (u' = u \/ u' = with_mark true u) /\
                 ((path u ∉ looked_up dir) -> u' = u)
  end.
Proof.
  intros Hl. unfold device_poll_cycle, find_usb_device, looked_up.
  destruct dir as [buses|]; [|done].
  destruct (find_usb_device_buses_any p u "/dev/bus/usb" buses r [] Hl) as [Hev Hu'].
  destruct (find_usb_device_buses _ _ _ _ _ _ _) as [r1 tr1|r1 tr1|r1 tr1]; done.
Qed.

End ScanStops.

(** ** Whole turns of the poll thread *)

(** X21.  A listed handle whose device the scan of a turn looks up (its
    path is the name of a numeric entry of a numeric bus directory that
    opens) is not kicked by that turn, however the turn ends: nothing is
    done on it.  After a turn that completes it is as before, with its mark
    cleared; when the scan faults or hangs it is as before, but for its
    mark, which may be set. *)
Theorem device_poll_cycle_keeps_present Trim is_adb_interface fuel p usb dir r :
  registry_wf r -> one_handle_per_path r ->
  p ∈ g_usb_handles r -> heap r !! p = Some usb ->
  path usb ∈ looked_up dir ->
  events_on p (events_of_scan (device_poll_cycle Trim is_adb_interface fuel dir r)) = [] /\
  p ∈ g_usb_handles (registry_of_scan (device_poll_cycle Trim is_adb_interface fuel dir r)) /\
  match device_poll_cycle Trim is_adb_interface fuel dir r with
  | ScanDone r' _ => heap r' !! p = Some (with_mark false usb)
  | ScanFault r' _ | ScanHung r' _ =>
      heap r' !! p = Some usb \/ heap r' !! p = Some (with_mark true usb)
  end.
Proof.
  intros Hwf Hone Hin Hp Hfound.
  assert (listed_at p usb r) as Hl by done.
  pose proof (device_poll_cycle_stopped Trim is_adb_interface fuel p usb dir r Hl) as Hstop.
  destruct (device_poll_cycle _ _ _ _ _) as [r' tr|r' tr|r' tr] eqn:Hcycle;
    cbn [registry_of_scan events_of_scan].
  - clear Hstop. revert Hcycle. unfold device_poll_cycle.
    destruct (find_usb_device _ _ _ _ _ _) as [r1 tr1|r1 tr1|r1 tr1] eqn:Hscan;
      [|done|done].
    apply (find_usb_device_listed_at Trim is_adb_interface fuel p usb) in Hscan
      as [Hev Hl1]; [|done].
    rewrite bool_decide_eq_true_2 in Hl1 by done.
    destruct Hl1 as ([Hnd _] & _ & Hin1 & Hp1).
    intros [= <- <-].
    destruct (kick_sweep_member (g_usb_handles r1) (heap r1, []) p _ Hnd Hin1 Hp1)
      as [Hheap Hev'].
    unfold kick_disconnected_devices. cbn [fst snd heap g_usb_handles].
    rewrite events_on_app, Hev, Hheap, Hev'. done.
  - destruct Hstop as (Hev & u' & (_ & _ & Hin' & Hu') & [->| ->] & _); auto.
  - destruct Hstop as (Hev & u' & (_ & _ & Hin' & Hu') & [->| ->] & _); auto.
Qed.

Lemma device_poll_cycle_keeps_present_witness :
  events_on 1%positive
    (events_of_scan
       (device_poll_cycle (fun s => s) adb_class_policy 10 with_unreadable two_handles))
  = [] /\
  1%positive
    ∈ g_usb_handles
        (registry_of_scan
           (device_poll_cycle (fun s => s) adb_class_policy 10 with_unreadable two_handles)) /\
  match device_poll_cycle (fun s => s) adb_class_policy 10 with_unreadable two_handles with
  | ScanDone r' _ => heap r' !! 1%positive = Some (with_mark false unseen_handle)
  | ScanFault r' _ | ScanHung r' _ =>
      heap r' !! 1%positive = Some unseen_handle \/
      heap r' !! 1%positive = Some (with_mark true unseen_handle)
  end.
Proof.
  apply (device_poll_cycle_keeps_present (fun s => s) adb_class_policy 10 1%positive
           unseen_handle with_unreadable two_handles).
  - split.
    + apply (bool_decide_unpack _). vm_compute. exact I.
    + apply Forall_forall. apply (bool_decide_unpack _). vm_compute. exact I.
  - apply (bool_decide_unpack _). vm_compute. exact I.
  - apply (bool_decide_unpack _). vm_compute. exact I.
  - reflexivity.
  - apply (bool_decide_unpack _). vm_compute. exact I.
Defined.

(** The turn of the witness completes: the node whose read fails is opened
    and closed and nothing is listed for it, the device that is present is
    not opened, and no handle is kicked. *)
Lemma device_poll_cycle_unreadable_node :
  exists r',
    device_poll_cycle (fun s => s) adb_class_policy 10 with_unreadable two_handles
    = ScanDone r'
        [EvOpen "/dev/bus/usb/001/004" false; EvRead 4; EvClose 4] /\
    g_usb_handles r' = [1%positive; 2%positive] /\
    heap r' !! 1%positive = Some unseen_handle /\
    heap r' !! 2%positive = Some (with_mark false seen_handle).
Proof. eexists. split_and!; vm_compute; reflexivity. Qed.

(** X22.  A listed handle whose device the scan of a turn does not look
    up.  When the turn completes, the handle is kicked at its end if its
    mark is clear: it is dead afterwards, and [unregister_usb_transport]
    was called once for it if it was alive and read-only, and not at all
    otherwise; if its mark is set, the turn only clears the mark.  When the
    scan faults or hangs, the sweep is not reached: the handle is left as
    it was and nothing is done on it. *)
Theorem device_poll_cycle_kicks_missing Trim is_adb_interface fuel p usb dir r :
  registry_wf r -> one_handle_per_path r ->
  p ∈ g_usb_handles r -> heap r !! p = Some usb ->
  (path usb ∉ looked_up dir) ->
  match device_poll_cycle Trim is_adb_interface fuel dir r with
  | ScanDone r' tr =>
      heap r' !! p = Some (if mark usb then with_mark false usb else (usb_kick usb).1) /\
      events_on p tr = (if mark usb then [] else (usb_kick usb).2) /\
      (mark usb = false ->
       (dead <$> heap r' !! p) = Some true /\
       unregistered p tr = if dead usb || negb (writeable usb =? 0) then 0%nat else 1%nat)
  | ScanFault r' tr | ScanHung r' tr =>
      heap r' !! p = Some usb /\ events_on p tr = []
  end.
Proof.
  intros Hwf Hone Hin Hp Hmissing.
  assert (listed_at p usb r) as Hl by done.
  pose proof (device_poll_cycle_stopped Trim is_adb_interface fuel p usb dir r Hl) as Hstop.
  destruct (device_poll_cycle _ _ _ _ _) as [r' tr|r' tr|r' tr] eqn:Hcycle.
  - clear Hstop. revert Hcycle. unfold device_poll_cycle.
    destruct (find_usb_device _ _ _ _ _ _) as [r1 tr1|r1 tr1|r1 tr1] eqn:Hscan;
      [|done|done].
    apply (find_usb_device_listed_at Trim is_adb_interface fuel p usb) in Hscan
      as [Hev Hl1]; [|done].
    rewrite bool_decide_eq_false_2 in Hl1 by done.
    destruct Hl1 as ([Hnd _] & _ & Hin1 & Hp1).
    intros [= <- <-].
    destruct (kick_sweep_member (g_usb_handles r1) (heap r1, []) p _ Hnd Hin1 Hp1)
      as [Hheap Hev'].
    unfold kick_disconnected_devices, unregistered. cbn [fst snd heap g_usb_handles].
    rewrite events_on_app, Hev, Hheap, Hev'. split_and!; [done|done|].
    intros ->. cbn [app fmap option_fmap option_map]. split.
    + by rewrite usb_kick_dead.
    + apply usb_kick_unregisters.
  - destruct Hstop as (Hev & u' & (_ & _ & _ & Hu') & _ & Hsame).
    rewrite (Hsame Hmissing) in Hu'. done.
  - destruct Hstop as (Hev & u' & (_ & _ & _ & Hu') & _ & Hsame).
    rewrite (Hsame Hmissing) in Hu'. done.
Qed.

Lemma device_poll_cycle_kicks_missing_witness :
  match device_poll_cycle (fun s => s) adb_class_policy 10 None two_handles with
  | ScanDone r' tr =>
      heap r' !! 1%positive
      = Some (if mark unseen_handle then with_mark false unseen_handle
              else (usb_kick unseen_handle).1) /\
      events_on 1%positive tr
      = (if mark unseen_handle then [] else (usb_kick unseen_handle).2) /\
      (mark unseen_handle = false ->
       (dead <$> heap r' !! 1%positive) = Some true /\
       unregistered 1%positive tr
       = if dead unseen_handle || negb (writeable unseen_handle =? 0) then 0%nat else 1%nat)
  | ScanFault r' tr | ScanHung r' tr =>
      heap r' !! 1%positive = Some unseen_handle /\ events_on 1%positive tr = []
  end.
Proof.
  apply (device_poll_cycle_kicks_missing (fun s => s) adb_class_policy 10 1%positive
           unseen_handle None two_handles).
  - split.
    + apply (bool_decide_unpack _). vm_compute. exact I.
    + apply Forall_forall. apply (bool_decide_unpack _). vm_compute. exact I.
  - apply (bool_decide_unpack _). vm_compute. exact I.
  - apply (bool_decide_unpack _). vm_compute. exact I.
  - reflexivity.
  - intros H. by apply elem_of_nil in H.
Defined.

(** The turn of the witness completes, and the handle that is kicked was
    alive and read-only: the transport is unregistered once.  With a scan
    that faults, the same handle is not kicked. *)
Lemma device_poll_cycle_kicks_missing_cases :
  (exists r' tr,
     device_poll_cycle (fun s => s) adb_class_policy 10 None two_handles = ScanDone r' tr /\
     (dead <$> heap r' !! 1%positive) = Some true /\
     unregistered 1%positive tr = 1%nat) /\
  (exists r' tr,
     device_poll_cycle (fun s => s) adb_class_policy 10
       (Some [BusEntry "001" (Some [DevEntry "009" 4 50 (buffer_of adb_descriptors 0) None
                                             (fun _ => None) node_opens])])
       two_handles = ScanFault r' tr /\
     heap r' !! 1%positive = Some unseen_handle /\
     events_on 1%positive tr = []).
Proof.
  split; eexists _, _; split_and!; vm_compute; reflexivity.
Qed.

(** X23.  A turn of the poll thread that completes keeps the registry well
    formed with at most one handle per path.  The list only grows at its
    end and no handle is freed; every listed handle has its mark clear
    afterwards; and a handle that was listed keeps its path and its
    descriptor, and stays dead if it was dead. *)
Theorem device_poll_cycle_invariants Trim is_adb_interface fuel dir r r' tr :
  registry_wf r -> one_handle_per_path r ->
  device_poll_cycle Trim is_adb_interface fuel dir r = ScanDone r' tr ->
  registry_wf r' /\
  one_handle_per_path r' /\
  extends r r' /\
  (forall p u', p ∈ g_usb_handles r' -> heap r' !! p = Some u' -> mark u' = false) /\
  (forall p u, p ∈ g_usb_handles r -> heap r !! p = Some u ->
     exists u', heap r' !! p = Some u' /\ path u' = path u /\ fd u' = fd u /\
                (dead u = true -> dead u' = true)).
Proof.
  intros Hwf Hone. unfold device_poll_cycle.
  destruct (find_usb_device _ _ _ _ _ _) as [r1 tr1|r1 tr1|r1 tr1] eqn:Hscan; [|done|done].
  intros Hcycle.
  assert (r' = (kick_disconnected_devices r1).1) as -> by (by injection Hcycle).
  clear Hcycle.
  assert (registry_wf r1 /\ one_handle_per_path r1 /\ extends r r1) as (Hwf1 & Hone1 & Hext1).
  { unfold find_usb_device in Hscan. destruct dir as [buses|].
    - by apply find_usb_device_buses_wf in Hscan.
    - injection Hscan as <- <-. split_and!; [done|done|apply extends_refl]. }
  destruct (kick_disconnected_devices_wf r1 Hwf1) as (Hwf' & Hlist & Hpaths & Halloc').
  assert (forall p u1, p ∈ g_usb_handles r1 -> heap r1 !! p = Some u1 ->
            heap (kick_disconnected_devices r1).1 !! p
            = Some (if mark u1 then with_mark false u1 else (usb_kick u1).1)) as Hswept.
  { intros p u1 Hp Hu1. destruct Hwf1 as [Hnd1 _].
    by destruct (kick_sweep_member (g_usb_handles r1) (heap r1, []) p u1 Hnd1 Hp Hu1). }
  split_and!.
  - done.
  - unfold one_handle_per_path. by rewrite Hpaths.
  - eapply extends_trans; [exact Hext1|]. split; [|done].
    exists []. by rewrite Hlist, app_nil_r.
  - intros p u' Hp Hu'. rewrite Hlist in Hp.
    destruct Hwf1 as [_ Halloc1]. destruct (Halloc1 p Hp) as [u1 Hu1].
    rewrite (Hswept p u1 Hp Hu1) in Hu'. injection Hu' as <-.
    destruct (mark u1) eqn:Hm; [done|]. by rewrite usb_kick_mark.
  - intros p u Hp Hu.
    assert (listed_at p u r) as Hl by done.
    apply (find_usb_device_listed_at Trim is_adb_interface fuel p u) in Hscan as [_ Hl1];
      [|done].
    assert (exists u1, listed_at p u1 r1 /\ path u1 = path u /\ fd u1 = fd u /\
                       dead u1 = dead u) as (u1 & (_ & _ & Hp1 & Hu1) & Hpath & Hfd & Hdead).
    { case_bool_decide; eauto. }
    rewrite (Hswept p u1 Hp1 Hu1). eexists. split; [done|].
    destruct (mark u1); cbn [path fd dead with_mark].
    + by rewrite Hdead.
    + rewrite usb_kick_path, usb_kick_fd, usb_kick_dead. done.
Qed.

Lemma device_poll_cycle_invariants_witness :
  one_handle_per_path
    (registry_of_scan
       (device_poll_cycle (fun s => s) adb_class_policy 10 other_device two_handles)) /\
  extends two_handles
    (registry_of_scan
       (device_poll_cycle (fun s => s) adb_class_policy 10 other_device two_handles)).
Proof.
  assert (registry_wf two_handles) as Hwf.
  { split.
    - apply (bool_decide_unpack _). vm_compute. exact I.
    - apply Forall_forall. apply (bool_decide_unpack _). vm_compute. exact I. }
  assert (one_handle_per_path two_handles) as Hone.
  { apply (bool_decide_unpack _). vm_compute. exact I. }
  destruct (device_poll_cycle_invariants (fun s => s) adb_class_policy 10 other_device
              two_handles
              (registry_of_scan
                 (device_poll_cycle (fun s => s) adb_class_policy 10 other_device
                    two_handles))
              (events_of_scan
                 (device_poll_cycle (fun s => s) adb_class_policy 10 other_device
                    two_handles))
              Hwf Hone)
    as (_ & H1 & H2 & _); [vm_compute; reflexivity|].
  split; [exact H1|exact H2].
Defined.

(** ** The nodes a scan opens *)

Lemma opened_names_app tr1 tr2 :
  opened_names (tr1 ++ tr2) = opened_names tr1 ++ opened_names tr2.
Proof. apply omap_app. Qed.

Lemma is_known_device_wf dev_name r :
  registry_wf r -> one_handle_per_path r ->
  registry_wf (is_known_device dev_name r).2 /\
  one_handle_per_path (is_known_device dev_name r).2 /\
  map path (listed (is_known_device dev_name r).2) = map path (listed r).
Proof.
  intros Hwf Hone. unfold is_known_device. destruct (List.find _ _) as [q|]; [|done].
  cbn [snd].
  assert (map path (listed (Registry (alter (with_mark true) q (heap r)) (g_usb_handles r)))
          = map path (listed r)) as Hpaths.
  { unfold listed. cbn [heap g_usb_handles]. apply listed_alter_mark. }
  split_and!; [|unfold one_handle_per_path; by rewrite Hpaths|done].
  destruct Hwf as [Hnd Halloc]. split; [done|]. cbn [heap g_usb_handles].
  intros x Hx. rewrite lookup_alter.
  case_decide; [|by apply Halloc]. apply fmap_is_Some. subst. by apply Halloc.
Qed.

(** [register_device] opens no node but the one it is called for, and
    forgets no path. *)
Lemma register_device_opens Trim dev_name dev_path ep_in ep_out interface serial_index
    zero_mask os r :
  registry_wf r ->
  Forall (fun n => n = dev_name)
         (opened_names (events_of (register_device Trim dev_name dev_path ep_in ep_out
                                     interface serial_index zero_mask os r))) /\
  (forall n, n ∈ map path (listed r) ->
     n ∈ map path (listed (registry_of (register_device Trim dev_name dev_path ep_in ep_out
                                          interface serial_index zero_mask os r)))).
Proof.
  intros Hwf. split.
  - unfold register_device, register_finish.
    destruct (existsb _ _); [by apply Forall_nil|]. cbn [fd with_fd].
    destruct (open_rdwr os =? -1);
      [destruct (open_rdonly os =? -1)|destruct (negb (claim_rc os =? 0))];
      try destruct (skip4 dev_path); cbn; repeat (apply Forall_cons; split; [done|]);
      by apply Forall_nil.
  - intros n Hn.
    destruct (register_device_registry Trim dev_name dev_path ep_in ep_out interface
                serial_index zero_mask os r) as [->|(_ & usb & _ & _ & _ & ->)]; [done|].
    rewrite listed_insert_fresh by done. rewrite map_app. apply elem_of_app. by left.
Qed.

Section ScanOpens.

Variable Trim : string -> string.
Variable is_adb_interface : Z -> Z -> Z -> Z -> Z -> bool.
Variable fuel : nat.

Lemma find_usb_device_entry_opens bus de r :
  registry_wf r -> one_handle_per_path r ->
  let o := find_usb_device_entry Trim is_adb_interface fuel bus de r in
  registry_wf (registry_of_scan o) /\
  one_handle_per_path (registry_of_scan o) /\
  (forall n, n ∈ map path (listed r) -> n ∈ map path (listed (registry_of_scan o))) /\
  Forall (fun n => n = slash bus (de_name de) /\
                   contains_non_digit (de_name de) = false /\
                   n ∉ map path (listed r))
         (opened_names (events_of_scan o)).
Proof.
  intros Hwf Hone. cbv zeta. unfold find_usb_device_entry.
  destruct (contains_non_digit (de_name de)) eqn:Hnum.
  { cbn. split_and!; try done. }
  destruct (is_known_device_wf (slash bus (de_name de)) r Hwf Hone) as (Hwf1 & Hone1 & Hpaths).
  pose proof (is_known_device_result (slash bus (de_name de)) r) as Hres.
  set (k := is_known_device (slash bus (de_name de)) r) in *.
  destruct (k.1 =? 0) eqn:Hknown; cbn [negb].
  2: { cbn. split_and!; try done. intros n Hn. by rewrite Hpaths. }
  apply Z.eqb_eq in Hknown. rewrite Hknown in Hres.
  assert (slash bus (de_name de) ∉ map path (listed r)) as Hnew by (by case_bool_decide).
  assert (forall tr, Forall (fun n => n = slash bus (de_name de)) (opened_names tr) ->
            Forall (fun n => n = slash bus (de_name de) /\ false = false /\
                             n ∉ map path (listed r)) (opened_names tr)) as Hopens.
  { intros tr Htr. eapply Forall_impl; [exact Htr|]. by intros n ->. }
  destruct (de_open de =? -1).
  { cbn [registry_of_scan events_of_scan]. split_and!; try done.
    - intros n Hn. by rewrite Hpaths.
    - apply Hopens. cbn. by apply Forall_singleton. }
  destruct (de_read de <? 0).
  { cbn [registry_of_scan events_of_scan]. split_and!; try done.
    - intros n Hn. by rewrite Hpaths.
    - apply Hopens. cbn. by apply Forall_singleton. }
  destruct (Load.value _) as [m| |].
  - match goal with
    | |- context [register_device ?T ?n ?dp ?a ?b ?c ?d ?e ?o ?r0] =>
        pose proof (register_device_preserves T n dp a b c d e o r0 Hwf1 Hone1)
          as [Hwf2 Hone2];
        pose proof (register_device_opens T n dp a b c d e o r0 Hwf1) as [Hopen2 Hsub2];
        destruct (register_device T n dp a b c d e o r0) as [r1 tr1|r1 tr1]
    end; cbn [registry_of events_of registry_of_scan events_of_scan] in *.
    + split_and!; try done.
      * intros n Hn. apply Hsub2. by rewrite Hpaths.
      * apply Hopens.
        change (Forall (fun n => n = slash bus (de_name de))
                  (opened_names ([EvOpen (slash bus (de_name de)) false; EvRead (de_open de)]
                                 ++ tr1 ++ [EvClose (de_open de)]))).
        rewrite !opened_names_app. apply Forall_app. split; [by apply Forall_singleton|].
        apply Forall_app. split; [done|by apply Forall_nil].
    + split_and!; try done.
      * intros n Hn. apply Hsub2. by rewrite Hpaths.
      * apply Hopens.
        change (Forall (fun n => n = slash bus (de_name de))
                  (opened_names ([EvOpen (slash bus (de_name de)) false; EvRead (de_open de)]
                                 ++ tr1))).
        rewrite !opened_names_app. apply Forall_app. split; [by apply Forall_singleton|done].
  - cbn [registry_of_scan events_of_scan]. split_and!; try done.
    + intros n Hn. by rewrite Hpaths.
    + apply Hopens. cbn. by apply Forall_singleton.
  - cbn [registry_of_scan events_of_scan]. split_and!; try done.
    + intros n Hn. by rewrite Hpaths.
    + apply Hopens. cbn. by apply Forall_singleton.
Qed.

Lemma find_usb_device_bus_opens bus des r tr :
  registry_wf r -> one_handle_per_path r ->
  let o := find_usb_device_bus Trim is_adb_interface fuel bus des r tr in
  registry_wf (registry_of_scan o) /\
  one_handle_per_path (registry_of_scan o) /\
  (forall n, n ∈ map path (listed r) -> n ∈ map path (listed (registry_of_scan o))) /\
  exists new,
    events_of_scan o = tr ++ new /\
    Forall (fun n =>
              n ∈ map (fun de => slash bus (de_name de))
                    (List.filter (fun de => negb (contains_non_digit (de_name de))) des) /\
              n ∉ map path (listed r))
           (opened_names new).
Proof.
  cbv zeta. revert r tr. induction des as [|de des IH]; intros r tr Hwf Hone;
    cbn [find_usb_device_bus].
  { cbn. split_and!; try done. exists []. by rewrite app_nil_r. }
  destruct (find_usb_device_entry_opens bus de r Hwf Hone) as (Hwf1 & Hone1 & Hsub1 & Hopen1).
  assert (Forall (fun n =>
                    n ∈ map (fun de => slash bus (de_name de))
                          (List.filter (fun de => negb (contains_non_digit (de_name de)))
                             (de :: des)) /\
                    n ∉ map path (listed r))
                 (opened_names
                    (events_of_scan
                       (find_usb_device_entry Trim is_adb_interface fuel bus de r))))
    as Hhere.
  { eapply Forall_impl; [exact Hopen1|]. intros n (-> & Hnum & Hnew). split; [|done].
    cbn [List.filter]. rewrite Hnum. cbn [negb map]. apply list_elem_of_here. }
  destruct (find_usb_device_entry _ _ _ _ _ _) as [r1 tr1|r1 tr1|r1 tr1];
    cbn [registry_of_scan events_of_scan] in *.
  - destruct (IH r1 (tr ++ tr1) Hwf1 Hone1) as (Hwf' & Hone' & Hsub' & new & Hev & Hopen').
    split_and!; [done|done|by auto|].
    exists (tr1 ++ new). split; [by rewrite Hev, app_assoc|].
    rewrite opened_names_app. apply Forall_app. split; [done|].
    eapply Forall_impl; [exact Hopen'|]. intros n [Hin Hnew]. split; [|by auto].
    cbn [List.filter]. destruct (negb (contains_non_digit (de_name de))); [|done].
    cbn [map]. by apply list_elem_of_further.
  - split_and!; [done|done|done|]. by exists tr1.
  - split_and!; [done|done|done|]. by exists tr1.
Qed.

Lemma find_usb_device_buses_opens base buses r tr :
  registry_wf r -> one_handle_per_path r ->
  let o := find_usb_device_buses Trim is_adb_interface fuel base buses r tr in
  registry_wf (registry_of_scan o) /\
  one_handle_per_path (registry_of_scan o) /\
  (forall n, n ∈ map path (listed r) -> n ∈ map path (listed (registry_of_scan o))) /\
  exists new,
    events_of_scan o = tr ++ new /\
    Forall (fun n => n ∈ looked_up_names base buses /\ n ∉ map path (listed r))
           (opened_names new).
Proof.
  cbv zeta. revert r tr. induction buses as [|b buses IH]; intros r tr Hwf Hone;
    cbn [find_usb_device_buses].
  { cbn. split_and!; try done. exists []. by rewrite app_nil_r. }
  unfold looked_up_names. cbn [map concat]. fold (looked_up_names base buses).
  destruct (contains_non_digit (bus_name b)); [by apply IH|].
  destruct (bus_devs b) as [des|]; [|by apply IH].
  destruct (find_usb_device_bus_opens (slash base (bus_name b)) des r tr Hwf Hone)
    as (Hwf1 & Hone1 & Hsub1 & new1 & Hev1 & Hopen1).
  assert (Forall (fun n =>
                    n ∈ map (fun de => slash (slash base (bus_name b)) (de_name de))
                          (List.filter (fun de => negb (contains_non_digit (de_name de))) des)
                        ++ looked_up_names base buses /\
                    n ∉ map path (listed r))
                 (opened_names new1)) as Hhere.
  { eapply Forall_impl; [exact Hopen1|]. intros n [Hin Hnew]. split; [|done].
    apply elem_of_app. by left. }
  destruct (find_usb_device_bus _ _ _ _ _ _ _) as [r1 tr1|r1 tr1|r1 tr1];
    cbn [registry_of_scan events_of_scan] in *.
  - destruct (IH r1 tr1 Hwf1 Hone1) as (Hwf' & Hone' & Hsub' & new & Hev & Hopen').
    split_and!; [done|done|by auto|].
    exists (new1 ++ new). split; [by rewrite Hev, Hev1, app_assoc|].
    rewrite opened_names_app. apply Forall_app. split; [done|].
    eapply Forall_impl; [exact Hopen'|]. intros n [Hin Hnew]. split; [|by auto].
    apply elem_of_app. by right.
  - split_and!; [done|done|done|]. by exists new1.
  - split_and!; [done|done|done|]. by exists new1.
Qed.

End ScanOpens.

Lemma contains_non_digit_digits name :
  contains_non_digit name = negb (forallb is_digit (String.list_ascii_of_string name)).
Proof.
  induction name as [|c name IH]; [done|]. simpl.
  destruct (is_digit c); simpl; [exact IH|done].
Qed.

(** X24.  A scan of the base directory opens only device nodes it has
    looked up: nodes named by an entry of decimal digits in a bus directory
    named by decimal digits; and it opens no node whose path is on a listed
    handle.  This holds also for a scan that faults or hangs. *)
Theorem find_usb_device_opens Trim is_adb_interface fuel base buses r :
  registry_wf r -> one_handle_per_path r ->
  Forall (fun n =>
            (exists b d, n = slash (slash base b) d /\
               forallb is_digit (String.list_ascii_of_string b) = true /\
               forallb is_digit (String.list_ascii_of_string d) = true) /\
            n ∈ looked_up_names base buses /\
            n ∉ map path (listed r))
         (opened_names
            (events_of_scan
               (find_usb_device Trim is_adb_interface fuel base (Some buses) r))).
Proof.
  intros Hwf Hone. unfold find_usb_device.
  destruct (find_usb_device_buses_opens Trim is_adb_interface fuel base buses r [] Hwf Hone)
    as (_ & _ & _ & new & -> & Hopen).
  cbn [app]. eapply Forall_impl; [exact Hopen|].
  intros n [Hin Hnew]. split_and!; [|done|done].
  clear -Hin. unfold looked_up_names in Hin.
  apply list_elem_of_In, List.in_concat in Hin as (names & Hnames & Hn).
  apply list_elem_of_In in Hn. apply List.in_map_iff in Hnames as (b & <- & _).
  destruct (contains_non_digit (bus_name b)) eqn:Hb; [by apply elem_of_nil in Hn|].
  destruct (bus_devs b) as [des|]; [|by apply elem_of_nil in Hn].
  apply list_elem_of_fmap in Hn as (de & -> & Hde).
  apply list_elem_of_In, List.filter_In in Hde as [_ Hd].
  exists (bus_name b), (de_name de). split; [done|].
  rewrite contains_non_digit_digits in Hb, Hd.
  apply negb_false_iff in Hb. rewrite negb_involutive in Hd. done.
Qed.

Lemma find_usb_device_opens_witness :
  Forall (fun n =>
            (exists b d, n = slash (slash "/dev/bus/usb" b) d /\
               forallb is_digit (String.list_ascii_of_string b) = true /\
               forallb is_digit (String.list_ascii_of_string d) = true) /\
            n ∈ looked_up_names "/dev/bus/usb"
                  [BusEntry "." None; BusEntry "001" (Some [adb_entry (Some (189, 1))])] /\
            n ∉ map path (listed no_handles))
         (opened_names
            (events_of_scan
               (find_usb_device (fun s => s) adb_class_policy 10 "/dev/bus/usb"
                  (Some [BusEntry "." None; BusEntry "001" (Some [adb_entry (Some (189, 1))])])
                  no_handles))).
Proof.
  apply find_usb_device_opens.
  - split; [apply NoDup_nil_2|]. intros p Hp. by apply elem_of_nil in Hp.
  - apply NoDup_nil_2.
Defined.

(** ** After a kick *)

(** X25.  Once a handle has been kicked, the stream calls on it fail
    without touching the device: [usb_read] of a positive length and
    [usb_write] of a length other than -1 return -1 with [errno] EINVAL,
    and the trace only gains the entry of one bulk call, the lock and the
    unlock: nothing is submitted. *)
Theorem usb_kick_fails_stream_calls h data len s :
  hnd s = (usb_kick h).1 ->
  (0 < len ->
   (usb_read data len s).1 = Ret (-1) /\ errno (usb_read data len s).2 = EINVAL /\
   trace (usb_read data len s).2 = trace s ++ [EvBulkRead data len; EvLock; EvUnlock]) /\
  (len <> -1 ->
   (usb_write data len s).1 = Ret (-1) /\ errno (usb_write data len s).2 = EINVAL /\
   trace (usb_write data len s).2 = trace s ++ [EvBulkWrite data len; EvLock; EvUnlock]).
Proof.
  intros Hh.
  assert (dead (hnd s) = true) as Hd by (rewrite Hh; apply usb_kick_dead).
  split; intros Hlen.
  - by apply usb_read_on_dead_handle.
  - by apply usb_write_on_dead_handle.
Qed.

Lemma usb_kick_fails_stream_calls_witness :
  (usb_read 0 64 on_dead_handle).1 = Ret (-1) /\
  errno (usb_read 0 64 on_dead_handle).2 = EINVAL /\
  (usb_write 0 64 on_dead_handle).1 = Ret (-1) /\
  errno (usb_write 0 64 on_dead_handle).2 = EINVAL.
Proof.
  destruct (usb_kick_fails_stream_calls live_handle 0 64 on_dead_handle eq_refl)
    as [Hr Hw].
  destruct (Hr ltac:(lia)) as (H1 & H2 & _).
  destruct (Hw ltac:(lia)) as (H3 & H4 & _).
  split_and!; [exact H1|exact H2|exact H3|exact H4].
Defined.

(** ** Handles registered during a turn *)

Lemma is_known_device_newly_marked r0 dev_name r :
  newly_marked r0 r -> newly_marked r0 (is_known_device dev_name r).2.
Proof.
  intros Hnew. unfold is_known_device. destruct (List.find _ _) as [q|]; [|done].
  intros p Hp Hp0. cbn [snd heap g_usb_handles] in *.
  destruct (Hnew p Hp Hp0) as (u & Hu & Hm & Hd).
  rewrite lookup_alter. case_decide; [|by exists u].
  subst q. rewrite Hu. by exists (with_mark true u).
Qed.

Lemma register_device_newly_marked Trim r0 dev_name dev_path ep_in ep_out interface
    serial_index zero_mask os r :
  registry_wf r -> newly_marked r0 r ->
  newly_marked r0 (registry_of (register_device Trim dev_name dev_path ep_in ep_out interface
                                  serial_index zero_mask os r)).
Proof.
  intros Hwf Hnew.
  destruct (register_device_registry Trim dev_name dev_path ep_in ep_out interface
              serial_index zero_mask os r) as [->|(_ & usb & _ & Hm & Hd & ->)]; [done|].
  intros p Hp Hp0. cbn [heap g_usb_handles] in *.
  apply elem_of_app in Hp as [Hp| ->%list_elem_of_singleton].
  - destruct (Hnew p Hp Hp0) as (u & Hu & Hmu & Hdu). exists u. split; [|done].
    rewrite lookup_insert_ne; [done|]. intros <-. by apply (fresh_not_listed r).
  - exists usb. by rewrite lookup_insert_eq.
Qed.

Section ScanNew.

Variable Trim : string -> string.
Variable is_adb_interface : Z -> Z -> Z -> Z -> Z -> bool.
Variable fuel : nat.

Lemma find_usb_device_entry_newly_marked r0 bus de r r' tr :
  registry_wf r -> one_handle_per_path r -> newly_marked r0 r ->
  find_usb_device_entry Trim is_adb_interface fuel bus de r = ScanDone r' tr ->
  newly_marked r0 r' /\ forall p, events_on p tr = [].
Proof.
  intros Hwf Hone Hnew. unfold find_usb_device_entry.
  destruct (contains_non_digit (de_name de)); [by intros [= <- <-]|].
  destruct (is_known_device_wf (slash bus (de_name de)) r Hwf Hone) as (Hwf1 & _ & _).
  pose proof (is_known_device_newly_marked r0 (slash bus (de_name de)) r Hnew) as Hnew1.
  set (k := is_known_device (slash bus (de_name de)) r) in *.
  destruct (negb (k.1 =? 0)); [by intros [= <- <-]|].
  destruct (de_open de =? -1); [by intros [= <- <-]|].
  destruct (de_read de <? 0); [by intros [= <- <-]|].
  destruct (Load.value _) as [m| |]; [|by intros [= <- <-]|done].
  match goal with
  | |- context [register_device ?T ?n ?dp ?a ?b ?c ?d ?e ?o ?r1] =>
      pose proof (register_device_newly_marked T r0 n dp a b c d e o r1 Hwf1 Hnew1) as Hnew2;
      pose proof (fun p => register_device_events_on T p n dp a b c d e o r1) as Hev;
      destruct (register_device T n dp a b c d e o r1) as [r2 tr2|r2 tr2]
  end; [|done].
  intros [= <- <-]. cbn [events_of registry_of] in *. split; [done|]. intros p.
  change (events_on p ([EvOpen (slash bus (de_name de)) false; EvRead (de_open de)]
                       ++ tr2 ++ [EvClose (de_open de)]) = []).
  rewrite !events_on_app, Hev. reflexivity.
Qed.

Lemma find_usb_device_bus_newly_marked r0 bus des r tr r' tr' :
  registry_wf r -> one_handle_per_path r -> newly_marked r0 r ->
  find_usb_device_bus Trim is_adb_interface fuel bus des r tr = ScanDone r' tr' ->
  newly_marked r0 r' /\ forall p, events_on p tr' = events_on p tr.
Proof.
  revert r tr. induction des as [|de des IH]; intros r tr Hwf Hone Hnew;
    cbn [find_usb_device_bus].
  { by intros [= <- <-]. }
  destruct (find_usb_device_entry _ _ _ _ _ _) as [r1 tr1|r1 tr1|r1 tr1] eqn:Hentry;
    [|done|done].
  pose proof Hentry as Hentry'.
  apply find_usb_device_entry_wf in Hentry as (Hwf1 & Hone1 & _); [|done|done].
  apply (find_usb_device_entry_newly_marked r0) in Hentry' as [Hnew1 Hev1]; [|done|done|done].
  intros Hrest. apply IH in Hrest as [Hnew' Hev']; [|done|done|done].
  split; [done|]. intros p. by rewrite Hev', events_on_app, Hev1, app_nil_r.
Qed.

Lemma find_usb_device_buses_newly_marked r0 base buses r tr r' tr' :
  registry_wf r -> one_handle_per_path r -> newly_marked r0 r ->
  find_usb_device_buses Trim is_adb_interface fuel base buses r tr = ScanDone r' tr' ->
  newly_marked r0 r' /\ forall p, events_on p tr' = events_on p tr.
Proof.
  revert r tr. induction buses as [|b buses IH]; intros r tr Hwf Hone Hnew;
    cbn [find_usb_device_buses].
  { by intros [= <- <-]. }
  destruct (contains_non_digit (bus_name b)); [by apply IH|].
  destruct (bus_devs b) as [des|]; [|by apply IH].
  destruct (find_usb_device_bus _ _ _ _ _ _ _) as [r1 tr1|r1 tr1|r1 tr1] eqn:Hbus;
    [|done|done].
  pose proof Hbus as Hbus'.
  apply find_usb_device_bus_wf in Hbus as (Hwf1 & Hone1 & _); [|done|done].
  apply (find_usb_device_bus_newly_marked r0) in Hbus' as [Hnew1 Hev1]; [|done|done|done].
  intros Hrest. apply IH in Hrest as [Hnew' Hev']; [|done|done|done].
  split; [done|]. intros p. by rewrite Hev'.
Qed.

End ScanNew.

(** X26.  A handle that is put on the list during a turn of the poll
    thread is not kicked by the sweep of the same turn: after the turn it
    is alive with its mark clear, and nothing was done on it. *)
Theorem device_poll_cycle_keeps_new Trim is_adb_interface fuel dir r r' tr p :
  registry_wf r -> one_handle_per_path r ->
  device_poll_cycle Trim is_adb_interface fuel dir r = ScanDone r' tr ->
  p ∈ g_usb_handles r' -> p ∉ g_usb_handles r ->
  exists u, heap r' !! p = Some u /\ mark u = false /\ dead u = false /\
            events_on p tr = [].
Proof.
  intros Hwf Hone. unfold device_poll_cycle.
  destruct (find_usb_device _ _ _ _ _ _) as [r1 tr1|r1 tr1|r1 tr1] eqn:Hscan; [|done|done].
  intros Hcycle.
  assert (r' = (kick_disconnected_devices r1).1 /\
          tr = tr1 ++ (kick_disconnected_devices r1).2) as [-> ->]
    by (by injection Hcycle).
  clear Hcycle. intros Hp Hp0.
  change (g_usb_handles (kick_disconnected_devices r1).1) with (g_usb_handles r1) in Hp.
  assert (registry_wf r1 /\ newly_marked r r1 /\ forall q, events_on q tr1 = [])
    as ([Hnd1 _] & Hnew1 & Hev1).
  { unfold find_usb_device in Hscan. destruct dir as [buses|].
    - pose proof Hscan as Hscan'.
      apply find_usb_device_buses_wf in Hscan as (Hwf1 & _ & _); [|done|done].
      apply (find_usb_device_buses_newly_marked Trim is_adb_interface fuel r) in Hscan'
        as [Hnew1 Hev1]; [done|done|done|].
      intros q Hq Hq0. done.
    - injection Hscan as <- <-. split_and!; [done| |done]. intros q Hq Hq0. done. }
  destruct (Hnew1 p Hp Hp0) as (u & Hu & Hm & Hd).
  destruct (kick_sweep_member (g_usb_handles r1) (heap r1, []) p u Hnd1 Hp Hu)
    as [Hheap Hev].
  exists (with_mark false u).
  unfold kick_disconnected_devices. cbn [fst snd heap].
  rewrite events_on_app, Hev1, Hheap, Hev, Hm. done.
Qed.

Lemma device_poll_cycle_keeps_new_witness :
  exists u,
    heap (registry_of_scan
            (device_poll_cycle (fun s => s) adb_class_policy 10 (one_device (Some (189, 1)))
               no_handles)) !! 1%positive = Some u /\
    mark u = false /\ dead u = false /\
    events_on 1%positive
      (events_of_scan
         (device_poll_cycle (fun s => s) adb_class_policy 10 (one_device (Some (189, 1)))
            no_handles)) = [].
Proof.
  apply (device_poll_cycle_keeps_new (fun s => s) adb_class_policy 10
           (one_device (Some (189, 1))) no_handles).
  - split; [apply NoDup_nil_2|]. intros p Hp. by apply elem_of_nil in Hp.
  - apply NoDup_nil_2.
  - vm_compute. reflexivity.
  - apply (bool_decide_unpack _). vm_compute. exact I.
  - intros Hp. by apply elem_of_nil in Hp.
Defined.

(** ** Many turns of the poll thread *)

Lemma unregistered_app p tr1 tr2 :
  unregistered p (tr1 ++ tr2) = (unregistered p tr1 + unregistered p tr2)%nat.
Proof. unfold unregistered. by rewrite events_on_app, List.filter_app, length_app. Qed.

(** One turn and a listed handle: the turn clears its mark and does nothing
    on it, or kicks it. *)
Lemma device_poll_cycle_listed_at Trim is_adb_interface fuel p u dir r r' tr :
  listed_at p u r ->
  device_poll_cycle Trim is_adb_interface fuel dir r = ScanDone r' tr ->
  (listed_at p (with_mark false u) r' /\ events_on p tr = []) \/
  (listed_at p (usb_kick u).1 r' /\ events_on p tr = (usb_kick u).2).
Proof.
  intros Hl. unfold device_poll_cycle.
  destruct (find_usb_device _ _ _ _ _ _) as [r1 tr1|r1 tr1|r1 tr1] eqn:Hscan; [|done|done].
  intros Hcycle.
  assert (r' = (kick_disconnected_devices r1).1 /\
          tr = tr1 ++ (kick_disconnected_devices r1).2) as [-> ->]
    by (by injection Hcycle).
  clear Hcycle.
  apply (find_usb_device_listed_at Trim is_adb_interface fuel p u) in Hscan
    as [Hev Hl1]; [|done].
  assert (exists u1, listed_at p u1 r1 /\ (u1 = u \/ u1 = with_mark true u))
    as (u1 & (Hwf1 & Hone1 & Hp1 & Hu1) & Hcase).
  { case_bool_decide; eauto. }
  destruct (kick_disconnected_devices_wf r1 Hwf1) as (Hwf' & Hlist & Hpaths & _).
  destruct Hwf1 as [Hnd1 Halloc1].
  destruct (kick_sweep_member (g_usb_handles r1) (heap r1, []) p u1 Hnd1 Hp1 Hu1)
    as [Hheap Hev'].
  assert (forall u', heap (kick_disconnected_devices r1).1 !! p = Some u' ->
            listed_at p u' (kick_disconnected_devices r1).1) as Hlisted.
  { intros u' Hu'. split_and!; [done| |by rewrite Hlist|done].
    unfold one_handle_per_path. by rewrite Hpaths. }
  rewrite events_on_app, Hev.
  change (events_on p (kick_disconnected_devices r1).2)
    with (events_on p (foldl (fun acc p => kick_if_unmarked p acc) (heap r1, [])
                         (g_usb_handles r1)).2).
  rewrite Hev'. cbn [app events_on omap].
  change (heap (kick_disconnected_devices r1).1 !! p)
    with ((foldl (fun acc p => kick_if_unmarked p acc) (heap r1, [])
             (g_usb_handles r1)).1 !! p) in Hlisted.
  specialize (Hlisted _ Hheap).
  destruct Hcase as [->| ->].
  - destruct (mark u) eqn:Hm; [left|right]; done.
  - left. cbn [mark with_mark] in *. done.
Qed.

(** One turn and a listed handle, however the turn ends. *)
Lemma device_poll_cycle_any Trim is_adb_interface fuel p u dir r :
  listed_at p u r ->
  exists u',
    listed_at p u'
      (registry_of_scan (device_poll_cycle Trim is_adb_interface fuel dir r)) /\
    ((path u' = path u /\ writeable u' = writeable u /\ dead u' = dead u /\
      events_on p (events_of_scan (device_poll_cycle Trim is_adb_interface fuel dir r))
      = []) \/
     (u' = (usb_kick u).1 /\
      events_on p (events_of_scan (device_poll_cycle Trim is_adb_interface fuel dir r))
      = (usb_kick u).2)).
Proof.
  intros Hl.
  pose proof (device_poll_cycle_stopped Trim is_adb_interface fuel p u dir r Hl) as Hstop.
  destruct (device_poll_cycle _ _ _ _ _) as [r' tr|r' tr|r' tr] eqn:Hcycle;
    cbn [registry_of_scan events_of_scan].
  - apply (device_poll_cycle_listed_at Trim is_adb_interface fuel p u) in Hcycle
      as [[Hl1 Hev1]|[Hl1 Hev1]]; [| |done].
    + exists (with_mark false u). split; [done|]. left. done.
    + exists (usb_kick u).1. split; [done|]. by right.
  - destruct Hstop as (Hev & u' & Hl' & [->| ->] & _); eexists; (split; [exact Hl'|]);
      left; done.
  - destruct Hstop as (Hev & u' & Hl' & [->| ->] & _); eexists; (split; [exact Hl'|]);
      left; done.
Qed.

Lemma usb_kick_writeable h : writeable (usb_kick h).1 = writeable h.
Proof.
  unfold usb_kick. destruct (dead h); [done|].
  by destruct (negb (writeable (with_dead true h) =? 0)).
Qed.

(** X27.  Over any number of turns of the poll thread that follow one
    another with nothing done to the registry or the handle by another
    thread in between, however the last of them ends (also when its scan
    faults or hangs), [unregister_usb_transport] is called at most once for
    a listed handle, and not at all for a handle that is dead or writable
    at the start.  Under the same condition the handle stays listed with
    its path and its writability, stays dead once it is dead, and is dead
    if the transport was unregistered. *)
Theorem device_poll_thread_unregisters_once Trim is_adb_interface fuel dirs p u r :
  registry_wf r -> one_handle_per_path r ->
  p ∈ g_usb_handles r -> heap r !! p = Some u ->
  (unregistered p
     (events_of_scan (device_poll_thread Trim is_adb_interface fuel dirs r []))
   <= if dead u || negb (writeable u =? 0)%Z then 0 else 1)%nat /\
  p ∈ g_usb_handles
        (registry_of_scan (device_poll_thread Trim is_adb_interface fuel dirs r [])) /\
  exists u',
    heap (registry_of_scan (device_poll_thread Trim is_adb_interface fuel dirs r [])) !! p
    = Some u' /\
    path u' = path u /\
    writeable u' = writeable u /\
    (dead u = true -> dead u' = true) /\
    (unregistered p
       (events_of_scan (device_poll_thread Trim is_adb_interface fuel dirs r []))
     = 1%nat -> dead u' = true).
Proof.
  intros Hwf Hone Hin Hu.
  assert (listed_at p u r) as Hl by done. clear Hwf Hone Hin Hu.
  enough (forall tr0,
            let o := device_poll_thread Trim is_adb_interface fuel dirs r tr0 in
            (unregistered p (events_of_scan o)
             <= unregistered p tr0
                + if dead u || negb (writeable u =? 0)%Z then 0 else 1)%nat /\
            (unregistered p tr0 <= unregistered p (events_of_scan o))%nat /\
            p ∈ g_usb_handles (registry_of_scan o) /\
            exists u', heap (registry_of_scan o) !! p = Some u' /\ path u' = path u /\
                       writeable u' = writeable u /\
                       (dead u = true -> dead u' = true) /\
                       ((unregistered p tr0 < unregistered p (events_of_scan o))%nat ->
                        dead u' = true))
    as Hgen.
  { destruct (Hgen []) as (Hle & _ & Hin' & u' & Hu' & Hp & Hw & Hd & Hk).
    split_and!; [done|done|]. exists u'. split_and!; try done.
    intros H1. apply Hk. rewrite H1. cbn. lia. }
  revert u r Hl. induction dirs as [|dir dirs IH]; intros u r Hl tr0;
    cbn [device_poll_thread]; cbv zeta.
  { cbn [events_of_scan registry_of_scan]. destruct Hl as (_ & _ & Hin & Hu).
    split_and!; [lia|lia|done|]. exists u. split_and!; try done. lia. }
  destruct (device_poll_cycle_any Trim is_adb_interface fuel p u dir r Hl)
    as (u1 & Hl1 & Hcase).
  destruct (device_poll_cycle _ _ _ _ _) as [r1 tr1|r1 tr1|r1 tr1];
    cbn [registry_of_scan events_of_scan] in *.
  - destruct (IH u1 r1 Hl1 (tr0 ++ tr1)) as (Hle & Hge & Hin' & u' & Hu' & Hp & Hw & Hd & Hk).
    cbv zeta in *.
    rewrite unregistered_app in Hle, Hge, Hk.
    destruct Hcase as [(Hp1 & Hw1 & Hd1 & Hev1)|[-> Hev1]].
    + assert (unregistered p tr1 = 0%nat) as H0 by (unfold unregistered; by rewrite Hev1).
      rewrite H0, Nat.add_0_r in Hle, Hge, Hk. rewrite Hp1 in Hp. rewrite Hw1 in Hw, Hle.
      rewrite Hd1 in Hd, Hle.
      split_and!; [done|done|done|]. by exists u'.
    + assert (unregistered p tr1
              = if dead u || negb (writeable u =? 0) then 0%nat else 1%nat)
        as H1 by (unfold unregistered; rewrite Hev1; apply usb_kick_unregisters).
      rewrite usb_kick_dead in Hle, Hd. cbn [orb] in Hle.
      rewrite usb_kick_path in Hp. rewrite usb_kick_writeable in Hw.
      split_and!; [lia|lia|done|]. exists u'.
      split_and!; [done|done|done|intros _; by apply Hd|intros _; by apply Hd].
  - destruct Hl1 as (_ & _ & Hin1 & Hu1).
    destruct Hcase as [(Hp1 & Hw1 & Hd1 & Hev1)|[-> Hev1]].
    + assert (unregistered p tr1 = 0%nat) as H0 by (unfold unregistered; by rewrite Hev1).
      rewrite unregistered_app, H0.
      split_and!; [lia|lia|done|]. exists u1.
      split_and!; [done|done|done|congruence|lia].
    + assert (unregistered p tr1
              = if dead u || negb (writeable u =? 0) then 0%nat else 1%nat)
        as H1 by (unfold unregistered; rewrite Hev1; apply usb_kick_unregisters).
      rewrite unregistered_app, H1.
      split_and!; [lia|lia|done|]. exists (usb_kick u).1.
      split_and!; [done|apply usb_kick_path|apply usb_kick_writeable
                  |intros _; apply usb_kick_dead|intros _; apply usb_kick_dead].
  - destruct Hl1 as (_ & _ & Hin1 & Hu1).
    destruct Hcase as [(Hp1 & Hw1 & Hd1 & Hev1)|[-> Hev1]].
    + assert (unregistered p tr1 = 0%nat) as H0 by (unfold unregistered; by rewrite Hev1).
      rewrite unregistered_app, H0.
      split_and!; [lia|lia|done|]. exists u1.
      split_and!; [done|done|done|congruence|lia].
    + assert (unregistered p tr1
              = if dead u || negb (writeable u =? 0) then 0%nat else 1%nat)
        as H1 by (unfold unregistered; rewrite Hev1; apply usb_kick_unregisters).
      rewrite unregistered_app, H1.
      split_and!; [lia|lia|done|]. exists (usb_kick u).1.
      split_and!; [done|apply usb_kick_path|apply usb_kick_writeable
                  |intros _; apply usb_kick_dead|intros _; apply usb_kick_dead].
Qed.

Lemma device_poll_thread_unregisters_once_witness :
  (unregistered 1%positive
     (events_of_scan
        (device_poll_thread (fun s => s) adb_class_policy 10 [None; None; other_device]
           two_handles [])) <= 1)%nat /\
  1%positive
    ∈ g_usb_handles
        (registry_of_scan
           (device_poll_thread (fun s => s) adb_class_policy 10 [None; None; other_device]
              two_handles [])).
Proof.
  assert (registry_wf two_handles) as Hwf.
  { split.
    - apply (bool_decide_unpack _). vm_compute. exact I.
    - apply Forall_forall. apply (bool_decide_unpack _). vm_compute. exact I. }
  assert (one_handle_per_path two_handles) as Hone.
  { apply (bool_decide_unpack _). vm_compute. exact I. }
  assert (1%positive ∈ g_usb_handles two_handles) as Hin.
  { apply (bool_decide_unpack _). vm_compute. exact I. }
  destruct (device_poll_thread_unregisters_once (fun s => s) adb_class_policy 10
              [None; None; other_device] 1%positive unseen_handle two_handles
              Hwf Hone Hin eq_refl)
    as (H1 & H2 & _).
  split; [exact H1|exact H2].
Defined.

(** In the run of the witness the transport of the read-only handle is
    unregistered once, in the first of the three turns. *)
Lemma device_poll_thread_unregisters_in_first_turn :
  unregistered 1%positive
    (events_of_scan
       (device_poll_thread (fun s => s) adb_class_policy 10 [None] two_handles [])) = 1%nat /\
  unregistered 1%positive
    (events_of_scan
       (device_poll_thread (fun s => s) adb_class_policy 10 [None; None; other_device]
          two_handles [])) = 1%nat.
Proof. split; vm_compute; reflexivity. Qed.
